(** * percona-agent: retry backoff, MySQL restart monitor (MRMS) and the
      MySQL metrics monitor loop

    A shallow embedding of

    - [pct/backoff.go]            ([Backoff], [Wait], [Success]),
    - [mrms/monitor/monitor.go]   ([Monitor], [Add], [Remove], [Check],
                                   [GlobalSubscribe], [createMysqlInstance],
                                   [run]),
    - the [mysql] metrics monitor ([Monitor.run] and the metric getters,
                                   [connect], [Start], [Stop]),
    - the [instance] manager      ([Start], [mrmMySQL] and the handlers of
                                   an update, [GetMySQLInfo],
                                   [pushInstanceInfo], the restart watcher),
    - [log/manager.go]            ([Start], [Handle], [validateConfig],
                                   [GetConfig]),

    and the properties of the specification that concern them.

    Conventions.  Go's [int] and [time.Duration] are 64-bit signed integers,
    kept in [Z] with the wrap-around written out ([wrap_int64]).  A
    [float64] is a primitive binary64 float, so that rounding is the
    machine's.  Calls to collaborators (clock, random source, connection
    factory, loggers, channels) are threaded explicitly: what they return is
    an argument of the embedded function and what the code asks of them is
    recorded in a trace of events. *)

From Stdlib Require Import ZArith Lia List.
From Stdlib Require Import Uint63 PrimFloat FloatOps SpecFloat.
From stdpp Require Import gmap strings list fin_maps.

Open Scope Z_scope.

(* ===================================================================== *)
(** * Package [pct]: [Backoff]                                            *)
(* ===================================================================== *)

Module Pct.

(** ** Machine integers and [time] *)

Definition wrap_int64 (z : Z) : Z := (z + 2 ^ 63) mod 2 ^ 64 - 2 ^ 63.

(** [time.Duration]: an [int64] count of nanoseconds. *)
Definition Duration : Type := Z.

Definition minDuration : Duration := - 2 ^ 63.
Definition maxDuration : Duration := 2 ^ 63 - 1.

Definition Nanosecond  : Duration := 1.
Definition Microsecond : Duration := 1000 * Nanosecond.
Definition Millisecond : Duration := 1000 * Microsecond.
Definition Second      : Duration := 1000 * Millisecond.

(** [time.Duration(t) * time.Second] on [int64]. *)
Definition Duration_mul (a b : Duration) : Duration := wrap_int64 (a * b).

(** [time.Time]: an instant, as nanoseconds elapsed since the zero Time
    (January 1, year 1, 00:00:00 UTC). *)
Definition Time : Type := Z.

Definition zeroTime : Time := 0.

Definition IsZero (t : Time) : bool := t =? 0.

(** [t.Sub(u)]: the duration [t - u], saturated to the range of
    [Duration]. *)
Definition Sub (t u : Time) : Duration :=
  let d := t - u in
  if d <? minDuration then minDuration
  else if maxDuration <? d then maxDuration
  else d.

(** ** [float64] helpers of the Go runtime and of package [math] *)

(** [float64(n)] for an [int] [n], rounded to nearest. *)
Definition float64_of_int (n : Z) : float :=
  if n =? - 2 ^ 63 then PrimFloat.opp (Z.ldexp 1%float 63)
  else if n <? 0 then PrimFloat.opp (PrimFloat.of_uint63 (Uint63.of_Z (- n)))
  else PrimFloat.of_uint63 (Uint63.of_Z n).

(** [int(f)] for a [float64] [f]: the fraction is discarded (truncation
    towards zero).  Go leaves the result open when the value does not fit;
    amd64 yields the smallest [int64], which is what is written here for
    infinities and NaN. *)
Definition int_of_float64 (f : float) : Z :=
  match Prim2SF f with
  | S754_zero _ => 0
  | S754_finite s m e =>
      let a := if 0 <=? e then Z.pos m * 2 ^ e else Z.pos m / 2 ^ (- e) in
      wrap_int64 (if s then - a else a)
  | S754_infinity _ | S754_nan => - 2 ^ 63
  end.

(** [math.Pow(2, y)] for a [y] that holds an integer: the power of two,
    exact while it is representable. *)
Definition math_Pow2 (y : float) : float := Z.ldexp 1%float (int_of_float64 y).

(** ** The [Backoff] struct

    [NowFunc] is a clock; a call of it, like a call of [time.Now], is an
    argument of [Success] below. *)

Record Backoff : Type := mkBackoff {
  try         : Z;
  lastSuccess : Time;
  resetAfter  : Duration
}.

Definition NewBackoff (resetAfter : Duration) : Backoff :=
  {| try := 0; lastSuccess := zeroTime; resetAfter := resetAfter |}.

Definition set_try (b : Backoff) (n : Z) : Backoff :=
  {| try := n; lastSuccess := lastSuccess b; resetAfter := resetAfter b |}.

Definition set_lastSuccess (b : Backoff) (t : Time) : Backoff :=
  {| try := try b; lastSuccess := t; resetAfter := resetAfter b |}.

(** [b.Wait()].  [rnd] is what [rand.Float64()] returns if it is called:
    a [float64] in [[0, 1)]. *)
Definition Wait (b : Backoff) (rnd : float) : Backoff * Duration :=
  if try b =? 0 then
    let t := 0 in
    (set_try b (wrap_int64 (try b + 1)), Duration_mul t Second)
  else if try b <? 7 then
    let t := int_of_float64
               (PrimFloat.sub (math_Pow2 (float64_of_int (try b))) 1%float) in
    (set_try b (wrap_int64 (try b + 1)), Duration_mul t Second)
  else
    let t := int_of_float64
               (PrimFloat.add 90%float (PrimFloat.mul 90%float rnd)) in
    (b, Duration_mul t Second).

(** [b.Success()].  [nowFunc] is the reading of [b.NowFunc()], [now] the
    reading of [time.Now()]; each is consulted only on the branch that
    calls it. *)
Definition Success (b : Backoff) (nowFunc now : Time) : Backoff :=
  if IsZero (lastSuccess b) then
    set_lastSuccess b now
  else if resetAfter b <? Sub (lastSuccess b) nowFunc then
    set_try (set_lastSuccess b now) 0
  else
    b.

(** Successive calls of [Wait], one random draw per call; the waits are
    returned in call order. *)
Fixpoint Waits (b : Backoff) (rnds : list float) : Backoff * list Duration :=
  match rnds with
  | [] => (b, [])
  | r :: rs =>
      let '(b1, d) := Wait b r in
      let '(b2, ds) := Waits b1 rs in
      (b2, d :: ds)
  end.

(** The range of [rand.Float64()]. *)
Definition unit_interval (r : float) : bool :=
  PrimFloat.leb 0%float r && PrimFloat.ltb r 1%float.

(** The largest [float64] below 1: [1 - 2^-53]. *)
Definition below_one : float := PrimFloat.next_down 1%float.

(** A well-formed instant of [time.Now()]: 2015-01-01T00:00:00Z. *)
Definition t2015 : Time := 63555667200 * Second.

(** ** Sequences of calls

    The owner of a [Backoff] calls [Wait] before an attempt and [Success]
    after one that worked; each call comes with what the random source or
    the clocks answer during it. *)
Inductive BackoffCall : Type :=
  | CallWait (rnd : float)
  | CallSuccess (nowFunc now : Time).

Definition backoff_call (b : Backoff) (k : BackoffCall) : Backoff :=
  match k with
  | CallWait rnd => fst (Wait b rnd)
  | CallSuccess nowFunc now => Success b nowFunc now
  end.

Definition backoff_calls (b : Backoff) (ks : list BackoffCall) : Backoff :=
  foldl backoff_call b ks.

(** The number of [Wait]s in a sequence. *)
Fixpoint count_waits (ks : list BackoffCall) : Z :=
  match ks with
  | [] => 0
  | CallWait _ :: rest => 1 + count_waits rest
  | CallSuccess _ _ :: rest => count_waits rest
  end.

(** The clocks do not run backwards: from [t] on, every reading is at
    least the one before it. *)
Fixpoint forward_clock (t : Time) (ks : list BackoffCall) : bool :=
  match ks with
  | [] => true
  | CallWait _ :: rest => forward_clock t rest
  | CallSuccess nowFunc now :: rest =>
      (t <=? nowFunc) && (nowFunc <=? now) && forward_clock now rest
  end.

(** The reading of [time.Now()] in the first [Success] of a sequence, the
    zero Time when there is none. *)
Fixpoint first_success (ks : list BackoffCall) : Time :=
  match ks with
  | [] => zeroTime
  | CallWait _ :: rest => first_success rest
  | CallSuccess _ now :: _ => now
  end.

End Pct.

(* ===================================================================== *)
(** * Package [mrms/monitor]: the MySQL restart monitor                   *)
(* ===================================================================== *)

Module Mrms.

Definition MONITOR_NAME : string := "mrms-monitor".

(** A Go [error] value, by its message. *)
Definition error : Type := string.

(** A channel, by the identity of the object [make(chan ...)] returned. *)
Definition Chan : Type := nat.

(** A [mysql.Connector] handle as [mysqlConnFactory.Make(dsn)] returns it:
    a new object for every call, which remembers its DSN. *)
Record Conn : Type := mkConn { conn_id : nat; conn_dsn : string }.

(** The methods of [mysql.Connector] that act on the connection. *)
Inductive ConnectorOp : Type := Connect | Close | Uptime.

(** ** [Subscribers] *)

(** Modelled from the spec: the [Subscribers] type of package [monitor]
    (its file is not among the sources).  Section 4.2: a per-target set of
    notification channels and the membership of the target in the merged
    global stream; [Add] registers a new channel and returns it, [Remove]
    unregisters a handle, [Empty] tells whether a direct subscriber is
    left, [GlobalAdd] registers the global channel for a target and fails
    with [UnknownTargetError] when the target has no direct subscriber,
    [GlobalRemove] unregisters the target from the global stream. *)
Record Subscribers : Type := mkSubscribers {
  subscribers       : gset Chan;
  globalSubscribers : gmap string Chan
}.

(** Modelled from the spec: [NewSubscribers], a registry entry with an
    initially empty subscriber set (section 4.2). *)
Definition NewSubscribers : Subscribers :=
  {| subscribers := ∅; globalSubscribers := ∅ |}.

(** Modelled from the spec: the error of [GlobalAdd] (section 4.2); its
    wording is not fixed there. *)
Definition UnknownTargetError (dsn : string) : error :=
  ("Unknown target: " +:+ dsn)%string.

(** Modelled from the spec: [s.Add()] creates a notification channel,
    registers it and returns it (section 4.2); [fresh] is the channel
    that [make] allocates. *)
Definition Subscribers_Add (s : Subscribers) (fresh : Chan)
  : Subscribers * Chan :=
  ({| subscribers := {[fresh]} ∪ subscribers s;
      globalSubscribers := globalSubscribers s |}, fresh).

(** Modelled from the spec: [s.Remove(c)] unregisters the handle
    (section 4.2). *)
Definition Subscribers_Remove (s : Subscribers) (c : Chan) : Subscribers :=
  {| subscribers := subscribers s ∖ {[c]};
     globalSubscribers := globalSubscribers s |}.

(** Modelled from the spec: [s.Empty()], whether the per-target
    subscriber set is empty (section 4.2, [remove]). *)
Definition Subscribers_Empty (s : Subscribers) : bool :=
  bool_decide (subscribers s = ∅).

(** Modelled from the spec: [s.GlobalAdd(c, dsn)] registers the channel
    for the target and fails with [UnknownTargetError] when the target has
    no direct subscriber (section 4.2). *)
Definition Subscribers_GlobalAdd (s : Subscribers) (c : Chan) (dsn : string)
  : Subscribers + error :=
  if Subscribers_Empty s then inr (UnknownTargetError dsn)
  else inl {| subscribers := subscribers s;
              globalSubscribers := <[dsn := c]> (globalSubscribers s) |}.

(** Modelled from the spec: [s.GlobalRemove(dsn)] unregisters the target
    from the global stream, whatever its direct handles (section 4.2). *)
Definition Subscribers_GlobalRemove (s : Subscribers) (dsn : string)
  : Subscribers :=
  {| subscribers := subscribers s;
     globalSubscribers := delete dsn (globalSubscribers s) |}.

(** ** [MysqlInstance] *)

(** Modelled from the spec: the [MysqlInstance] type of package [monitor]
    (its file is not among the sources).  Section 3: the connection handle
    of the target, its subscriber set and the fingerprint last read from
    it, if any. *)
Record MysqlInstance : Type := mkMysqlInstance {
  mysqlConn   : Conn;
  Subscribers_of : Subscribers;
  fingerprint : option Z
}.

Definition set_Subscribers (mi : MysqlInstance) (s : Subscribers)
  : MysqlInstance :=
  {| mysqlConn := mysqlConn mi; Subscribers_of := s;
     fingerprint := fingerprint mi |}.

Definition set_fingerprint (mi : MysqlInstance) (f : Z) : MysqlInstance :=
  {| mysqlConn := mysqlConn mi; Subscribers_of := Subscribers_of mi;
     fingerprint := Some f |}.

(** What the outside world answers during one call of a [Monitor] method:
    whether opening a connection succeeds, and what reading the
    fingerprint of a target yields. *)
Record Env : Type := mkEnv {
  connect : Conn -> option error;
  uptime  : Conn -> Z + error
}.

(** What a method asks of its collaborators, in order. *)
Inductive Event : Type :=
  | LogDebug (msg : string)
  | LogError (err : error)
  | FactoryMake (dsn : string) (c : Conn)
  | ConnCall (c : Conn) (op : ConnectorOp)
  | Notify (dsn : string) (s : Subscribers).

(** Modelled from the spec: [NewMysqlInstance] (not among the sources).
    Section 4.3: adding a target for the first time opens a connection to
    it, and a failure to open is returned as an error.  The Go result
    [(mi, err)] has exactly one component that is not nil. *)
Definition NewMysqlInstance (env : Env) (mysqlConn : Conn) (s : Subscribers)
  : (MysqlInstance + error) * list Event :=
  match connect env mysqlConn with
  | Some err => (inr err, [ConnCall mysqlConn Connect])
  | None =>
      (inl {| mysqlConn := mysqlConn; Subscribers_of := s;
              fingerprint := None |},
       [ConnCall mysqlConn Connect])
  end.

(** Modelled from the spec: [CheckIfMysqlRestarted] (not among the
    sources).  Section 4.3, steps 2 and 3: a fingerprint that cannot be
    read is an error; one that is lower than the stored fingerprint means
    a restart; the fingerprint read becomes the stored one. *)
Definition CheckIfMysqlRestarted (env : Env) (mi : MysqlInstance)
  : MysqlInstance * (bool * option error) * list Event :=
  match uptime env (mysqlConn mi) with
  | inr err => (mi, (false, Some err), [ConnCall (mysqlConn mi) Uptime])
  | inl up =>
      let wasRestarted :=
        match fingerprint mi with
        | Some last => up <? last
        | None => false
        end in
      (set_fingerprint mi up, (wasRestarted, None),
       [ConnCall (mysqlConn mi) Uptime])
  end.

(** ** [Monitor] *)

(** The fields of the struct that the methods below read or write.  The
    methods hold the struct's lock from entry to return, so a method call
    is one step.  [heap] is not a field: it is the identity of the next
    object the Go heap hands out. *)
Record Monitor : Type := mkMonitor {
  mysqlInstances : gmap string MysqlInstance;
  globalChan     : Chan;
  heap           : nat
}.

Definition NewMonitor : Monitor :=
  {| mysqlInstances := ∅; globalChan := 0%nat; heap := 1%nat |}.

Definition set_mysqlInstances (m : Monitor) (i : gmap string MysqlInstance)
  : Monitor :=
  {| mysqlInstances := i; globalChan := globalChan m; heap := heap m |}.

Definition alloc (m : Monitor) : Monitor :=
  {| mysqlInstances := mysqlInstances m; globalChan := globalChan m;
     heap := S (heap m) |}.

Section Methods.

(** [mysql.HideDSNPassword], of a package that is not among the sources. *)
Variable HideDSNPassword : string -> string.

Definition createMysqlInstance (env : Env) (m : Monitor) (dsn : string)
  : (MysqlInstance + error) * Monitor * list Event :=
  let mysqlConn := {| conn_id := heap m; conn_dsn := dsn |} in
  let m := alloc m in
  let subscribers := NewSubscribers in
  let '(r, ev) := NewMysqlInstance env mysqlConn subscribers in
  (r, m,
   [LogDebug ("createMysqlInstance:call:" +:+ HideDSNPassword dsn);
    FactoryMake dsn mysqlConn] ++ ev ++
   [LogDebug ("createMysqlInstance:return:" +:+ HideDSNPassword dsn)]).

(** [m.Add(dsn)].  The result is the pair [(c, err)]. *)
Definition Add (env : Env) (m : Monitor) (dsn : string)
  : Monitor * (option Chan * option error) * list Event :=
  let call := LogDebug ("Add:call:" +:+ HideDSNPassword dsn) in
  let ret := LogDebug ("Add:return:" +:+ HideDSNPassword dsn) in
  let '(r, m, ev) :=
    match mysqlInstances m !! dsn with
    | Some mysqlInstance => (inl mysqlInstance, m, [])
    | None =>
        let '(r, m, ev) := createMysqlInstance env m dsn in
        match r with
        | inr err => (inr err, m, ev)
        | inl mysqlInstance =>
            (inl mysqlInstance,
             set_mysqlInstances m (<[dsn := mysqlInstance]> (mysqlInstances m)),
             ev)
        end
    end in
  match r with
  | inr err => (m, (None, Some err), [call] ++ ev ++ [ret])
  | inl mysqlInstance =>
      let '(s, c) := Subscribers_Add (Subscribers_of mysqlInstance) (heap m) in
      let m := alloc m in
      (set_mysqlInstances m
         (<[dsn := set_Subscribers mysqlInstance s]> (mysqlInstances m)),
       (Some c, None), [call] ++ ev ++ [ret])
  end.

(** [m.Remove(dsn, c)].  After [delete] the record is no longer in the
    map, so what [GlobalRemove] writes to it is not seen again. *)
Definition Remove (m : Monitor) (dsn : string) (c : Chan)
  : Monitor * list Event :=
  let call := LogDebug ("Remove:call:" +:+ HideDSNPassword dsn) in
  let ret := LogDebug ("Remove:return:" +:+ HideDSNPassword dsn) in
  match mysqlInstances m !! dsn with
  | Some mysqlInstance =>
      let s := Subscribers_Remove (Subscribers_of mysqlInstance) c in
      if Subscribers_Empty s then
        (set_mysqlInstances m (delete dsn (mysqlInstances m)), [call; ret])
      else
        let s := Subscribers_GlobalRemove s dsn in
        (set_mysqlInstances m
           (<[dsn := set_Subscribers mysqlInstance s]> (mysqlInstances m)),
         [call; ret])
  | None => (m, [call; ret])
  end.

(** The body of the loop of [GlobalSubscribe], over the entries still to
    visit; the first error ends the loop. *)
Fixpoint GlobalSubscribe_range (gc : Chan)
    (entries : list (string * MysqlInstance))
    (insts : gmap string MysqlInstance)
  : gmap string MysqlInstance * option error :=
  match entries with
  | [] => (insts, None)
  | (key, instance) :: rest =>
      match Subscribers_GlobalAdd (Subscribers_of instance) gc
              (conn_dsn (mysqlConn instance)) with
      | inr err => (insts, Some err)
      | inl s =>
          GlobalSubscribe_range gc rest
            (<[key := set_Subscribers instance s]> insts)
      end
  end.

(** [m.GlobalSubscribe()].  Go ranges over a map in an order it does not
    fix; [map_to_list] is one such order. *)
Definition GlobalSubscribe (m : Monitor)
  : Monitor * (option Chan * option error) * list Event :=
  let '(insts, err) :=
    GlobalSubscribe_range (globalChan m) (map_to_list (mysqlInstances m))
      (mysqlInstances m) in
  let m := set_mysqlInstances m insts in
  let tr := [LogDebug "GlobalSubscribe:call"; LogDebug "GlobalSubscribe:return"] in
  match err with
  | Some e => (m, (None, Some e), tr)
  | None => (m, (Some (globalChan m), None), tr)
  end.

(** One iteration of the loop of [Check], for the entry [key]. *)
Definition Check_body (env : Env) (key : string) (mysqlInstance : MysqlInstance)
  : MysqlInstance * list Event :=
  let '(mi, (wasRestarted, err), ev) :=
    CheckIfMysqlRestarted env mysqlInstance in
  match err with
  | Some e => (mi, ev ++ [LogError e])
  | None =>
      if wasRestarted then
        (mi, ev ++
           [LogDebug ("Check:restarted:" +:+
                        HideDSNPassword (conn_dsn (mysqlConn mi)));
            Notify key (Subscribers_of mi)])
      else (mi, ev)
  end.

Fixpoint Check_range (env : Env) (entries : list (string * MysqlInstance))
    (insts : gmap string MysqlInstance)
  : gmap string MysqlInstance * list Event :=
  match entries with
  | [] => (insts, [])
  | (key, mysqlInstance) :: rest =>
      let '(mi, ev) := Check_body env key mysqlInstance in
      let '(insts, tr) := Check_range env rest (<[key := mi]> insts) in
      (insts, ev ++ tr)
  end.

(** [m.Check()]: one poll tick. *)
Definition Check (env : Env) (m : Monitor) : Monitor * list Event :=
  let '(insts, tr) :=
    Check_range env (map_to_list (mysqlInstances m)) (mysqlInstances m) in
  (set_mysqlInstances m insts,
   [LogDebug "Check:call"] ++ tr ++ [LogDebug "Check:return"]).

(** ** Histories of calls

    A caller of the monitor, seen from outside: the methods it calls, with
    what the outside world answers during each call. *)
Inductive Call : Type :=
  | CallAdd (env : Env) (dsn : string)
  | CallRemove (dsn : string) (c : Chan)
  | CallCheck (env : Env)
  | CallGlobalSubscribe.

(** The handles each target has handed out through [Add] and not yet got
    back through [Remove]: the subscribers of the target, as its callers
    count them. *)
Definition Handles : Type := string -> gset Chan.

Definition no_handles : Handles := fun _ => ∅.

Definition hand_out (live : Handles) (dsn : string) (c : Chan) : Handles :=
  fun t => if decide (t = dsn) then {[c]} ∪ live t else live t.

Definition give_back (live : Handles) (dsn : string) (c : Chan) : Handles :=
  fun t => if decide (t = dsn) then live t ∖ {[c]} else live t.

Definition call (st : Monitor * Handles) (k : Call) : Monitor * Handles :=
  let '(m, live) := st in
  match k with
  | CallAdd env dsn =>
      let '(m, (c, _), _) := Add env m dsn in
      (m, match c with Some c => hand_out live dsn c | None => live end)
  | CallRemove dsn c => (fst (Remove m dsn c), give_back live dsn c)
  | CallCheck env => (fst (Check env m), live)
  | CallGlobalSubscribe => (fst (fst (GlobalSubscribe m)), live)
  end.

(** The monitor and the handles after a history of calls on a new
    monitor. *)
Definition after (history : list Call) : Monitor * Handles :=
  foldl call (NewMonitor, no_handles) history.

End Methods.

(** The direct subscribers of a record. *)
Definition direct (mi : MysqlInstance) : gset Chan :=
  subscribers (Subscribers_of mi).

(** A monitor agrees with the handles that are out when the direct
    subscribers of every record are the handles of its target that are
    still out, and a target without such handles has no record. *)
Definition consistent (st : Monitor * Handles) : Prop :=
  forall t, direct <$> mysqlInstances (fst st) !! t =
            if decide (snd st t = ∅) then None else Some (snd st t).

(** ** A sample target *)

Definition dsn1 : string := "root:secret@tcp(db1:3306)/".

(** A world in which every connection opens and every fingerprint reads
    as given, and one in which nothing answers. *)
Definition env_up (fingerprint : Z) : Env :=
  {| connect := fun _ => None; uptime := fun _ => inl fingerprint |}.

Definition env_down : Env :=
  {| connect := fun _ => Some "connection refused"%string;
     uptime := fun _ => inr "connection refused"%string |}.

(** A redaction that shows nothing of the DSN. *)
Definition redact : string -> string := fun _ => "***"%string.

(** The monitor after [dsn1] was added once: its connection has identity 1
    and its only subscriber is channel 2. *)
Definition conn1 : Conn := mkConn 1 dsn1.

Definition m1 : Monitor :=
  fst (fst (Add redact (env_up 100) NewMonitor dsn1)).

(** ** The poll loop *)

(** What the [select] at the end of an iteration of [run] receives. *)
Inductive Wake : Type := IntervalElapsed | StopSignal.

(** What [run] asks of its collaborators: a status update, what a method
    it calls asks, the signal that the loop is done. *)
Inductive RunEvent : Type :=
  | Status (name status : string)
  | Called (e : Event)
  | SyncDone.

(** The [for] loop of [run], one iteration for every element of [polls]:
    the world during the [Check] of the iteration and what ends its wait.
    The flag tells whether the loop returned; with the polls used up it is
    still running. *)
Fixpoint run_loop (HideDSNPassword : string -> string) (m : Monitor)
    (polls : list (Env * Wake)) : Monitor * bool * list RunEvent :=
  match polls with
  | [] => (m, false, [])
  | (env, wake) :: rest =>
      let '(m, tr) := Check HideDSNPassword env m in
      let ev :=
        [Status MONITOR_NAME "Checking"] ++ map Called tr ++
        [Status MONITOR_NAME "Idle"] in
      match wake with
      | IntervalElapsed =>
          let '(m, stopped, tr) := run_loop HideDSNPassword m rest in
          (m, stopped, ev ++ tr)
      | StopSignal => (m, true, ev)
      end
  end.

(** [m.run(interval)]; the deferred calls run when the loop returns, the
    last one registered first. *)
Definition run (HideDSNPassword : string -> string) (m : Monitor)
    (polls : list (Env * Wake)) : Monitor * bool * list RunEvent :=
  let '(m, stopped, tr) := run_loop HideDSNPassword m polls in
  (m, stopped,
   [Called (LogDebug "run:call")] ++ tr ++
   (if stopped
    then [Status MONITOR_NAME "Stopped"; SyncDone;
          Called (LogDebug "run:return")]
    else [])).





(** ** Objects in histories *)

(** What of a record says whom it serves: its connection and its direct
    subscribers. *)
Definition registration (mi : MysqlInstance) : Conn * gset Chan :=
  (mysqlConn mi, direct mi).

(** The objects of a monitor are in order when everything handed out is
    older than the next object of the heap, no handle is the global
    channel, no handle is out for two targets, and every record holds a
    connection made for the DSN it is filed under. *)
Definition tidy (st : Monitor * Handles) : Prop :=
  (globalChan (fst st) < heap (fst st))%nat /\
  (forall t c, c ∈ snd st t ->
     (c < heap (fst st))%nat /\ c <> globalChan (fst st)) /\
  (forall t t' c, c ∈ snd st t -> c ∈ snd st t' -> t = t') /\
  (forall t mi, mysqlInstances (fst st) !! t = Some mi ->
     conn_dsn (mysqlConn mi) = t /\
     (conn_id (mysqlConn mi) < heap (fst st))%nat).

End Mrms.

(* ===================================================================== *)
(** * Package [mysql]: the metrics monitor                                *)
(* ===================================================================== *)

Module Mysql.

Definition error : Type := string.

(** [mm.Metric] and [mm.Collection]. *)
Record Metric : Type := mkMetric {
  Name   : string;
  Type_  : string;
  Number : float;
  String_ : string
}.

Record Collection : Type := mkCollection {
  Ts      : Z;
  Metrics : list Metric
}.

(** The fields of [Config] that [run] and the getters read. *)
Record Config : Type := mkConfig {
  DSN               : string;
  InstanceName      : string;
  Status            : gmap string string;
  InnoDB            : string;
  UserStats         : bool;
  UserStatsIgnoreDb : string
}.

(** [t.UTC().Unix()]: seconds since January 1, 1970 UTC. *)
Definition Unix (t : Pct.Time) : Z := t / Pct.Second - 62135596800.

(** What [conn.Query] and the iteration over its rows yield: the query
    fails, or rows are scanned in order until the rows end or an error
    ([rows.Scan], [rows.Err]) ends the iteration. *)
Inductive QueryResult (R : Type) : Type :=
  | QueryFailed (err : error)
  | QueryRows (rows : list R) (stop : option error).
Arguments QueryFailed {R} err.
Arguments QueryRows {R} rows stop.

(** What the database answers during one tick. *)
Record DB : Type := mkDB {
  show_status      : QueryResult (string * string);
  innodb_metrics   : QueryResult (string * string * string * string);
  table_statistics : QueryResult (string * string * Z * Z * Z);
  index_statistics : QueryResult (string * string * string * Z)
}.

(** The state of the downstream channel while [run] tries to send: how
    long after entering the [select] the channel can take the envelope, if
    ever, and which case Go picks when the send and the timer are ready
    at the same instant. *)
Record Downstream : Type := mkDownstream {
  ready_after : option Pct.Duration;
  pick_send   : bool
}.

(** What the loop asks of its collaborators, in order. *)
Inductive Event : Type :=
  | StatusUpdate (proc status : string)
  | LogDebug (msg : string)
  | Query (sql : string)
  | Blocked (d : Pct.Duration)
  | Send (c : Collection)
  | GoConnect
  | ConnClose
  | SyncDone.

(** The events the [select] of [run] receives. [Stop] tells whether
    [m.conn] is set when the loop returns. *)
Inductive LoopEvent : Type :=
  | Tick (now : Pct.Time) (db : DB) (q : Downstream)
  | Connected (connected : bool)
  | Stop (conn_set : bool).

(** The fields of the struct that [run] reads or writes. *)
Record Monitor : Type := mkMonitor {
  config    : Config;
  connected : bool
}.

Definition NewMonitor (c : Config) : Monitor :=
  {| config := c; connected := false |}.

Definition set_connected (m : Monitor) (b : bool) : Monitor :=
  {| config := config m; connected := b |}.

(** A writer for the trace of events. *)
Definition W (A : Type) : Type := A * list Event.

Definition ret {A : Type} (a : A) : W A := (a, []).

Definition bind {A B : Type} (m : W A) (k : A -> W B) : W B :=
  let '(a, t1) := m in
  let '(b, t2) := k a in
  (b, t1 ++ t2).

Definition emit (e : Event) : W unit := (tt, [e]).

Declare Scope writer_scope.
Delimit Scope writer_scope with W.
Notation "x <- m ;; k" := (bind m (fun x => k))
  (at level 100, m at next level, right associativity) : writer_scope.
Notation "m ;;; k" := (bind m (fun _ => k))
  (at level 100, right associativity) : writer_scope.

(** [select] between the send on [collectionChan] and
    [time.After(timeout)]: whether the envelope was sent, and how long the
    [select] blocked. *)
Definition select_send (timeout : Pct.Duration) (q : Downstream)
  : bool * Pct.Duration :=
  match ready_after q with
  | Some d =>
      if d <? timeout then (true, Z.max 0 d)
      else if d =? timeout then (pick_send q, timeout)
      else (false, timeout)
  | None => (false, timeout)
  end.

Section Run.

(** [strings.ToLower] and [strconv.ParseFloat(s, 64)] of the Go library. *)
Variable ToLower : string -> string.
Variable ParseFloat : string -> float + error.

Local Open Scope string_scope.
Local Open Scope writer_scope.

Definition append_metric (c : Collection) (x : Metric) : Collection :=
  {| Ts := Ts c; Metrics := Metrics c ++ [x] |}.

Definition parse_or_zero (s : string) : float :=
  match ParseFloat s with
  | inl v => v
  | inr _ => 0%float
  end.

(** The loop body of [GetShowStatusMetrics] for one scanned row. *)
Definition show_status_row (cfg : Config) (prefix : string)
    (c : Collection) (row : string * string) : Collection :=
  let '(statName, statValue) := row in
  let statName := ToLower statName in
  match Status cfg !! statName with
  | None => c
  | Some metricType =>
      let metricName := prefix +:+ "/" +:+ statName in
      let metricValue := parse_or_zero statValue in
      append_metric c (mkMetric metricName metricType metricValue "")
  end.

Definition GetShowStatusMetrics (cfg : Config) (db : DB) (prefix : string)
    (c : Collection) : W (Collection * option error) :=
  emit (Query "SHOW /*!50002 GLOBAL */ STATUS") ;;;
  match show_status db with
  | QueryFailed err => ret (c, Some err)
  | QueryRows rows stop =>
      ret (foldl (show_status_row cfg prefix) c rows, stop)
  end.

Definition innodb_row (prefix : string) (c : Collection)
    (row : string * string * string * string) : Collection :=
  let '(statName, statSubsystem, statCount, statType) := row in
  let metricName :=
    prefix +:+ "/innodb/" +:+ ToLower statSubsystem +:+ "/" +:+
    ToLower statName in
  let metricValue := parse_or_zero statCount in
  let metricType :=
    if bool_decide (statType = "value") then "gauge" else "counter" in
  append_metric c (mkMetric metricName metricType metricValue "").

Definition GetInnoDBMetrics (db : DB) (prefix : string) (c : Collection)
  : W (Collection * option error) :=
  emit (Query "SELECT NAME, SUBSYSTEM, COUNT, TYPE FROM INFORMATION_SCHEMA.INNODB_METRICS WHERE STATUS='enabled'") ;;;
  match innodb_metrics db with
  | QueryFailed err => ret (c, Some err)
  | QueryRows rows stop => ret (foldl (innodb_row prefix) c rows, stop)
  end.

Definition table_row (prefix : string) (c : Collection)
    (row : string * string * Z * Z * Z) : Collection :=
  let '(tableSchema, tableName, rowsRead, rowsChanged, rowsChangedIndexes) :=
    row in
  let base := prefix +:+ "/db." +:+ tableSchema +:+ "/t." +:+ tableName in
  let c := append_metric c
    (mkMetric (base +:+ "/rows_read") "counter"
       (Pct.float64_of_int rowsRead) "") in
  let c := append_metric c
    (mkMetric (base +:+ "/rows_changed") "counter"
       (Pct.float64_of_int rowsChanged) "") in
  append_metric c
    (mkMetric (base +:+ "/rows_changed_x_indexes") "counter"
       (Pct.float64_of_int rowsChangedIndexes) "").

Definition getTableUserStats (db : DB) (prefix : string) (c : Collection)
    (ignoreDb : string) : W (Collection * option error) :=
  let sql :=
    "SELECT TABLE_SCHEMA, TABLE_NAME, ROWS_READ, ROWS_CHANGED, ROWS_CHANGED_X_INDEXES" +:+
    " FROM INFORMATION_SCHEMA.TABLE_STATISTICS" in
  let sql :=
    if bool_decide (ignoreDb = "") then sql
    else sql +:+ " WHERE TABLE_SCHEMA NOT LIKE '" +:+ ignoreDb +:+ "'" in
  emit (Query sql) ;;;
  match table_statistics db with
  | QueryFailed err => ret (c, Some err)
  | QueryRows rows stop => ret (foldl (table_row prefix) c rows, stop)
  end.

Definition index_row (prefix : string) (c : Collection)
    (row : string * string * string * Z) : Collection :=
  let '(tableSchema, tableName, indexName, rowsRead) := row in
  let metricName :=
    prefix +:+ "/db." +:+ tableSchema +:+ "/t." +:+ tableName +:+
    "/idx." +:+ indexName +:+ "/rows_read" in
  let metricValue := Pct.float64_of_int rowsRead in
  append_metric c (mkMetric metricName "counter" metricValue "").

Definition getIndexUserStats (db : DB) (prefix : string) (c : Collection)
    (ignoreDb : string) : W (Collection * option error) :=
  let sql :=
    "SELECT TABLE_SCHEMA, TABLE_NAME, INDEX_NAME, ROWS_READ" +:+
    " FROM INFORMATION_SCHEMA.INDEX_STATISTICS" in
  let sql :=
    if bool_decide (ignoreDb = "") then sql
    else sql +:+ " WHERE TABLE_SCHEMA NOT LIKE '" +:+ ignoreDb +:+ "'" in
  emit (Query sql) ;;;
  match index_statistics db with
  | QueryFailed err => ret (c, Some err)
  | QueryRows rows stop => ret (foldl (index_row prefix) c rows, stop)
  end.

(** "Get collection of metrics": the calls of the getters in the tick
    case; their errors are dropped. *)
Definition collect (cfg : Config) (db : DB) (prefix : string)
    (c : Collection) : W Collection :=
  r <- GetShowStatusMetrics cfg db prefix c ;;
  let c := fst r in
  c <- (if bool_decide (InnoDB cfg = "") then ret c
        else r <- GetInnoDBMetrics db prefix c ;; ret (fst r)) ;;
  if UserStats cfg then
    r <- getTableUserStats db prefix c (UserStatsIgnoreDb cfg) ;;
    r <- getIndexUserStats db prefix (fst r) (UserStatsIgnoreDb cfg) ;;
    ret (fst r)
  else ret c.

Definition delivery_timeout : Pct.Duration := 500 * Pct.Millisecond.

(** "Send the metrics": the inner [select], or the debug message. *)
Definition send_metrics (c : Collection) (q : Downstream) : W unit :=
  if (0 <? Z.of_nat (length (Metrics c)))%Z then
    let '(sent, waited) := select_send delivery_timeout q in
    emit (Blocked waited) ;;;
    if sent then emit (Send c)
    else emit (LogDebug "Lost MySQL metrics; timeout spooling after 500ms")
  else
    emit (LogDebug "No metrics").

(** The case [now := <-m.tickChan] of the [select] of [run]. *)
Definition on_tick (m : Monitor) (prefix : string) (now : Pct.Time)
    (db : DB) (q : Downstream) : W unit :=
  if negb (connected m) then ret tt
  else
    emit (StatusUpdate "mysql" "Running") ;;;
    let c := {| Ts := Unix now; Metrics := [] |} in
    c <- collect (config m) db prefix c ;;
    send_metrics c q ;;;
    emit (StatusUpdate "mysql" "Ready").

(** The case [connected := <-m.connectedChan]. *)
Definition on_connected (m : Monitor) (b : bool) : W Monitor :=
  let m := set_connected m b in
  (if b then
     emit (StatusUpdate "mysql" "Ready") ;;; emit (LogDebug "Connected")
   else
     emit (LogDebug "Disconnected") ;;; emit GoConnect) ;;;
  ret m.

(** The deferred function of [run]. *)
Definition on_return (conn_set : bool) : W unit :=
  (if conn_set then emit ConnClose else ret tt) ;;;
  emit (StatusUpdate "mysql" "Stopped") ;;;
  emit SyncDone.

(** The [for] loop of [run] over the events its [select] receives.  When
    the events are used up the loop is blocked in [select]; the final
    flag tells whether [run] has returned. *)
Fixpoint loop (m : Monitor) (prefix : string) (events : list LoopEvent)
  : W (Monitor * bool) :=
  match events with
  | [] => ret (m, false)
  | Tick now db q :: rest =>
      on_tick m prefix now db q ;;;
      loop m prefix rest
  | Connected b :: rest =>
      m <- on_connected m b ;;
      loop m prefix rest
  | Stop conn_set :: _ =>
      on_return conn_set ;;;
      ret (m, true)
  end.

Definition run_prefix (cfg : Config) : string :=
  if bool_decide (InstanceName cfg = "") then "mysql"
  else "mysql" +:+ "/" +:+ InstanceName cfg.

(** [m.run()]. *)
Definition run (m : Monitor) (events : list LoopEvent) : W (Monitor * bool) :=
  emit GoConnect ;;;
  loop m (run_prefix (config m)) events.

End Run.

(** No "connected" event: every event is a tick, a "disconnected" event
    or a stop. *)
Definition not_connected_event (e : LoopEvent) : bool :=
  match e with
  | Connected true => false
  | _ => true
  end.

(** The events of a trace that belong to a collection: a query of a
    getter, the wait on the downstream channel, the send of an envelope. *)
Definition collection_event (e : Event) : bool :=
  match e with
  | Query _ | Blocked _ | Send _ => true
  | _ => false
  end.

(** The downstream channel does not take the envelope before the timer
    of [timeout] fires. *)
Definition not_taken_within (timeout : Pct.Duration) (q : Downstream) : bool :=
  match ready_after q with
  | Some d => timeout <? d
  | None => true
  end.

(** ** A sample monitor *)

Definition cfg1 : Config :=
  {| DSN := "root:secret@tcp(db1:3306)/"; InstanceName := "db1";
     Status := {[ "threads_running"%string := "gauge"%string ]};
     InnoDB := ""; UserStats := false; UserStatsIgnoreDb := "" |}.

Definition db1 : DB :=
  {| show_status :=
       QueryRows [("Threads_running", "3"); ("Uptime", "100")]%string None;
     innodb_metrics := QueryRows [] None;
     table_statistics := QueryRows [] None;
     index_statistics := QueryRows [] None |}.

(** A database that answers no query. *)
Definition db_gone : DB :=
  {| show_status := QueryFailed "sql: database is closed";
     innodb_metrics := QueryFailed "sql: database is closed";
     table_statistics := QueryFailed "sql: database is closed";
     index_statistics := QueryFailed "sql: database is closed" |}.

(** A downstream channel that takes the envelope at once, and one that
    never takes anything. *)
Definition ready : Downstream := {| ready_after := Some 0; pick_send := true |}.
Definition stuck : Downstream := {| ready_after := None; pick_send := false |}.

(** [strings.ToLower] on ASCII letters. *)
Definition ascii_lower (a : Ascii.ascii) : Ascii.ascii :=
  let n := Ascii.nat_of_ascii a in
  if (65 <=? n)%nat && (n <=? 90)%nat then Ascii.ascii_of_nat (n + 32) else a.

Fixpoint lower (s : string) : string :=
  match s with
  | EmptyString => EmptyString
  | String a rest => String (ascii_lower a) (lower rest)
  end.

(** [strconv.ParseFloat] on the two values of [db1]. *)
Definition parse1 (s : string) : float + error :=
  if bool_decide (s = "3"%string) then inl 3%float
  else if bool_decide (s = "100"%string) then inl 100%float
  else inr ("strconv.ParseFloat: parsing " +:+ s +:+ ": invalid syntax")%string.

(** ** What a collection holds *)

(** The rows a query yields before it ends, none when it fails. *)
Definition rows_of {R : Type} (q : QueryResult R) : list R :=
  match q with
  | QueryFailed _ => []
  | QueryRows rows _ => rows
  end.

Section Closed.

Variable ToLower : string -> string.
Variable ParseFloat : string -> float + error.

Local Open Scope string_scope.

(** The metric of a row of [SHOW STATUS], if its name is configured. *)
Definition status_metric (cfg : Config) (prefix : string)
    (row : string * string) : option Metric :=
  let statName := ToLower (fst row) in
  match Status cfg !! statName with
  | None => None
  | Some metricType =>
      Some (mkMetric (prefix +:+ "/" +:+ statName) metricType
              (parse_or_zero ParseFloat (snd row)) "")
  end.

(** The metric of a row of the InnoDB metrics table. *)
Definition innodb_metric (prefix : string)
    (row : string * string * string * string) : Metric :=
  let '(statName, statSubsystem, statCount, statType) := row in
  mkMetric
    (prefix +:+ "/innodb/" +:+ ToLower statSubsystem +:+ "/" +:+
     ToLower statName)
    (if bool_decide (statType = "value"%string) then "gauge" else "counter")
    (parse_or_zero ParseFloat statCount) "".

(** The three metrics of a row of the table statistics. *)
Definition table_metrics (prefix : string) (row : string * string * Z * Z * Z)
  : list Metric :=
  let '(tableSchema, tableName, rowsRead, rowsChanged, rowsChangedIndexes) :=
    row in
  let base := (prefix +:+ "/db." +:+ tableSchema +:+ "/t." +:+ tableName)%string in
  [mkMetric (base +:+ "/rows_read") "counter" (Pct.float64_of_int rowsRead) "";
   mkMetric (base +:+ "/rows_changed") "counter"
     (Pct.float64_of_int rowsChanged) "";
   mkMetric (base +:+ "/rows_changed_x_indexes") "counter"
     (Pct.float64_of_int rowsChangedIndexes) ""].

(** The metric of a row of the index statistics. *)
Definition index_metric (prefix : string) (row : string * string * string * Z)
  : Metric :=
  let '(tableSchema, tableName, indexName, rowsRead) := row in
  mkMetric
    (prefix +:+ "/db." +:+ tableSchema +:+ "/t." +:+ tableName +:+
     "/idx." +:+ indexName +:+ "/rows_read")
    "counter" (Pct.float64_of_int rowsRead) "".

(** The metrics a tick gathers under a configuration from what the
    database answers, in order. *)
Definition gathered (cfg : Config) (db : DB) (prefix : string) : list Metric :=
  omap (status_metric cfg prefix) (rows_of (show_status db)) ++
  (if bool_decide (InnoDB cfg = "") then []
   else map (innodb_metric prefix) (rows_of (innodb_metrics db))) ++
  (if UserStats cfg
   then (rows_of (table_statistics db) ≫= table_metrics prefix) ++
        map (index_metric prefix) (rows_of (index_statistics db))
   else []).

(** The condition the user statistics queries end with. *)
Definition where_clause (ignoreDb : string) : string :=
  if bool_decide (ignoreDb = "") then ""
  else " WHERE TABLE_SCHEMA NOT LIKE '" +:+ ignoreDb +:+ "'".

(** The queries of a tick under a configuration, in order. *)
Definition queries (cfg : Config) : list Event :=
  [Query "SHOW /*!50002 GLOBAL */ STATUS"] ++
  (if bool_decide (InnoDB cfg = "") then []
   else [Query "SELECT NAME, SUBSYSTEM, COUNT, TYPE FROM INFORMATION_SCHEMA.INNODB_METRICS WHERE STATUS='enabled'"]) ++
  (if UserStats cfg
   then [Query ("SELECT TABLE_SCHEMA, TABLE_NAME, ROWS_READ, ROWS_CHANGED, ROWS_CHANGED_X_INDEXES FROM INFORMATION_SCHEMA.TABLE_STATISTICS" +:+
                where_clause (UserStatsIgnoreDb cfg));
         Query ("SELECT TABLE_SCHEMA, TABLE_NAME, INDEX_NAME, ROWS_READ FROM INFORMATION_SCHEMA.INDEX_STATISTICS" +:+
                where_clause (UserStatsIgnoreDb cfg))]
   else []).

End Closed.

(** A collection grows out of another: same timestamp, the metrics of the
    first followed by [new]. *)
Definition grows (c c' : Collection) (new : list Metric) : Prop :=
  Ts c' = Ts c /\ Metrics c' = Metrics c ++ new.

(** A metric is named under a prefix. *)
Definition named_under (prefix : string) (x : Metric) : Prop :=
  exists rest, Name x = (prefix +:+ "/" +:+ rest)%string.

(** ** What a run leaves behind *)

Definition is_Stop (e : LoopEvent) : bool :=
  match e with
  | Stop _ => true
  | _ => false
  end.

(** The connected flag after the events up to the first stop, from the
    flag before them. *)
Fixpoint flag_after (flag : bool) (events : list LoopEvent) : bool :=
  match events with
  | [] => flag
  | Tick _ _ _ :: rest => flag_after flag rest
  | Connected b :: rest => flag_after b rest
  | Stop _ :: _ => flag
  end.

(** The "disconnected" events up to the first stop. *)
Fixpoint disconnects (events : list LoopEvent) : nat :=
  match events with
  | [] => 0
  | Tick _ _ _ :: rest => disconnects rest
  | Connected b :: rest => (if b then 0 else 1) + disconnects rest
  | Stop _ :: _ => 0
  end.

Definition is_GoConnect (e : Event) : bool :=
  match e with
  | GoConnect => true
  | _ => false
  end.

(** ** The connector *)

(** What one iteration of the loop of [connect] meets: [sql.Open] fails,
    or the ping fails, or the connection is up; in the last case, what
    the two [SET GLOBAL] statements return if they are executed. *)
Inductive Attempt : Type :=
  | OpenFails (err : error)
  | PingFails (err : error)
  | Connects (innodb userstat : option error).

(** The world during one iteration: the draw of the random source, the
    attempt, and the readings of the two clocks of [Backoff.Success]. *)
Record Try : Type := mkTry {
  try_rnd     : float;
  try_attempt : Attempt;
  try_nowFunc : Pct.Time;
  try_now     : Pct.Time
}.

(** The fields of the struct that [connect] reads or writes: the
    connection, a [*sql.DB] by the number of its [sql.Open], and the
    backoff.  [opened] is not a field: it counts the calls of [sql.Open]
    that returned a handle. *)
Record Connector : Type := mkConnector {
  conn    : option nat;
  backoff : Pct.Backoff;
  opened  : nat
}.

(** What [connect] asks of its collaborators, in order. *)
Inductive ConnEvent : Type :=
  | CStatus (status : string)
  | CSleep (d : Pct.Duration)
  | COpen (dsn : string)
  | CPing (db : nat)
  | CClose (db : nat)
  | CExec (db : nat) (sql : string)
  | CLogError (what : string) (err : error)
  | CLogWarn (what : string) (err : error)
  | CConnected (connected : bool).

(** The double quote. *)
Definition dquote : string :=
  String (Ascii.Ascii false true false false false true false false)
    EmptyString.

Section Connect.

(** [Duration.String] of package [time], which [fmt.Sprintf] applies for
    the verb [%s]. *)
Variable Duration_String : Pct.Duration -> string.

Local Open Scope string_scope.

(** "Set global vars we need": the statements after a successful ping;
    a failure is logged and nothing more. *)
Definition setup (cfg : Config) (db : nat) (innodb userstat : option error)
  : list ConnEvent :=
  (if bool_decide (InnoDB cfg = "") then []
   else
     let sql :=
       "SET GLOBAL innodb_monitor_enable = " +:+ dquote +:+ InnoDB cfg +:+
       dquote in
     CExec db sql ::
     match innodb with
     | Some err => [CLogError sql err]
     | None => []
     end)%list ++
  (if UserStats cfg then
     let sql := "SET GLOBAL userstat=ON" in
     CExec db sql ::
     match userstat with
     | Some err => [CLogError sql err]
     | None => []
     end
   else []).

(** The loop [for m.conn == nil] of [connect], one iteration for every
    element of [tries]; with the tries used up and no connection the loop
    is still running. *)
Fixpoint connect_loop (cfg : Config) (st : Connector) (tries : list Try)
  : Connector * list ConnEvent :=
  match conn st with
  | Some _ => (st, [])
  | None =>
      match tries with
      | [] => (st, [])
      | t :: rest =>
          let '(b, wait) := Pct.Wait (backoff st) (try_rnd t) in
          let ev :=
            [CStatus ("Connect wait " +:+ Duration_String wait);
             CSleep wait; CStatus "Connecting"; COpen (DSN cfg)] in
          match try_attempt t with
          | OpenFails err =>
              let '(st, tr) :=
                connect_loop cfg
                  {| conn := None; backoff := b; opened := opened st |} rest in
              (st, (ev ++ [CLogError "sql.Open: " err] ++ tr)%list)
          | PingFails err =>
              let db := opened st in
              let '(st, tr) :=
                connect_loop cfg
                  {| conn := None; backoff := b; opened := S db |} rest in
              (st, (ev ++ [CPing db; CLogWarn "db.Ping: " err; CClose db] ++ tr)%list)
          | Connects innodb userstat =>
              let db := opened st in
              let b := Pct.Success b (try_nowFunc t) (try_now t) in
              let '(st, tr) :=
                connect_loop cfg
                  {| conn := Some db; backoff := b; opened := S db |} rest in
              (st, (ev ++ [CPing db] ++ setup cfg db innodb userstat ++
                    [CStatus "Connected"; CConnected true] ++ tr)%list)
          end
      end
  end.

(** [m.connect()]. *)
Definition connect (cfg : Config) (st : Connector) (tries : list Try)
  : Connector * list ConnEvent :=
  let closed :=
    match conn st with
    | Some db => [CClose db]
    | None => []
    end in
  let '(st, tr) := connect_loop cfg st tries in
  (st, (closed ++ tr)%list).

(** The prefix of the trace of one iteration: the wait, then the call of
    [sql.Open]. *)
Definition iteration_start (cfg : Config) (wait : Pct.Duration)
  : list ConnEvent :=
  [CStatus ("Connect wait " +:+ Duration_String wait);
   CSleep wait; CStatus "Connecting"; COpen (DSN cfg)].

End Connect.

(** The calls of [connect] in the life of a monitor: [run] starts one
    when it starts and one for every "disconnected" event; each call
    comes with the attempts the world lets it make. *)
Section Life.

Variable Duration_String : Pct.Duration -> string.

Fixpoint connect_calls (cfg : Config) (st : Connector)
    (calls : list (list Try)) : Connector * list ConnEvent :=
  match calls with
  | [] => (st, [])
  | tries :: rest =>
      let '(st, tr1) := connect Duration_String cfg st tries in
      let '(st, tr2) := connect_calls cfg st rest in
      (st, (tr1 ++ tr2)%list)
  end.

End Life.

(** The connection fields of [NewMonitor]. *)
Definition NewConnector : Connector :=
  {| conn := None; backoff := Pct.NewBackoff (5 * Pct.Second);
     opened := 0%nat |}.

(** The waits a trace of [connect] sleeps, in order. *)
Definition sleeps (tr : list ConnEvent) : list Pct.Duration :=
  omap (fun e => match e with CSleep d => Some d | _ => None end) tr.

Definition is_Connects (t : Try) : bool :=
  match try_attempt t with
  | Connects _ _ => true
  | _ => false
  end.

(** The tries [connect] gets to: those up to the first that connects. *)
Fixpoint attempted (tries : list Try) : list Try :=
  match tries with
  | [] => []
  | t :: rest => if is_Connects t then [t] else t :: attempted rest
  end.

Definition is_CConnected (e : ConnEvent) : bool :=
  match e with
  | CConnected _ => true
  | _ => false
  end.

(** The handles a trace pings, and those it closes, in order. *)
Definition pinged (tr : list ConnEvent) : list nat :=
  omap (fun e => match e with CPing db => Some db | _ => None end) tr.

Definition closed (tr : list ConnEvent) : list nat :=
  omap (fun e => match e with CClose db => Some db | _ => None end) tr.

(** The statements a trace executes, with the handle of each. *)
Definition executed (tr : list ConnEvent) : list (nat * string) :=
  omap (fun e => match e with CExec db sql => Some (db, sql) | _ => None end)
    tr.

(** ** Start and stop *)

Module Lifecycle.

(** The fields of the struct that [Start] and [Stop] read or write; the
    connected flag is there because neither of them touches it. *)
Record Service : Type := mkService {
  svc_config    : option Config;
  svc_connected : bool
}.

Inductive ServiceError : Type :=
  | ServiceIsRunningError (name : string)
  | StartError (msg : string).

(** What [Start] and [Stop] ask of their collaborators. *)
Inductive ServiceEvent : Type :=
  | GoRun
  | SvcStatus (status : string)
  | SyncStop
  | SyncWait.

Section Calls.

Local Open Scope string_scope.

(** [json.Unmarshal] into a [Config]. *)
Variable Unmarshal : string -> Config + error.

Definition Start (s : Service) (config : string)
  : Service * option ServiceError * list ServiceEvent :=
  match svc_config s with
  | Some _ => (s, Some (ServiceIsRunningError "mysql-monitor"), [])
  | None =>
      match Unmarshal config with
      | inr err =>
          (s, Some (StartError ("mysql.Start:json.Unmarshal:" +:+ err)), [])
      | inl c =>
          ({| svc_config := Some c; svc_connected := svc_connected s |},
           None, [GoRun])
      end
  end.

Definition Stop (s : Service)
  : Service * option ServiceError * list ServiceEvent :=
  match svc_config s with
  | None => (s, None, [])
  | Some _ =>
      ({| svc_config := None; svc_connected := svc_connected s |}, None,
       [SvcStatus "Stopping"; SyncStop; SyncWait])
  end.

(** The calls a caller makes. *)
Inductive ServiceCall : Type :=
  | CallStart (config : string)
  | CallStop.

Definition service_call (s : Service) (k : ServiceCall)
  : Service * option ServiceError * list ServiceEvent :=
  match k with
  | CallStart config => Start s config
  | CallStop => Stop s
  end.

Fixpoint service_calls (s : Service) (ks : list ServiceCall)
  : Service * list ServiceEvent :=
  match ks with
  | [] => (s, [])
  | k :: rest =>
      let '(s, _, ev) := service_call s k in
      let '(s, tr) := service_calls s rest in
      (s, (ev ++ tr)%list)
  end.

End Calls.

Definition running (s : Service) : bool :=
  match svc_config s with
  | Some _ => true
  | None => false
  end.

(** In a trace, loops are started and waited for in turns: no loop is
    started while one is running, none is waited for while none is. *)
Fixpoint in_turns (running : bool) (tr : list ServiceEvent) : bool :=
  match tr with
  | [] => true
  | GoRun :: rest => negb running && in_turns true rest
  | SyncWait :: rest => running && in_turns false rest
  | _ :: rest => in_turns running rest
  end.

End Lifecycle.

End Mysql.

(* ===================================================================== *)
(** * Package [instance]: the instance manager                            *)
(* ===================================================================== *)

Module Instance.

Definition error : Type := string.

(** A channel, by the identity of the object. *)
Definition Chan : Type := nat.

(** The fields of [proto.Instance] that the manager reads or writes.
    [Properties] is a Go map: a function that is given the struct by
    value still writes to the map of its caller, so the functions below
    hand the instance back with what they wrote. *)
#[warnings="-register-all"]
Inductive ProtoInstance : Type := mkInstance {
  UUID       : string;
  Properties : gmap string string;
  Subsystems : list ProtoInstance
}.

Definition set_Properties (it : ProtoInstance) (p : gmap string string)
  : ProtoInstance :=
  {| UUID := UUID it; Properties := p; Subsystems := Subsystems it |}.

Definition set_Subsystems (it : ProtoInstance) (s : list ProtoInstance)
  : ProtoInstance :=
  {| UUID := UUID it; Properties := Properties it; Subsystems := s |}.

(** [it.Properties[key]]: the empty string for a key that is not there. *)
Definition property (it : ProtoInstance) (key : string) : string :=
  default EmptyString (Properties it !! key).

(** What [GetMySQLInfo] meets: the connection cannot be opened, or the
    row cannot be read, or the three columns scanned. *)
Inductive InfoAnswer : Type :=
  | ConnectFails (err : error)
  | ScanFails (err : error)
  | Scanned (hostname distro version : string).

(** What [pushInstanceInfo] meets: [json.Marshal] fails, [api.Put] fails,
    or [api.Put] returns a response, if any, by its status code, and a
    body, if any. *)
Inductive PutAnswer : Type :=
  | MarshalFails (err : error)
  | PutFails (err : error)
  | PutReturns (resp : option Z) (body : option string).

(** What the world answers while the manager deals with one instance:
    the result of [mrm.Add], and the two above. *)
Record Answers : Type := mkAnswers {
  ans_Add  : Chan + error;
  ans_info : InfoAnswer;
  ans_put  : PutAnswer
}.

(** What the manager asks of its collaborators, in order.  [MrmRemove]
    carries the channel it is called with, [None] for the nil channel
    that the map gives for a key it does not hold. *)
Inductive Event : Type :=
  | StatusUpdate (proc status : string)
  | LogDebug (msg : string)
  | LogInfo (msg : string)
  | LogWarn (msg : string)
  | LogError (args : list string)
  | RepoInit
  | MrmGlobalSubscribe
  | MrmAdd (dsn : string)
  | MrmRemove (dsn : string) (c : option Chan)
  | NewConnection (dsn : string)
  | ConnConnect (tries : Z)
  | QueryRow (sql : string)
  | ConnClose
  | ApiPut (apiKey uri : string) (inst : ProtoInstance)
  | GoMonitorInstancesRestart (ch : Chan).

(** The field of the struct that the functions below write. *)
Record Manager : Type := mkManager {
  mrmChans : gmap string Chan
}.

(** [strings.Join]. *)
Fixpoint Join (elems : list string) (sep : string) : string :=
  match elems with
  | [] => EmptyString
  | [e] => e
  | e :: rest => (e +:+ sep +:+ Join rest sep)%string
  end.

Local Open Scope string_scope.

Definition info_sql : string :=
  "SELECT /* percona-agent */" +:+
  " CONCAT_WS('.', @@hostname, IF(@@port='3306',NULL,@@port)) AS Hostname," +:+
  " @@version_comment AS Distro," +:+
  " @@version AS Version".

(** [GetMySQLInfo(it)]. *)
Definition GetMySQLInfo (it : ProtoInstance) (a : InfoAnswer)
  : ProtoInstance * option error * list Event :=
  let open := [NewConnection (property it "dsn"); ConnConnect 1] in
  match a with
  | ConnectFails err => (it, Some err, open)
  | ScanFails err => (it, Some err, (open ++ [QueryRow info_sql; ConnClose])%list)
  | Scanned hostname distro version =>
      (set_Properties it
         (<["version" := version]>
            (<["distro" := distro]>
               (<["hostname" := hostname]> (Properties it)))),
       None, (open ++ [QueryRow info_sql; ConnClose])%list)
  end.

Section Methods.

(** [mysql.HideDSNPassword], of a package that is not among the sources. *)
Variable HideDSNPassword : string -> string.

(** [api.EntryLink] and [api.ApiKey] of the API connector. *)
Variable EntryLink : string -> string.
Variable ApiKey : string.

(** The decimal form of an integer, as [fmt] prints it for [%d]. *)
Variable Itoa : Z -> string.

(** [m.pushInstanceInfo(inst)]. *)
Definition pushInstanceInfo (inst : ProtoInstance) (a : PutAnswer)
  : option error * list Event :=
  let inst := set_Subsystems inst [] in
  let uri := EntryLink "insts" +:+ "/" +:+ UUID inst in
  match a with
  | MarshalFails err => (Some err, [LogError [err]])
  | PutFails err => (Some err, [ApiPut ApiKey uri inst])
  | PutReturns resp body =>
      let body := default EmptyString body in
      match resp with
      | Some StatusCode =>
          if negb (StatusCode =? 200)%Z then
            (Some ("Failed to PUT: " +:+ Itoa StatusCode +:+ ", " +:+ body),
             [ApiPut ApiKey uri inst])
          else (None, [ApiPut ApiKey uri inst])
      | None => (None, [ApiPut ApiKey uri inst])
      end
  end.

(** One iteration of the loop of [Start]. *)
Definition Start_body (m : Manager) (instance : ProtoInstance) (a : Answers)
  : Manager * list Event :=
  let add := MrmAdd (property instance "dsn") in
  match ans_Add a with
  | inr err =>
      (m, [add; LogError ["Cannot add instance to the monitor:"; err]])
  | inl ch =>
      let safeDSN := HideDSNPassword (property instance "dsn") in
      let '(instance, err, ev) := GetMySQLInfo instance (ans_info a) in
      match err with
      | Some err =>
          (m, ([add; StatusUpdate "instance" ("Getting info " +:+ safeDSN)] ++
               ev ++
               [LogWarn ("Failed to get MySQL info " +:+ safeDSN +:+ ": " +:+
                         err)])%list)
      | None =>
          let '(_, pev) := pushInstanceInfo instance (ans_put a) in
          ({| mrmChans := <[property instance "dsn" := ch]> (mrmChans m) |},
           ([add; StatusUpdate "instance" ("Getting info " +:+ safeDSN)] ++
            ev ++
            [StatusUpdate "instance" ("Updating info " +:+ safeDSN)] ++
            pev)%list)
      end
  end.

Fixpoint Start_range (m : Manager) (instances : list (ProtoInstance * Answers))
  : Manager * list Event :=
  match instances with
  | [] => (m, [])
  | (instance, a) :: rest =>
      let '(m, ev) := Start_body m instance a in
      let '(m, tr) := Start_range m rest in
      (m, (ev ++ tr)%list)
  end.

(** [m.Start()].  [init] is what [repo.Init] returns, [global] what
    [mrm.GlobalSubscribe] returns, [instances] the MySQL instances of the
    repo with what the world answers for each. *)
Definition Start (m : Manager) (init : option error) (global : Chan + error)
    (instances : list (ProtoInstance * Answers))
  : Manager * option error * list Event :=
  match init with
  | Some err => (m, Some err, [StatusUpdate "instance" "Starting"; RepoInit])
  | None =>
      let started :=
        [StatusUpdate "instance" "Starting"; RepoInit; LogInfo "Started";
         StatusUpdate "instance" "Running"; MrmGlobalSubscribe] in
      match global with
      | inr err => (m, Some err, started)
      | inl mrmsGlobalChan =>
          let '(m, tr) := Start_range m instances in
          (m, None,
           (started ++
            [LogDebug "GetMySQLInstances:call";
             LogDebug "GetMySQLInstances:return"] ++ tr ++
            [GoMonitorInstancesRestart mrmsGlobalChan])%list)
      end
  end.

(** [m.mrmMySQL(inst)]. *)
Definition mrmMySQL (m : Manager) (inst : ProtoInstance) (a : Answers)
  : Manager * option error * list Event :=
  match Properties inst !! "dns" with
  | None => (m, Some ("Missing DSN in MySQL instance " +:+ UUID inst), [])
  | Some itDSN =>
      match ans_Add a with
      | inr err => (m, Some err, [MrmAdd itDSN])
      | inl ch =>
          let m := {| mrmChans := <[itDSN := ch]> (mrmChans m) |} in
          let safeDSN := HideDSNPassword itDSN in
          let '(inst, err, ev) := GetMySQLInfo inst (ans_info a) in
          let warn :=
            match err with
            | Some err =>
                [LogWarn ("Failed to get MySQL info " +:+ safeDSN +:+ ": " +:+
                          err)]
            | None => []
            end in
          let '(err, pev) := pushInstanceInfo inst (ans_put a) in
          (m, err,
           ([MrmAdd itDSN;
             StatusUpdate "instance" ("Getting info " +:+ safeDSN)] ++
            ev ++ warn ++
            [StatusUpdate "instance" ("Updating info " +:+ safeDSN)] ++
            pev)%list)
      end
  end.

(** [m.mrmAddedMySQL(added)]. *)
Fixpoint mrmAddedMySQL (m : Manager) (added : list (ProtoInstance * Answers))
  : Manager * list Event :=
  match added with
  | [] => (m, [])
  | (addIt, a) :: rest =>
      let '(m, err, ev) := mrmMySQL m addIt a in
      let log :=
        match err with
        | Some err => [LogError [err]]
        | None => []
        end in
      let '(m, tr) := mrmAddedMySQL m rest in
      (m, (ev ++ log ++ tr)%list)
  end.

(** [m.mrmDeletedMySQL(deleted)]; it writes no field. *)
Fixpoint mrmDeletedMySQL (m : Manager) (deleted : list ProtoInstance)
  : list Event :=
  match deleted with
  | [] => []
  | dltIt :: rest =>
      match Properties dltIt !! "dns" with
      | None =>
          LogError ["Missing DSN in deleted MySQL instance " +:+ UUID dltIt] ::
          mrmDeletedMySQL m rest
      | Some itDSN =>
          MrmRemove itDSN (mrmChans m !! itDSN) :: mrmDeletedMySQL m rest
      end
  end.

(** [m.mrmUpdatedMySQL(updated)]. *)
Definition mrmUpdatedMySQL (m : Manager)
    (updated : list (ProtoInstance * Answers)) : Manager * list Event :=
  let del := mrmDeletedMySQL m (map fst updated) in
  let '(m, tr) := mrmAddedMySQL m updated in
  (m, (del ++ tr)%list).

(** The status that [m.Status()] sets for "instance-repo", for the list
    that [repo.List] returns: the slice starts with as many empty
    strings as the list is long, and the UUIDs are appended to it. *)
Definition Status_line (list : list ProtoInstance) : string :=
  let uuids := replicate (length list) EmptyString in
  let uuids := foldl (fun uuids it => (uuids ++ [UUID it])%list) uuids list in
  Join uuids " ".

(** The body of the loop of [monitorInstancesRestart] for one DSN
    received from the channel: the range over the instances ends at the
    first one with that DSN. *)
Fixpoint refresh (safeDSN dsn : string) (instances : list ProtoInstance)
    (info : InfoAnswer) (put : PutAnswer) : list Event :=
  match instances with
  | [] => []
  | instance :: rest =>
      if negb (bool_decide (property instance "dsn" = dsn)) then
        refresh safeDSN dsn rest info put
      else
        let '(instance, err, ev) := GetMySQLInfo instance info in
        match err with
        | Some err =>
            (StatusUpdate "instance-mrms" ("Getting info " +:+ safeDSN) ::
             ev ++
             [LogWarn ("Failed to get MySQL info " +:+ safeDSN +:+ ": " +:+
                       err)])%list
        | None =>
            let '(err, pev) := pushInstanceInfo instance put in
            (StatusUpdate "instance-mrms" ("Getting info " +:+ safeDSN) ::
             ev ++
             [StatusUpdate "instance-mrms" ("Updating info " +:+ safeDSN)] ++
             pev ++
             match err with
             | Some err => [LogWarn err]
             | None => []
             end)%list
        end
  end.

Definition on_restart (dsn : string) (instances : list ProtoInstance)
    (info : InfoAnswer) (put : PutAnswer) : list Event :=
  let safeDSN := HideDSNPassword dsn in
  ([LogDebug ("mrms:restart:" +:+ safeDSN);
    StatusUpdate "instance-mrms" ("Updating " +:+ safeDSN);
    LogDebug "GetMySQLInstances:call"; LogDebug "GetMySQLInstances:return"] ++
   refresh safeDSN dsn instances info put)%list.

End Methods.

(** The DSNs a trace adds to the restart monitor, and the instances it
    puts to the API, in order. *)
Definition added_dsns (tr : list Event) : list string :=
  omap (fun e => match e with MrmAdd dsn => Some dsn | _ => None end) tr.

Definition put_instances (tr : list Event) : list ProtoInstance :=
  omap (fun e => match e with ApiPut _ _ inst => Some inst | _ => None end) tr.

Definition is_mrm_call (e : Event) : bool :=
  match e with
  | MrmAdd _ | MrmRemove _ _ | MrmGlobalSubscribe => true
  | _ => false
  end.


(** The instances of a [Start] whose channel is stored: those that were
    added and whose info was read. *)
Definition info_read (ia : ProtoInstance * Answers) : bool :=
  match ans_Add (snd ia), ans_info (snd ia) with
  | inl _, Scanned _ _ _ => true
  | _, _ => false
  end.

(** What [Start] stores for an instance whose channel it keeps. *)
Definition store (chans : gmap string Chan) (ia : ProtoInstance * Answers)
  : gmap string Chan :=
  match ans_Add (snd ia) with
  | inl ch => <[property (fst ia) "dsn" := ch]> chans
  | inr _ => chans
  end.

(** The calls of [mrm.Remove] in a trace, with their arguments. *)
Definition removed (tr : list Event) : list (string * option Chan) :=
  omap (fun e => match e with MrmRemove dsn c => Some (dsn, c) | _ => None end)
    tr.

(** [n] spaces. *)
Fixpoint blanks (n : nat) : string :=
  match n with
  | O => EmptyString
  | S n =>
      String (Ascii.Ascii false false false false false true false false)
        (blanks n)
  end.

(** Whether a push went through: [api.Put] returned no error and either
    no response or one with status 200. *)
Definition accepted (a : PutAnswer) : bool :=
  match a with
  | PutReturns None _ => true
  | PutReturns (Some StatusCode) _ => (StatusCode =? 200)%Z
  | _ => false
  end.

(** A sample instance, as the repo holds it: the DSN under the key
    "dsn". *)
Definition inst1 : ProtoInstance :=
  {| UUID := "313";
     Properties := {[ "dsn" := "user:pass@tcp(db1:3306)/" ]};
     Subsystems := [] |}.

Definition answers1 : Answers :=
  {| ans_Add := inl 7%nat;
     ans_info := Scanned "db1" "MySQL Community Server (GPL)" "5.6.24";
     ans_put := PutReturns (Some 200) None |}.

End Instance.

(* ===================================================================== *)
(** * Package [log]: the log manager                                      *)
(* ===================================================================== *)

Module Log.

(** A Go [error] value, by its message. *)
Definition error : Type := string.

(** [ToolIsRunningError.Error] and [UnknownCmdError.Error] of package
    [pct]. *)
Definition ToolIsRunningError (Tool : string) : error :=
  (Tool +:+ " tool is running")%string.

Definition UnknownCmdError (Cmd : string) : error :=
  ("Unknown command: " +:+ Cmd)%string.

(** The fields of [Config] that the manager reads or writes. *)
Record Config : Type := mkConfig {
  File    : string;
  Level   : string;
  Offline : bool
}.

(** [&Config{}]. *)
Definition zeroConfig : Config :=
  {| File := EmptyString; Level := EmptyString; Offline := false |}.

Definition set_File (c : Config) (file : string) : Config :=
  {| File := file; Level := Level c; Offline := Offline c |}.

Definition set_Level (c : Config) (level : string) : Config :=
  {| File := File c; Level := level; Offline := Offline c |}.

(** The fields of the struct that [Start] and [Handle] write.  [config]
    is a pointer: [None] is nil. *)
Record Manager : Type := mkManager {
  config  : option Config;
  running : bool
}.

Definition NewManager : Manager := {| config := None; running := false |}.

(** [proto.Cmd], by the fields [Handle] reads. *)
Record Cmd : Type := mkCmd {
  cmd_Cmd  : string;
  cmd_Data : string
}.

(** [proto.AgentConfig]. *)
Record AgentConfig : Type := mkAgentConfig {
  ac_Tool    : string;
  ac_Config  : string;
  ac_Running : bool
}.

(** What [cmd.Reply] is given: the data, if any, and the errors. *)
Inductive ReplyData : Type :=
  | NoData
  | ConfigData (c : Config)
  | AgentConfigs (l : list AgentConfig).

Record Reply : Type := mkReply {
  reply_data : ReplyData;
  reply_errs : list error
}.

(** What [pct.Basedir.ReadConfig] does in [Start]: it fills the config,
    or fails because the file does not exist, or fails otherwise. *)
Inductive ReadAnswer : Type :=
  | ReadOk (c : Config)
  | ReadNotExist (err : error)
  | ReadFails (err : error).

(** What the world answers during one [Handle]: whether the relay takes
    the new file, and the new level, within three seconds, and what
    [pct.Basedir.WriteConfig] returns. *)
Record World : Type := mkWorld {
  file_taken  : bool;
  level_taken : bool;
  write       : option error
}.

(** What the manager asks of its collaborators, in order. *)
Inductive Event : Type :=
  | NewRelay (file : string) (level : Z) (offline : bool)
  | GoRelayRun
  | LogInfo (msg : string)
  | StatusUpdate (proc status : string)
  | StatusUpdateRe (proc status : string) (cmd : Cmd)
  | RelayFile (file : string)
  | RelayLevel (level : Z)
  | TimedOut (d : Pct.Duration)
  | WriteConfig (c : option Config)
  | ClientDisconnect.

Section Methods.

(** [proto.LogLevelNumber] and [DEFAULT_LOG_LEVEL], which are not among
    the sources; [json.Unmarshal] into a [Config] and [json.Marshal] of
    the config pointer. *)
Variable LogLevelNumber : gmap string Z.
Variable DEFAULT_LOG_LEVEL : string.
Variable Unmarshal : string -> Config + error.
Variable Marshal : option Config -> string + error.

Local Open Scope string_scope.

(** [m.validateConfig(config)]: the config is a pointer, so the default
    level is written to the config of the caller. *)
Definition validateConfig (config : Config) : Config * option error :=
  if bool_decide (Level config = "") then
    (set_Level config DEFAULT_LOG_LEVEL, None)
  else
    match LogLevelNumber !! Level config with
    | None => (config, Some ("Invalid log level: " +:+ Level config))
    | Some _ => (config, None)
    end.

(** [proto.LogLevelNumber[level]]: zero for a level that is not there. *)
Definition levelNumber (level : string) : Z :=
  default 0 (LogLevelNumber !! level).

(** [m.Start()]. *)
Definition Start (m : Manager) (read : ReadAnswer)
  : Manager * option error * list Event :=
  match config m with
  | Some _ => (m, Some (ToolIsRunningError "log"), [])
  | None =>
      let started (config : Config) :=
        match validateConfig config with
        | (_, Some err) => (m, Some err, [])
        | (config, None) =>
            let level := levelNumber (Level config) in
            ({| config := Some config; running := true |}, None,
             [NewRelay (File config) level (Offline config); GoRelayRun;
              LogInfo "Started"; StatusUpdate "log" "Running"])
        end in
      match read with
      | ReadFails err => (m, Some err, [])
      | ReadNotExist _ => started zeroConfig
      | ReadOk c => started c
      end
  end.

(** [m.GetConfig()]. *)
Definition GetConfig (m : Manager) : list AgentConfig * list error :=
  match Marshal (config m) with
  | inr err => ([], [err])
  | inl bytes =>
      ([{| ac_Tool := "log"; ac_Config := bytes; ac_Running := running m |}],
       [])
  end.

(** The case "SetConfig" of [Handle], once the new config is valid, on
    the config [c] that [m.config] points to. *)
Definition apply_config (c newConfig : Config) (w : World)
  : Config * list error * list Event :=
  let '(c, errs1, ev1) :=
    if negb (bool_decide (File c = File newConfig)) then
      if file_taken w then
        (set_File c (File newConfig), [], [RelayFile (File newConfig)])
      else (c, ["Timeout setting new log file"], [TimedOut (3 * Pct.Second)])
    else (c, [], []) in
  let '(c, errs2, ev2) :=
    if negb (bool_decide (Level c = Level newConfig)) then
      let level := levelNumber (Level newConfig) in
      if level_taken w then
        (set_Level c (Level newConfig), [], [RelayLevel level])
      else (c, ["Timeout setting new log level"], [TimedOut (3 * Pct.Second)])
    else (c, [], []) in
  let errs3 :=
    match write w with
    | Some err => ["log.WriteConfig:" +:+ err]
    | None => []
    end in
  (c, (errs1 ++ errs2 ++ errs3)%list, (ev1 ++ ev2 ++ [WriteConfig (Some c)])%list).

(** [m.Handle(cmd)].  The reply is [None] when the call panics: the
    case "SetConfig" reads [m.config.File] through the pointer, which is
    nil before [Start].  The deferred status update runs in either
    case. *)
Definition Handle (m : Manager) (cmd : Cmd) (w : World)
  : Manager * option Reply * list Event :=
  let enter := StatusUpdateRe "log" "Handling" cmd in
  let leave := StatusUpdate "log" "Running" in
  if bool_decide (cmd_Cmd cmd = "SetConfig") then
    match Unmarshal (cmd_Data cmd) with
    | inr err => (m, Some (mkReply NoData [err]), [enter; leave])
    | inl newConfig =>
        match validateConfig newConfig with
        | (_, Some err) => (m, Some (mkReply NoData [err]), [enter; leave])
        | (newConfig, None) =>
            match config m with
            | None => (m, None, [enter; leave])
            | Some c =>
                let '(c, errs, ev) := apply_config c newConfig w in
                ({| config := Some c; running := running m |},
                 Some (mkReply (ConfigData c) errs),
                 ([enter] ++ ev ++ [leave])%list)
            end
        end
    end
  else if bool_decide (cmd_Cmd cmd = "GetConfig") then
    let '(config, errs) := GetConfig m in
    (m, Some (mkReply (AgentConfigs config) errs), [enter; leave])
  else if bool_decide (cmd_Cmd cmd = "Reconnect") then
    (m, Some (mkReply NoData []), [enter; ClientDisconnect; leave])
  else
    (m, Some (mkReply NoData [UnknownCmdError (cmd_Cmd cmd)]), [enter; leave]).

(** The calls a caller makes, with what the world answers during each. *)
Inductive Call : Type :=
  | CallStart (read : ReadAnswer)
  | CallHandle (cmd : Cmd) (w : World).

Definition call (m : Manager) (k : Call) : Manager * list Event :=
  match k with
  | CallStart read => let '(m, _, ev) := Start m read in (m, ev)
  | CallHandle cmd w => let '(m, _, ev) := Handle m cmd w in (m, ev)
  end.

Fixpoint calls (m : Manager) (ks : list Call) : Manager * list Event :=
  match ks with
  | [] => (m, [])
  | k :: rest =>
      let '(m, ev) := call m k in
      let '(m, tr) := calls m rest in
      (m, (ev ++ tr)%list)
  end.

(** The level of a config is one the relay knows. *)
Definition known_level (c : Config) : Prop :=
  is_Some (LogLevelNumber !! Level c).

(** What holds of a manager between calls: the level of its config, if
    set, is a known one, and it counts as running exactly when its config
    is set. *)
Definition well_formed (m : Manager) : Prop :=
  (forall c, config m = Some c -> known_level c) /\
  running m = bool_decide (is_Some (config m)).

End Methods.

Definition is_GoRelayRun (e : Event) : bool :=
  match e with
  | GoRelayRun => true
  | _ => false
  end.

Definition is_relay_or_write (e : Event) : bool :=
  match e with
  | RelayFile _ | RelayLevel _ | WriteConfig _ | TimedOut _ => true
  | _ => false
  end.

(** Sample collaborators: three levels, and a decoder that knows two
    documents. *)
Definition levels1 : gmap string Z :=
  {[ "debug" := 7; "info" := 6; "warning" := 4 ]}.

Definition unmarshal1 (data : string) : Config + error :=
  if bool_decide (data = "{File:agent.log,Level:debug}"%string) then
    inl {| File := "agent.log"; Level := "debug"; Offline := true |}
  else if bool_decide (data = "{Level:loud}"%string) then
    inl {| File := ""; Level := "loud"; Offline := false |}
  else inr "unexpected end of JSON input"%string.

Definition marshal1 (c : option Config) : string + error :=
  match c with
  | Some c => inl (File c +:+ ":" +:+ Level c)%string
  | None => inl "null"%string
  end.

End Log.
(* ===================================================================== *)
(** * Properties of [Backoff]                                             *)
(* ===================================================================== *)

Module PctSpec.
Import Pct.

(** ** Facts about [Wait] *)

Lemma wrap_int64_small (z : Z) :
  - 2 ^ 63 <= z < 2 ^ 63 -> wrap_int64 z = z.
Proof.
  intros Hz. unfold wrap_int64.
  rewrite Z.mod_small by lia. lia.
Qed.

(** The first branch: an immediate first attempt. *)
Lemma Wait_first (b : Backoff) (rnd : float) :
  try b = 0 -> Wait b rnd = (set_try b 1, 0).
Proof.
  intros H. unfold Wait. rewrite H. reflexivity.
Qed.

(** The second branch, attempt by attempt: [2^try - 1] seconds. *)
Lemma Wait_exponential (b : Backoff) (rnd : float) :
  1 <= try b < 7 ->
  Wait b rnd = (set_try b (try b + 1), (2 ^ try b - 1) * Second).
Proof.
  intros H. unfold Wait.
  assert (Hc : try b = 1 \/ try b = 2 \/ try b = 3 \/
               try b = 4 \/ try b = 5 \/ try b = 6) by lia.
  destruct Hc as [E|[E|[E|[E|[E|E]]]]]; rewrite E; reflexivity.
Qed.

(** The third branch leaves the struct alone: the counter is saturated. *)
Lemma Wait_saturated (b : Backoff) (rnd : float) :
  7 <= try b -> fst (Wait b rnd) = b.
Proof.
  intros H. unfold Wait.
  destruct (try b =? 0) eqn:E0; [apply Z.eqb_eq in E0; lia|].
  destruct (try b <? 7) eqn:E7; [apply Z.ltb_lt in E7; lia|].
  reflexivity.
Qed.

(** Calls 0 to 6 of a fresh [Backoff], whatever the random source holds. *)
Lemma Waits_first_seven (ra : Duration) (rnds : list float) :
  length rnds = 7%nat ->
  Waits (NewBackoff ra) rnds =
    (set_try (NewBackoff ra) 7,
     map (fun s => s * Second) [0; 1; 3; 7; 15; 31; 63]).
Proof.
  intros H.
  do 8 (destruct rnds as [|? rnds]; try discriminate H).
  reflexivity.
Qed.

(** Once saturated, a run of [Wait]s never moves the counter again. *)
Lemma Waits_saturated (b : Backoff) (rnds : list float) :
  7 <= try b -> fst (Waits b rnds) = b.
Proof.
  revert b. induction rnds as [|r rs IH]; intros b H; [reflexivity|].
  cbn [Waits].
  pose proof (Wait_saturated b r H) as Hw.
  destruct (Wait b r) as [b1 d]. cbn in Hw. subst b1.
  specialize (IH b H).
  destruct (Waits b rs) as [b2 ds]. exact IH.
Qed.

(** The smallest draw gives the lower end of the plateau. *)
Lemma Wait_plateau_low (b : Backoff) :
  7 <= try b -> snd (Wait b 0%float) = 90 * Second.
Proof.
  intros H. unfold Wait.
  destruct (try b =? 0) eqn:E0; [apply Z.eqb_eq in E0; lia|].
  destruct (try b <? 7) eqn:E7; [apply Z.ltb_lt in E7; lia|].
  reflexivity.
Qed.

(** ** Facts about [Success] *)

(** The very first success only records the time. *)
Lemma Success_first (b : Backoff) (nowFunc now : Time) :
  lastSuccess b = zeroTime ->
  Success b nowFunc now = set_lastSuccess b now.
Proof.
  intros H. unfold Success. rewrite H. reflexivity.
Qed.

(** A later success resets exactly when [lastSuccess - NowFunc()]
    exceeds [resetAfter]. *)
Lemma Success_later (b : Backoff) (nowFunc now : Time) :
  lastSuccess b <> zeroTime ->
  Success b nowFunc now =
    if resetAfter b <? Sub (lastSuccess b) nowFunc
    then set_try (set_lastSuccess b now) 0
    else b.
Proof.
  intros H. unfold Success, IsZero.
  destruct (lastSuccess b =? 0) eqn:E; [apply Z.eqb_eq in E; contradiction|].
  reflexivity.
Qed.

(** With a clock that does not run backwards and a reset window that is
    not negative, a later success changes nothing, however long ago the
    previous one was. *)
Lemma Success_forward_clock (b : Backoff) (nowFunc now : Time) :
  lastSuccess b <> zeroTime ->
  lastSuccess b <= nowFunc ->
  0 <= resetAfter b ->
  Success b nowFunc now = b.
Proof.
  intros Hz Hle Hra. rewrite Success_later by exact Hz.
  destruct (resetAfter b <? Sub (lastSuccess b) nowFunc) eqn:E; [|reflexivity].
  apply Z.ltb_lt in E. exfalso.
  unfold Sub, minDuration, maxDuration in E.
  destruct (lastSuccess b - nowFunc <? - 2 ^ 63) eqn:E1; [lia|].
  destruct (2 ^ 63 - 1 <? lastSuccess b - nowFunc) eqn:E2;
    [apply Z.ltb_lt in E2; lia|lia].
Qed.

(** C1: a fresh [Backoff] waits 0, 1, 3, 7, 15, 31, 63 seconds on calls 0
    to 6 and its counter then stays at 7, but the wait of a later call is
    not always below 180 seconds: when [rand.Float64()] returns the
    largest [float64] below 1, [90 + 90 * rnd] rounds to 180 and the wait
    is 180 seconds, outside [[90, 180)]. *)
Theorem Wait_plateau_reaches_180 (ra : Duration) :
  unit_interval below_one = true /\
  Waits (NewBackoff ra) (repeat 0%float 7 ++ [below_one]) =
    (set_try (NewBackoff ra) 7,
     map (fun s => s * Second) [0; 1; 3; 7; 15; 31; 63; 180]) /\
  ~ (snd (Wait (set_try (NewBackoff ra) 7) below_one) < 180 * Second).
Proof.
  split; [reflexivity|]. split; [reflexivity|].
  intros H. vm_compute in H. discriminate H.
Qed.

(** C2: after three waits and a first success, a second success 10 s
    later, with [resetAfter] = 5 s, leaves the counter at 3 and the
    recorded time as it was: [Success] compares
    [lastSuccess - NowFunc()], which is -10 s, with [resetAfter]. *)
Theorem Success_elapsed_not_reset :
  let b0 := fst (Waits (NewBackoff (5 * Second)) (repeat 0%float 3)) in
  let b1 := Success b0 t2015 t2015 in
  let t2 := t2015 + 10 * Second in
  let b2 := Success b1 t2 t2 in
  try b0 = 3 /\
  b1 = set_lastSuccess b0 t2015 /\
  resetAfter b1 < t2 - lastSuccess b1 /\
  try b2 = 3 /\ lastSuccess b2 = t2015.
Proof.
  vm_compute. repeat split; reflexivity.
Qed.

(** ** Sequences of calls *)

(** What [Wait] does to the counter, in one formula. *)
Lemma Wait_try (b : Backoff) (rnd : float) :
  0 <= try b <= 7 ->
  fst (Wait b rnd) = set_try b (Z.min 7 (try b + 1)).
Proof.
  intros H.
  destruct (Z.eq_dec (try b) 0) as [E0|N0].
  - rewrite (Wait_first b rnd E0), E0. reflexivity.
  - destruct (Z_lt_le_dec (try b) 7) as [L|G].
    + rewrite (Wait_exponential b rnd) by lia. cbn [fst].
      f_equal. lia.
    + rewrite (Wait_saturated b rnd G).
      replace (Z.min 7 (try b + 1)) with (try b) by lia.
      by destruct b.
Qed.

(** The counter never leaves the range from 0 to 7, whatever calls are
    made, whatever the random source draws and whatever the clocks
    show. *)
Theorem try_stays_in_range (ra : Duration) (ks : list BackoffCall) :
  0 <= try (backoff_calls (NewBackoff ra) ks) <= 7.
Proof.
  unfold backoff_calls.
  assert (H0 : 0 <= try (NewBackoff ra) <= 7) by (cbn; lia).
  revert H0. generalize (NewBackoff ra).
  induction ks as [|k ks IH]; intros b Hb; [exact Hb|].
  cbn [foldl]. apply IH. destruct k as [rnd|nowFunc now]; cbn [backoff_call].
  - rewrite (Wait_try b rnd Hb). cbn. lia.
  - unfold Success.
    destruct (IsZero (lastSuccess b)); [exact Hb|].
    destruct (resetAfter b <? Sub (lastSuccess b) nowFunc); [cbn; lia|exact Hb].
Qed.

Lemma count_waits_nonneg (ks : list BackoffCall) : 0 <= count_waits ks.
Proof.
  induction ks as [|[rnd|nowFunc now] ks IH]; cbn [count_waits]; lia.
Qed.

Lemma forward_calls (b : Backoff) (t : Time) (ks : list BackoffCall) :
  0 <= try b <= 7 -> 0 <= resetAfter b -> 0 < t ->
  lastSuccess b = zeroTime \/ 0 < lastSuccess b <= t ->
  forward_clock t ks = true ->
  try (backoff_calls b ks)
    = Z.min 7 (try b + count_waits ks) /\
  lastSuccess (backoff_calls b ks)
    = (if IsZero (lastSuccess b) then first_success ks else lastSuccess b) /\
  resetAfter (backoff_calls b ks) = resetAfter b.
Proof.
  revert b t. induction ks as [|k ks IH]; intros b t Hb Hra Ht Hl Hf.
  - cbn [backoff_calls foldl count_waits first_success].
    split; [lia|]. split; [|reflexivity].
    unfold IsZero. destruct Hl as [->|Hl]; [reflexivity|].
    destruct (lastSuccess b =? 0) eqn:E; [apply Z.eqb_eq in E; lia|reflexivity].
  - unfold backoff_calls. cbn [foldl]. fold (backoff_calls (backoff_call b k) ks).
    destruct k as [rnd|nowFunc now]; cbn [backoff_call forward_clock] in *.
    + rewrite (Wait_try b rnd Hb).
      destruct (IH (set_try b (Z.min 7 (try b + 1))) t) as (H1 & H2 & H3);
        [cbn; lia|exact Hra|exact Ht|exact Hl|exact Hf|].
      rewrite H1, H2, H3. cbn [try lastSuccess resetAfter set_try count_waits first_success].
      pose proof (count_waits_nonneg ks). split; [lia|done].
    + apply andb_prop in Hf as [Hf Hrest]. apply andb_prop in Hf as [H1 H2].
      apply Z.leb_le in H1, H2.
      destruct Hl as [Hz|Hl].
      * rewrite (Success_first b nowFunc now Hz).
        destruct (IH (set_lastSuccess b now) now) as (E1 & E2 & E3);
          [exact Hb|exact Hra|lia|right; cbn; lia|exact Hrest|].
        rewrite E1, E2, E3. cbn [try lastSuccess resetAfter set_lastSuccess count_waits first_success].
        rewrite Hz. cbn [IsZero zeroTime Z.eqb].
        split; [reflexivity|]. split; [|reflexivity].
        unfold IsZero. destruct (now =? 0) eqn:E; [apply Z.eqb_eq in E; lia|reflexivity].
      * rewrite (Success_forward_clock b nowFunc now) by (unfold zeroTime; lia).
        destruct (IH b now) as (E1 & E2 & E3);
          [exact Hb|exact Hra|lia|right; lia|exact Hrest|].
        rewrite E1, E2, E3. cbn [count_waits first_success].
        split; [reflexivity|]. split; [|reflexivity].
        unfold IsZero. destruct (lastSuccess b =? 0) eqn:E; [apply Z.eqb_eq in E; lia|reflexivity].
Qed.

(** With clocks that do not run backwards and a reset window that is not
    negative, no [Success] ever resets a fresh [Backoff]: after any calls
    the counter is the number of [Wait]s made, capped at 7, and the
    recorded success time is that of the first [Success]. *)
Theorem forward_clock_never_resets (ra : Duration) (t0 : Time)
    (ks : list BackoffCall) :
  0 <= ra -> 0 < t0 -> forward_clock t0 ks = true ->
  try (backoff_calls (NewBackoff ra) ks)
    = Z.min 7 (count_waits ks) /\
  lastSuccess (backoff_calls (NewBackoff ra) ks) = first_success ks.
Proof.
  intros Hra Ht Hf.
  destruct (forward_calls (NewBackoff ra) t0 ks) as (H1 & H2 & _);
    [cbn; lia|exact Hra|exact Ht|by left|exact Hf|].
  split; [exact H1|exact H2].
Qed.

Lemma forward_clock_never_resets_witness :
  0 <= 5 * Second /\ 0 < t2015 /\
  forward_clock t2015
    [CallWait 0%float; CallSuccess t2015 t2015; CallWait 0%float;
     CallSuccess (t2015 + 3600 * Second) (t2015 + 3600 * Second)] = true /\
  try (backoff_calls (NewBackoff (5 * Second))
         [CallWait 0%float; CallSuccess t2015 t2015; CallWait 0%float;
          CallSuccess (t2015 + 3600 * Second) (t2015 + 3600 * Second)]) = 2.
Proof.
  split; [vm_compute; discriminate|]. split; [reflexivity|].
  split; [reflexivity|].
  apply (forward_clock_never_resets (5 * Second) t2015
           [CallWait 0%float; CallSuccess t2015 t2015; CallWait 0%float;
            CallSuccess (t2015 + 3600 * Second) (t2015 + 3600 * Second)]);
    [vm_compute; discriminate|reflexivity|reflexivity].
Defined.

End PctSpec.

(* ===================================================================== *)
(** * Properties of the restart monitor                                   *)
(* ===================================================================== *)

Module MrmsSpec.
Import Mrms.

Section Facts.

Variable hide : string -> string.

(** ** [Add], case by case *)

Lemma Add_known (env : Env) (m : Monitor) (t : string) (mi : MysqlInstance) :
  mysqlInstances m !! t = Some mi ->
  Add hide env m t =
    (set_mysqlInstances (alloc m)
       (<[t := set_Subscribers mi
                 (fst (Subscribers_Add (Subscribers_of mi) (heap m)))]>
          (mysqlInstances m)),
     (Some (heap m), None),
     [LogDebug ("Add:call:" +:+ hide t); LogDebug ("Add:return:" +:+ hide t)]).
Proof.
  intros H. unfold Add. rewrite H. reflexivity.
Qed.

Lemma Add_open_error (env : Env) (m : Monitor) (t : string) (e : error) :
  mysqlInstances m !! t = None ->
  connect env (mkConn (heap m) t) = Some e ->
  Add hide env m t =
    (alloc m, (None, Some e),
     [LogDebug ("Add:call:" +:+ hide t);
      LogDebug ("createMysqlInstance:call:" +:+ hide t);
      FactoryMake t (mkConn (heap m) t);
      ConnCall (mkConn (heap m) t) Connect;
      LogDebug ("createMysqlInstance:return:" +:+ hide t);
      LogDebug ("Add:return:" +:+ hide t)]).
Proof.
  intros H He. unfold Add, createMysqlInstance, NewMysqlInstance.
  rewrite H. cbn. rewrite He. reflexivity.
Qed.

Lemma Add_open_ok (env : Env) (m : Monitor) (t : string) :
  mysqlInstances m !! t = None ->
  connect env (mkConn (heap m) t) = None ->
  Add hide env m t =
    (set_mysqlInstances (alloc (alloc m))
       (<[t := mkMysqlInstance (mkConn (heap m) t)
                 (mkSubscribers ({[S (heap m)]} ∪ ∅) ∅) None]>
          (mysqlInstances m)),
     (Some (S (heap m)), None),
     [LogDebug ("Add:call:" +:+ hide t);
      LogDebug ("createMysqlInstance:call:" +:+ hide t);
      FactoryMake t (mkConn (heap m) t);
      ConnCall (mkConn (heap m) t) Connect;
      LogDebug ("createMysqlInstance:return:" +:+ hide t);
      LogDebug ("Add:return:" +:+ hide t)]).
Proof.
  intros H He. unfold Add, createMysqlInstance, NewMysqlInstance.
  rewrite H. cbn. rewrite He. cbn.
  unfold set_mysqlInstances, alloc, set_Subscribers. cbn.
  rewrite insert_insert_eq. reflexivity.
Qed.

(** ** [Remove], case by case *)

Lemma Remove_unknown (m : Monitor) (t : string) (c : Chan) :
  mysqlInstances m !! t = None ->
  Remove hide m t c =
    (m, [LogDebug ("Remove:call:" +:+ hide t);
         LogDebug ("Remove:return:" +:+ hide t)]).
Proof.
  intros H. unfold Remove. rewrite H. reflexivity.
Qed.

Lemma Remove_last (m : Monitor) (t : string) (c : Chan) (mi : MysqlInstance) :
  mysqlInstances m !! t = Some mi ->
  direct mi ∖ {[c]} = ∅ ->
  Remove hide m t c =
    (set_mysqlInstances m (delete t (mysqlInstances m)),
     [LogDebug ("Remove:call:" +:+ hide t);
      LogDebug ("Remove:return:" +:+ hide t)]).
Proof.
  intros H He. unfold Remove. rewrite H.
  unfold Subscribers_Empty, Subscribers_Remove. cbn.
  rewrite bool_decide_eq_true_2 by exact He. reflexivity.
Qed.

Lemma Remove_other (m : Monitor) (t : string) (c : Chan) (mi : MysqlInstance) :
  mysqlInstances m !! t = Some mi ->
  direct mi ∖ {[c]} <> ∅ ->
  Remove hide m t c =
    (set_mysqlInstances m
       (<[t := set_Subscribers mi
                 (Subscribers_GlobalRemove
                    (Subscribers_Remove (Subscribers_of mi) c) t)]>
          (mysqlInstances m)),
     [LogDebug ("Remove:call:" +:+ hide t);
      LogDebug ("Remove:return:" +:+ hide t)]).
Proof.
  intros H He. unfold Remove. rewrite H.
  unfold Subscribers_Empty, Subscribers_Remove at 1. cbn.
  rewrite bool_decide_eq_false_2 by exact He. reflexivity.
Qed.

(** [Remove] only ever writes two debug messages. *)
Lemma Remove_trace (m : Monitor) (t : string) (c : Chan) :
  snd (Remove hide m t c) =
    [LogDebug ("Remove:call:" +:+ hide t);
     LogDebug ("Remove:return:" +:+ hide t)].
Proof.
  unfold Remove.
  destruct (mysqlInstances m !! t) as [mi|]; [|reflexivity].
  destruct (Subscribers_Empty _); reflexivity.
Qed.

(** ** The poll tick *)

Lemma CheckIfMysqlRestarted_keeps (env : Env) (mi : MysqlInstance) :
  Subscribers_of (fst (fst (CheckIfMysqlRestarted env mi))) = Subscribers_of mi
  /\ mysqlConn (fst (fst (CheckIfMysqlRestarted env mi))) = mysqlConn mi.
Proof.
  unfold CheckIfMysqlRestarted.
  destruct (uptime env (mysqlConn mi)); split; reflexivity.
Qed.

Lemma Check_body_fst (env : Env) (k : string) (mi : MysqlInstance) :
  fst (Check_body hide env k mi) = fst (fst (CheckIfMysqlRestarted env mi)).
Proof.
  unfold Check_body.
  destruct (CheckIfMysqlRestarted env mi) as [[mi' [w [e|]]] ev];
    [reflexivity|]. destruct w; reflexivity.
Qed.

Lemma Check_body_direct (env : Env) (k : string) (mi : MysqlInstance) :
  direct (fst (Check_body hide env k mi)) = direct mi.
Proof.
  rewrite Check_body_fst. unfold direct.
  destruct (CheckIfMysqlRestarted_keeps env mi) as [-> _]. reflexivity.
Qed.

(** Every iteration asks its target for the fingerprint first. *)
Lemma Check_body_checked (env : Env) (k : string) (mi : MysqlInstance) :
  ConnCall (mysqlConn mi) Uptime ∈ snd (Check_body hide env k mi).
Proof.
  unfold Check_body, CheckIfMysqlRestarted.
  destruct (uptime env (mysqlConn mi)) as [up|e]; cbn.
  - destruct (match fingerprint mi with Some last => up <? last | None => false end);
      cbn; left.
  - left.
Qed.

(** A [Notify] in the trace of an iteration is for the key of that
    iteration, and its check reported a restart without error. *)
Lemma Check_body_Notify (env : Env) (k t : string) (mi : MysqlInstance)
    (s : Subscribers) :
  Notify t s ∈ snd (Check_body hide env k mi) ->
  t = k /\ s = Subscribers_of mi /\
  snd (fst (CheckIfMysqlRestarted env mi)) = (true, None).
Proof.
  unfold Check_body, CheckIfMysqlRestarted.
  destruct (uptime env (mysqlConn mi)) as [up|e]; cbn.
  - destruct (match fingerprint mi with Some last => up <? last | None => false end);
      cbn; intros H.
    + apply elem_of_cons in H as [H|H]; [discriminate H|].
      apply elem_of_cons in H as [H|H]; [discriminate H|].
      apply list_elem_of_singleton in H. by simplify_eq.
    + apply list_elem_of_singleton in H. discriminate H.
  - intros H.
    apply elem_of_cons in H as [H|H]; [discriminate H|].
    apply list_elem_of_singleton in H. discriminate H.
Qed.

Lemma Check_range_trace (env : Env) (entries : list (string * MysqlInstance))
    (insts : gmap string MysqlInstance) :
  snd (Check_range hide env entries insts) =
    entries ≫= (fun kv => snd (Check_body hide env (fst kv) (snd kv))).
Proof.
  revert insts. induction entries as [|[k mi] rest IH]; intros insts;
    [reflexivity|].
  cbn [Check_range].
  destruct (Check_body hide env k mi) as [mi' ev] eqn:Eb.
  specialize (IH (<[k := mi']> insts)).
  destruct (Check_range hide env rest (<[k := mi']> insts)) as [i' tr].
  cbn in IH |- *. rewrite IH, Eb. reflexivity.
Qed.

Lemma Check_range_notin (env : Env) (entries : list (string * MysqlInstance))
    (insts : gmap string MysqlInstance) (t : string) :
  t ∉ entries.*1 ->
  fst (Check_range hide env entries insts) !! t = insts !! t.
Proof.
  revert insts. induction entries as [|[k mi] rest IH]; intros insts Hn;
    [reflexivity|].
  cbn [Check_range].
  destruct (Check_body hide env k mi) as [mi' ev].
  specialize (IH (<[k := mi']> insts)).
  destruct (Check_range hide env rest (<[k := mi']> insts)) as [i' tr].
  cbn in IH |- *. cbn in Hn.
  apply not_elem_of_cons in Hn as [Hk Hr].
  rewrite IH by exact Hr. by rewrite lookup_insert_ne.
Qed.

Lemma Check_range_in (env : Env) (entries : list (string * MysqlInstance))
    (insts : gmap string MysqlInstance) (t : string) (mi : MysqlInstance) :
  NoDup entries.*1 -> (t, mi) ∈ entries ->
  fst (Check_range hide env entries insts) !! t =
    Some (fst (Check_body hide env t mi)).
Proof.
  revert insts. induction entries as [|[k mi0] rest IH]; intros insts Hnd Hin.
  - by apply elem_of_nil in Hin.
  - cbn in Hnd. apply NoDup_cons in Hnd as [Hk Hnd].
    cbn [Check_range].
    destruct (Check_body hide env k mi0) as [mi' ev] eqn:Eb.
    pose proof (Check_range_notin env rest (<[k := mi']> insts) k Hk) as Hno.
    specialize (IH (<[k := mi']> insts) Hnd).
    destruct (Check_range hide env rest (<[k := mi']> insts)) as [i' tr].
    cbn in IH, Hno |- *.
    apply elem_of_cons in Hin as [Heq|Hin].
    + simplify_eq. rewrite Hno, lookup_insert_eq, Eb. reflexivity.
    + by apply IH.
Qed.

(** ** What the methods do to the direct subscribers *)

Lemma Check_direct (env : Env) (m : Monitor) (t : string) :
  direct <$> mysqlInstances (fst (Check hide env m)) !! t =
  direct <$> mysqlInstances m !! t.
Proof.
  unfold Check.
  pose proof (NoDup_fst_map_to_list (mysqlInstances m)) as Hnd.
  destruct (Check_range hide env (map_to_list (mysqlInstances m))
              (mysqlInstances m)) as [insts tr] eqn:E.
  cbn.
  destruct (mysqlInstances m !! t) as [mi|] eqn:Hl.
  - apply elem_of_map_to_list in Hl.
    pose proof (Check_range_in env _ (mysqlInstances m) t mi Hnd Hl) as Hin.
    rewrite E in Hin. cbn in Hin. rewrite Hin. cbn.
    by rewrite Check_body_direct.
  - assert (Hn : t ∉ (map_to_list (mysqlInstances m)).*1).
    { intros Hin. apply list_elem_of_fmap in Hin as [[k mi] [-> Hin]].
      apply elem_of_map_to_list in Hin. cbn in *. congruence. }
    pose proof (Check_range_notin env _ (mysqlInstances m) t Hn) as Hno.
    rewrite E in Hno. cbn in Hno. by rewrite Hno, Hl.
Qed.

Lemma GlobalSubscribe_range_direct (gc : Chan)
    (entries : list (string * MysqlInstance))
    (insts : gmap string MysqlInstance) :
  (forall k mi, (k, mi) ∈ entries -> direct <$> insts !! k = Some (direct mi)) ->
  forall t, direct <$> fst (GlobalSubscribe_range gc entries insts) !! t =
            direct <$> insts !! t.
Proof.
  revert insts. induction entries as [|[k mi] rest IH]; intros insts Hall t;
    [reflexivity|].
  cbn [GlobalSubscribe_range].
  unfold Subscribers_GlobalAdd.
  destruct (Subscribers_Empty (Subscribers_of mi)); [reflexivity|].
  set (mi' := set_Subscribers mi _).
  assert (Hstep : forall u, direct <$> <[k := mi']> insts !! u =
                            direct <$> insts !! u).
  { intros u. destruct (decide (k = u)) as [->|Hne].
    - rewrite lookup_insert_eq.
      rewrite (Hall u mi) by (left). reflexivity.
    - by rewrite lookup_insert_ne. }
  rewrite IH.
  - apply Hstep.
  - intros k0 mi0 Hin. rewrite Hstep. apply Hall. by right.
Qed.

Lemma GlobalSubscribe_direct (m : Monitor) (t : string) :
  direct <$> mysqlInstances (fst (fst (GlobalSubscribe m))) !! t =
  direct <$> mysqlInstances m !! t.
Proof.
  unfold GlobalSubscribe.
  pose proof (GlobalSubscribe_range_direct (globalChan m)
                (map_to_list (mysqlInstances m)) (mysqlInstances m)) as H.
  destruct (GlobalSubscribe_range (globalChan m)
              (map_to_list (mysqlInstances m)) (mysqlInstances m))
    as [insts [e|]]; cbn in *; apply H;
    intros k mi Hin; apply elem_of_map_to_list in Hin; by rewrite Hin.
Qed.

(** ** The invariant of histories *)

Lemma consistent_new : consistent (NewMonitor, no_handles).
Proof.
  intros t. cbn. rewrite lookup_empty. unfold no_handles.
  by rewrite decide_True.
Qed.

Lemma consistent_Add (env : Env) (m : Monitor) (live : Handles) (dsn : string) :
  consistent (m, live) -> consistent (call hide (m, live) (CallAdd env dsn)).
Proof.
  intros Hc t. pose proof (Hc dsn) as Hd. pose proof (Hc t) as Ht.
  cbn in Hd, Ht. cbn [call].
  destruct (mysqlInstances m !! dsn) as [mi|] eqn:Hl.
  - rewrite (Add_known env m dsn mi Hl). cbn. unfold hand_out.
    destruct (decide (t = dsn)) as [->|Hne].
    + rewrite lookup_insert_eq. cbn in Hd |- *. unfold direct in Hd |- *.
      cbn. destruct (decide (live dsn = ∅)) as [|Hn]; [done|].
      apply (inj Some) in Hd. rewrite Hd.
      rewrite decide_False; [reflexivity|].
      apply union_positive_l_alt_L, non_empty_singleton_L.
    + rewrite lookup_insert_ne by done. exact Ht.
  - destruct (connect env (mkConn (heap m) dsn)) as [e|] eqn:He.
    + rewrite (Add_open_error env m dsn e Hl He). cbn. exact Ht.
    + rewrite (Add_open_ok env m dsn Hl He). cbn. unfold hand_out.
      destruct (decide (t = dsn)) as [->|Hne].
      * rewrite lookup_insert_eq. cbn in Hd |- *. unfold direct. cbn.
        destruct (decide (live dsn = ∅)) as [Hn|]; [|done].
        rewrite Hn. rewrite decide_False; [reflexivity|].
        apply union_positive_l_alt_L, non_empty_singleton_L.
      * rewrite lookup_insert_ne by done. exact Ht.
Qed.

Lemma consistent_Remove (m : Monitor) (live : Handles) (dsn : string)
    (c : Chan) :
  consistent (m, live) -> consistent (call hide (m, live) (CallRemove dsn c)).
Proof.
  intros Hc t. pose proof (Hc dsn) as Hd. pose proof (Hc t) as Ht.
  cbn in Hd, Ht. cbn [call fst snd]. unfold give_back.
  destruct (mysqlInstances m !! dsn) as [mi|] eqn:Hl.
  - cbn in Hd. destruct (decide (live dsn = ∅)) as [|Hn]; [done|].
    apply (inj Some) in Hd.
    destruct (decide (direct mi ∖ {[c]} = ∅)) as [He|He].
    + rewrite (Remove_last m dsn c mi Hl He). cbn.
      destruct (decide (t = dsn)) as [->|Hne].
      * rewrite lookup_delete_eq. rewrite <- Hd, He.
        by rewrite decide_True.
      * rewrite lookup_delete_ne by done. exact Ht.
    + rewrite (Remove_other m dsn c mi Hl He). cbn.
      destruct (decide (t = dsn)) as [->|Hne].
      * rewrite lookup_insert_eq. rewrite <- Hd.
        rewrite decide_False by exact He. reflexivity.
      * rewrite lookup_insert_ne by done. exact Ht.
  - rewrite (Remove_unknown m dsn c Hl). cbn.
    destruct (decide (t = dsn)) as [->|Hne]; [|exact Ht].
    rewrite Hl. cbn in Hd.
    destruct (decide (live dsn = ∅)) as [Hn|]; [|done].
    rewrite Hn. rewrite empty_difference_L. by rewrite decide_True.
Qed.

Lemma consistent_call (st : Monitor * Handles) (k : Call) :
  consistent st -> consistent (call hide st k).
Proof.
  destruct st as [m live]. destruct k as [env dsn|dsn c|env|].
  - apply consistent_Add.
  - apply consistent_Remove.
  - intros Hc t. cbn. rewrite Check_direct. apply Hc.
  - intros Hc t. cbn. rewrite GlobalSubscribe_direct. apply Hc.
Qed.

Lemma consistent_foldl (history : list Call) (st : Monitor * Handles) :
  consistent st -> consistent (foldl (call hide) st history).
Proof.
  revert st. induction history as [|k ks IH]; intros st Hc; [exact Hc|].
  cbn. apply IH, consistent_call, Hc.
Qed.

Lemma consistent_after (history : list Call) :
  consistent (after hide history).
Proof. apply consistent_foldl, consistent_new. Qed.

(** ** Main results *)

(** C3: after every history of calls on a new monitor, a target has a
    record in the instance map if and only if one of the handles [Add]
    returned for it has not been given to [Remove] yet, and the record
    holds exactly those handles; [Add] of a target without record creates
    the record with the returned handle as its only subscriber, and
    [Remove] of the last handle of a target deletes its record. *)
Theorem record_iff_subscriber (history : list Call) (t : string) :
  let m := fst (after hide history) in
  let live := snd (after hide history) in
  (is_Some (mysqlInstances m !! t) <-> exists c, c ∈ live t) /\
  (forall mi, mysqlInstances m !! t = Some mi -> direct mi = live t) /\
  (forall env,
     mysqlInstances m !! t = None ->
     connect env (mkConn (heap m) t) = None ->
     exists m' tr mi c,
       Add hide env m t = (m', (Some c, None), tr) /\
       mysqlInstances m' !! t = Some mi /\ direct mi = {[c]}) /\
  (forall c, live t = {[c]} ->
     mysqlInstances (fst (Remove hide m t c)) !! t = None).
Proof.
  intros m live. pose proof (consistent_after history t) as Hc.
  fold m live in Hc.
  split; [|split; [|split]].
  - destruct (decide (live t = ∅)) as [He|Hne].
    + destruct (mysqlInstances m !! t) eqn:Hl; [done|].
      split; [intros [? ?]; done|]. intros [c Hin].
      rewrite He in Hin. by apply not_elem_of_empty in Hin.
    + destruct (mysqlInstances m !! t) eqn:Hl; [|done].
      split; [|eauto]. intros _. apply set_choose_L in Hne. exact Hne.
  - intros mi Hl. rewrite Hl in Hc. cbn in Hc.
    destruct (decide (live t = ∅)); [done|]. by apply (inj Some) in Hc.
  - intros env Hl He. rewrite (Add_open_ok env m t Hl He).
    do 4 eexists. split; [reflexivity|]. cbn.
    rewrite lookup_insert_eq. split; [reflexivity|].
    unfold direct. cbn. apply (right_id_L ∅ (∪)).
  - intros c Hone. rewrite Hone in Hc.
    rewrite decide_False in Hc by apply non_empty_singleton_L.
    destruct (mysqlInstances m !! t) as [mi|] eqn:Hl; [|done].
    apply (inj Some) in Hc.
    rewrite (Remove_last m t c mi Hl)
      by (rewrite Hc; apply difference_diag_L).
    cbn. apply lookup_delete_eq.
Qed.

(** C4, as amended: [Remove] of the last subscriber of a registered
    target deletes the record of the target, and with it the connection
    handle, from the instance map, and calls no method of any
    connection: nothing is closed. *)
Theorem Remove_last_evicts_without_Close (m : Monitor) (t : string)
    (c : Chan) (mi : MysqlInstance) :
  mysqlInstances m !! t = Some mi ->
  direct mi = {[c]} ->
  mysqlInstances (fst (Remove hide m t c)) !! t = None /\
  forall conn op, ConnCall conn op ∉ snd (Remove hide m t c).
Proof.
  intros Hl Hd. split.
  - rewrite (Remove_last m t c mi Hl)
      by (rewrite Hd; apply difference_diag_L).
    cbn. apply lookup_delete_eq.
  - intros conn op. rewrite Remove_trace. intros H.
    apply elem_of_cons in H as [H|H]; [discriminate H|].
    apply list_elem_of_singleton in H. discriminate H.
Qed.

(** C5: for a target without record, when opening the connection fails
    [Add] returns that error and no channel and leaves the instance map as
    it was; and whenever [Add] returns a channel the connection was opened
    without error, no error is returned, and the target is registered with
    that connection and that channel. *)
Theorem Add_open_failure_registers_nothing (env : Env) (m : Monitor)
    (t : string) :
  mysqlInstances m !! t = None ->
  let conn := mkConn (heap m) t in
  (forall e, connect env conn = Some e ->
     snd (fst (Add hide env m t)) = (None, Some e) /\
     mysqlInstances (fst (fst (Add hide env m t))) = mysqlInstances m /\
     globalChan (fst (fst (Add hide env m t))) = globalChan m) /\
  (forall c, fst (snd (fst (Add hide env m t))) = Some c ->
     connect env conn = None /\
     snd (snd (fst (Add hide env m t))) = None /\
     exists mi, mysqlInstances (fst (fst (Add hide env m t))) !! t = Some mi /\
                mysqlConn mi = conn /\ c ∈ direct mi).
Proof.
  intros Hl conn. split.
  - intros e He. rewrite (Add_open_error env m t e Hl He). done.
  - intros c Hc.
    destruct (connect env conn) as [e|] eqn:He.
    + rewrite (Add_open_error env m t e Hl He) in Hc. discriminate Hc.
    + rewrite (Add_open_ok env m t Hl He) in Hc |- *. cbn in Hc |- *.
      apply (inj Some) in Hc. subst c.
      split; [reflexivity|]. split; [reflexivity|].
      eexists. rewrite lookup_insert_eq. split; [reflexivity|].
      split; [reflexivity|]. unfold direct. cbn.
      apply elem_of_union_l. by apply elem_of_singleton.
Qed.

(** C6: one poll tick keeps every registered target registered and asks
    every one of them for its fingerprint, whatever happens to the
    others.  A target whose check fails has the error logged, is not
    notified and keeps its record as it was; a target whose check reports
    a restart has [Notify] called on its subscribers; a target whose check
    reports none is not notified. *)
Theorem Check_isolates_target_errors (env : Env) (m : Monitor) :
  let m' := fst (Check hide env m) in
  let tr := snd (Check hide env m) in
  dom (mysqlInstances m') = dom (mysqlInstances m) /\
  forall t mi, mysqlInstances m !! t = Some mi ->
    ConnCall (mysqlConn mi) Uptime ∈ tr /\
    mysqlInstances m' !! t = Some (fst (fst (CheckIfMysqlRestarted env mi))) /\
    match snd (fst (CheckIfMysqlRestarted env mi)) with
    | (_, Some e) =>
        LogError e ∈ tr /\ (forall s, Notify t s ∉ tr) /\
        mysqlInstances m' !! t = Some mi
    | (true, None) => Notify t (Subscribers_of mi) ∈ tr
    | (false, None) => forall s, Notify t s ∉ tr
    end.
Proof.
  intros m' tr.
  pose proof (NoDup_fst_map_to_list (mysqlInstances m)) as Hnd.
  assert (Hlook : forall t mi, mysqlInstances m !! t = Some mi ->
            mysqlInstances m' !! t = Some (fst (Check_body hide env t mi))).
  { intros t mi Hl. apply elem_of_map_to_list in Hl.
    pose proof (Check_range_in env _ (mysqlInstances m) t mi Hnd Hl) as Hin.
    subst m'. unfold Check.
    destruct (Check_range hide env _ _) as [insts tr0]. exact Hin. }
  assert (Htr : forall x, x ∈ tr <->
            x = LogDebug "Check:call" \/ x = LogDebug "Check:return" \/
            exists t mi, mysqlInstances m !! t = Some mi /\
                         x ∈ snd (Check_body hide env t mi)).
  { intros x. subst tr. unfold Check.
    pose proof (Check_range_trace env (map_to_list (mysqlInstances m))
                  (mysqlInstances m)) as Ht.
    destruct (Check_range hide env _ _) as [insts tr0]. cbn in Ht |- *.
    rewrite elem_of_cons, elem_of_app, list_elem_of_singleton, Ht.
    rewrite list_elem_of_bind. split.
    - intros [H|[[[k mi] [Hx Hin]]|H]]; [by left| |by right; left].
      right; right. exists k, mi. by apply elem_of_map_to_list in Hin.
    - intros [H|[H|[k [mi [Hl Hx]]]]]; [by left|by right; right|].
      right; left. exists (k, mi). by apply elem_of_map_to_list in Hl. }
  assert (Hnotify : forall t mi s, mysqlInstances m !! t = Some mi ->
            Notify t s ∈ tr ->
            snd (fst (CheckIfMysqlRestarted env mi)) = (true, None)).
  { intros t mi s Hl Hin. apply Htr in Hin as [H|[H|[k [mi0 [Hl0 Hx]]]]];
      [discriminate H|discriminate H|].
    apply Check_body_Notify in Hx as [-> [_ Hr]].
    rewrite Hl in Hl0. by simplify_eq. }
  split.
  - apply set_eq. intros t. rewrite !elem_of_dom.
    destruct (mysqlInstances m !! t) as [mi|] eqn:Hl.
    + rewrite (Hlook t mi Hl). split; eauto.
    + assert (Hn : t ∉ (map_to_list (mysqlInstances m)).*1).
      { intros Hin. apply list_elem_of_fmap in Hin as [[k mi] [-> Hin]].
        apply elem_of_map_to_list in Hin. cbn in *. congruence. }
      pose proof (Check_range_notin env _ (mysqlInstances m) t Hn) as Hno.
      subst m'. unfold Check.
      destruct (Check_range hide env _ _) as [insts tr0]. cbn in Hno |- *.
      by rewrite Hno, Hl.
  - intros t mi Hl. split; [|split].
    + apply Htr. right; right. exists t, mi. split; [exact Hl|].
      apply Check_body_checked.
    + rewrite (Hlook t mi Hl), Check_body_fst. reflexivity.
    + pose proof (Hnotify t mi) as Hno. specialize (Hlook t mi Hl).
      assert (Hbody : forall x, x ∈ snd (Check_body hide env t mi) -> x ∈ tr).
      { intros x Hx. apply Htr. right; right. eauto. }
      revert Hno Hlook Hbody. rewrite Check_body_fst.
      unfold Check_body, CheckIfMysqlRestarted.
      destruct (uptime env (mysqlConn mi)) as [up|e]; cbn.
      * destruct (match fingerprint mi with
                  | Some last => up <? last | None => false end); cbn;
          intros Hno Hlook Hbody.
        -- apply Hbody. do 2 right. left.
        -- intros s Hin. specialize (Hno s Hl Hin). discriminate Hno.
      * intros Hno Hlook Hbody. split; [apply Hbody; right; left|].
        split; [|exact Hlook].
        intros s Hin. specialize (Hno s Hl Hin). discriminate Hno.
Qed.

(** C9: [Remove] for a target without record changes nothing in the
    monitor, neither the instance map nor any subscriber set, and returns
    after its two debug messages. *)
Theorem Remove_unknown_is_noop (m : Monitor) (t : string) (c : Chan) :
  mysqlInstances m !! t = None ->
  Remove hide m t c =
    (m, [LogDebug ("Remove:call:" +:+ hide t);
         LogDebug ("Remove:return:" +:+ hide t)]).
Proof. apply Remove_unknown. Qed.

End Facts.

(** ** The results at the sample target *)

Lemma m1_lookup :
  mysqlInstances m1 !! dsn1 =
    Some (mkMysqlInstance conn1 (mkSubscribers ({[2%nat]} ∪ ∅) ∅) None).
Proof.
  unfold m1. rewrite (Add_open_ok redact (env_up 100) NewMonitor dsn1) by done.
  cbn. apply lookup_insert_eq.
Qed.

(** C4, counterexample: [dsn1] is added to a new monitor, which opens
    connection [conn1] and returns channel 2; [Remove] of channel 2, the
    last subscriber, deletes the record, and its trace holds no [Close] of
    [conn1]. *)
Lemma Remove_last_subscriber_does_not_Close :
  snd (fst (Add redact (env_up 100) NewMonitor dsn1)) = (Some 2%nat, None) /\
  ConnCall conn1 Connect ∈ snd (Add redact (env_up 100) NewMonitor dsn1) /\
  (exists mi, mysqlInstances m1 !! dsn1 = Some mi /\
              mysqlConn mi = conn1 /\ direct mi = {[2%nat]}) /\
  mysqlInstances (fst (Remove redact m1 dsn1 2%nat)) !! dsn1 = None /\
  ~ ConnCall conn1 Close ∈ snd (Remove redact m1 dsn1 2%nat).
Proof.
  split; [|split; [|split; [|split]]].
  - rewrite (Add_open_ok redact (env_up 100) NewMonitor dsn1) by done. reflexivity.
  - rewrite (Add_open_ok redact (env_up 100) NewMonitor dsn1) by done. cbn.
    do 3 right. left.
  - eexists. split; [apply m1_lookup|]. split; [reflexivity|].
    unfold direct. cbn. apply (right_id_L ∅ (∪)).
  - rewrite (Remove_last redact m1 dsn1 2%nat _ m1_lookup).
    + cbn. apply lookup_delete_eq.
    + unfold direct. cbn. rewrite (right_id_L ∅ (∪)).
      apply difference_diag_L.
  - rewrite Remove_trace. intros H.
    apply elem_of_cons in H as [H|H]; [discriminate H|].
    apply list_elem_of_singleton in H. discriminate H.
Qed.

Lemma Remove_last_evicts_without_Close_witness :
  mysqlInstances m1 !! dsn1 =
    Some (mkMysqlInstance conn1 (mkSubscribers ({[2%nat]} ∪ ∅) ∅) None) /\
  direct (mkMysqlInstance conn1 (mkSubscribers ({[2%nat]} ∪ ∅) ∅) None) =
    {[2%nat]} /\
  (mysqlInstances (fst (Remove redact m1 dsn1 2%nat)) !! dsn1 = None /\
   forall conn op, ConnCall conn op ∉ snd (Remove redact m1 dsn1 2%nat)).
Proof.
  assert (Hd : direct (mkMysqlInstance conn1
                         (mkSubscribers ({[2%nat]} ∪ ∅) ∅) None) = {[2%nat]}).
  { unfold direct. cbn. apply (right_id_L ∅ (∪)). }
  split; [exact m1_lookup|]. split; [exact Hd|].
  exact (Remove_last_evicts_without_Close redact m1 dsn1 2%nat _ m1_lookup Hd).
Defined.

Lemma Add_open_failure_registers_nothing_witness :
  mysqlInstances NewMonitor !! dsn1 = None /\
  snd (fst (Add redact env_down NewMonitor dsn1)) =
    (None, Some "connection refused"%string) /\
  mysqlInstances (fst (fst (Add redact env_down NewMonitor dsn1))) =
    mysqlInstances NewMonitor.
Proof.
  split; [reflexivity|].
  destruct (Add_open_failure_registers_nothing redact env_down NewMonitor dsn1)
    as [Hfail _]; [reflexivity|].
  destruct (Hfail "connection refused"%string) as [H1 [H2 _]]; [reflexivity|].
  split; [exact H1|exact H2].
Defined.

Lemma Remove_unknown_is_noop_witness :
  mysqlInstances NewMonitor !! dsn1 = None /\
  Remove redact NewMonitor dsn1 7%nat =
    (NewMonitor, [LogDebug "Remove:call:***"; LogDebug "Remove:return:***"]).
Proof.
  split; [reflexivity|].
  apply (Remove_unknown_is_noop redact NewMonitor dsn1 7%nat). reflexivity.
Defined.

(** ** A sample run

    Three polls of [dsn1] read the fingerprints 100, 120 and 15: the first
    two notify nobody, the third notifies the subscribers of [dsn1]; a
    poll that cannot read the fingerprint logs the error and keeps the
    record. *)
Example sample_polls :
  let m2 := fst (Check redact (env_up 100) m1) in
  let m3 := fst (Check redact (env_up 120) m2) in
  let quiet :=
    [LogDebug "Check:call"; ConnCall conn1 Uptime; LogDebug "Check:return"] in
  snd (Check redact (env_up 100) m1) = quiet /\
  snd (Check redact (env_up 120) m2) = quiet /\
  snd (Check redact (env_up 15) m3) =
    [LogDebug "Check:call"; ConnCall conn1 Uptime;
     LogDebug "Check:restarted:***";
     Notify dsn1 (mkSubscribers {[2%nat]} ∅);
     LogDebug "Check:return"] /\
  Check redact env_down m3 =
    (m3, [LogDebug "Check:call"; ConnCall conn1 Uptime;
          LogError "connection refused"; LogDebug "Check:return"]).
Proof. vm_compute. repeat split; reflexivity. Qed.

(** Two subscribers of [dsn1]: the record outlives the first [Remove] and
    goes with the second; a failed [Add] of another target leaves no
    trace in the map. *)
Example sample_history :
  let '(m, live) :=
    after redact
      [CallAdd (env_up 100) dsn1; CallAdd (env_up 100) dsn1;
       CallAdd env_down "other"; CallRemove dsn1 2%nat] in
  direct <$> mysqlInstances m !! dsn1 = Some {[3%nat]} /\
  live dsn1 = {[3%nat]} /\
  mysqlInstances m !! "other" = None /\
  mysqlInstances (fst (Remove redact m dsn1 3%nat)) = ∅.
Proof. vm_compute. repeat split; reflexivity. Qed.

(** ** Further facts *)

Section MoreFacts.

Variable hide : string -> string.

(** *** Other targets *)

Lemma Add_other (env : Env) (m : Monitor) (t t' : string) :
  t' <> t ->
  mysqlInstances (fst (fst (Add hide env m t))) !! t' = mysqlInstances m !! t'.
Proof.
  intros Hne. destruct (mysqlInstances m !! t) as [mi|] eqn:Hl.
  - rewrite (Add_known hide env m t mi Hl). cbn.
    by rewrite lookup_insert_ne.
  - destruct (connect env (mkConn (heap m) t)) as [e|] eqn:He.
    + by rewrite (Add_open_error hide env m t e Hl He).
    + rewrite (Add_open_ok hide env m t Hl He). cbn.
      by rewrite lookup_insert_ne.
Qed.

Lemma Remove_other_target (m : Monitor) (t t' : string) (c : Chan) :
  t' <> t ->
  mysqlInstances (fst (Remove hide m t c)) !! t' = mysqlInstances m !! t'.
Proof.
  intros Hne. destruct (mysqlInstances m !! t) as [mi|] eqn:Hl.
  - destruct (decide (direct mi ∖ {[c]} = ∅)) as [He|He].
    + rewrite (Remove_last hide m t c mi Hl He). cbn.
      by rewrite lookup_delete_ne.
    + rewrite (Remove_other hide m t c mi Hl He). cbn.
      by rewrite lookup_insert_ne.
  - by rewrite (Remove_unknown hide m t c Hl).
Qed.

(** [Add] and [Remove] of a target leave the record of every other
    target as it is, and [Remove] never moves the heap or the global
    channel. *)
Theorem Add_Remove_frame (env : Env) (m : Monitor) (t t' : string) (c : Chan) :
  t' <> t ->
  mysqlInstances (fst (fst (Add hide env m t))) !! t' = mysqlInstances m !! t' /\
  mysqlInstances (fst (Remove hide m t c)) !! t' = mysqlInstances m !! t' /\
  globalChan (fst (fst (Add hide env m t))) = globalChan m /\
  globalChan (fst (Remove hide m t c)) = globalChan m /\
  heap (fst (Remove hide m t c)) = heap m.
Proof.
  intros Hne. split; [by apply Add_other|]. split; [by apply Remove_other_target|].
  split; [|split].
  - destruct (mysqlInstances m !! t) as [mi|] eqn:Hl.
    + by rewrite (Add_known hide env m t mi Hl).
    + destruct (connect env (mkConn (heap m) t)) as [e|] eqn:He.
      * by rewrite (Add_open_error hide env m t e Hl He).
      * by rewrite (Add_open_ok hide env m t Hl He).
  - unfold Remove. destruct (mysqlInstances m !! t); [|done].
    by destruct (Subscribers_Empty _).
  - unfold Remove. destruct (mysqlInstances m !! t); [|done].
    by destruct (Subscribers_Empty _).
Qed.

(** *** What polling and global subscription keep *)

Lemma Check_lookup (env : Env) (m : Monitor) (t : string) :
  mysqlInstances (fst (Check hide env m)) !! t =
    (fun mi => fst (fst (CheckIfMysqlRestarted env mi))) <$>
      mysqlInstances m !! t.
Proof.
  unfold Check.
  pose proof (NoDup_fst_map_to_list (mysqlInstances m)) as Hnd.
  destruct (Check_range hide env (map_to_list (mysqlInstances m))
              (mysqlInstances m)) as [insts tr] eqn:E.
  cbn.
  destruct (mysqlInstances m !! t) as [mi|] eqn:Hl.
  - apply elem_of_map_to_list in Hl.
    pose proof (Check_range_in hide env _ (mysqlInstances m) t mi Hnd Hl) as Hin.
    rewrite E in Hin. cbn in Hin. rewrite Hin. cbn.
    by rewrite Check_body_fst.
  - assert (Hn : t ∉ (map_to_list (mysqlInstances m)).*1).
    { intros Hin. apply list_elem_of_fmap in Hin as [[k mi] [-> Hin]].
      apply elem_of_map_to_list in Hin. cbn in *. congruence. }
    pose proof (Check_range_notin hide env _ (mysqlInstances m) t Hn) as Hno.
    rewrite E in Hno. cbn in Hno. by rewrite Hno, Hl.
Qed.

Lemma Check_frame (env : Env) (m : Monitor) :
  globalChan (fst (Check hide env m)) = globalChan m /\
  heap (fst (Check hide env m)) = heap m.
Proof.
  unfold Check. by destruct (Check_range hide env _ _).
Qed.

Lemma Check_registration (env : Env) (m : Monitor) (t : string) :
  registration <$> mysqlInstances (fst (Check hide env m)) !! t =
  registration <$> mysqlInstances m !! t.
Proof.
  rewrite Check_lookup. destruct (mysqlInstances m !! t) as [mi|]; [|done].
  cbn. unfold registration, direct.
  by destruct (CheckIfMysqlRestarted_keeps env mi) as [-> ->].
Qed.

Lemma GlobalSubscribe_range_registration (gc : Chan)
    (entries : list (string * MysqlInstance))
    (insts : gmap string MysqlInstance) :
  (forall k mi, (k, mi) ∈ entries ->
     registration <$> insts !! k = Some (registration mi)) ->
  forall t, registration <$> fst (GlobalSubscribe_range gc entries insts) !! t =
            registration <$> insts !! t.
Proof.
  revert insts. induction entries as [|[k mi] rest IH]; intros insts Hall t;
    [reflexivity|].
  cbn [GlobalSubscribe_range].
  unfold Subscribers_GlobalAdd.
  destruct (Subscribers_Empty (Subscribers_of mi)); [reflexivity|].
  set (mi' := set_Subscribers mi _).
  assert (Hstep : forall u, registration <$> <[k := mi']> insts !! u =
                            registration <$> insts !! u).
  { intros u. destruct (decide (k = u)) as [->|Hne].
    - rewrite lookup_insert_eq.
      rewrite (Hall u mi) by (left). reflexivity.
    - by rewrite lookup_insert_ne. }
  rewrite IH.
  - apply Hstep.
  - intros k0 mi0 Hin. rewrite Hstep. apply Hall. by right.
Qed.

Lemma GlobalSubscribe_registration (m : Monitor) (t : string) :
  registration <$> mysqlInstances (fst (fst (GlobalSubscribe m))) !! t =
  registration <$> mysqlInstances m !! t.
Proof.
  unfold GlobalSubscribe.
  pose proof (GlobalSubscribe_range_registration (globalChan m)
                (map_to_list (mysqlInstances m)) (mysqlInstances m)) as H.
  destruct (GlobalSubscribe_range (globalChan m)
              (map_to_list (mysqlInstances m)) (mysqlInstances m))
    as [insts [e|]]; cbn in *; apply H;
    intros k mi Hin; apply elem_of_map_to_list in Hin; by rewrite Hin.
Qed.

Lemma GlobalSubscribe_frame (m : Monitor) :
  globalChan (fst (fst (GlobalSubscribe m))) = globalChan m /\
  heap (fst (fst (GlobalSubscribe m))) = heap m.
Proof.
  unfold GlobalSubscribe.
  by destruct (GlobalSubscribe_range _ _ _) as [insts [e|]].
Qed.

(** *** The objects of a history *)

Lemma registration_lookup (i i' : gmap string MysqlInstance) (t : string)
    (mi' : MysqlInstance) :
  registration <$> i' !! t = registration <$> i !! t ->
  i' !! t = Some mi' ->
  exists mi, i !! t = Some mi /\ mysqlConn mi' = mysqlConn mi /\
             direct mi' = direct mi.
Proof.
  intros H Hl. rewrite Hl in H. destruct (i !! t) as [mi|]; [|done].
  cbn in H. apply (inj Some) in H. unfold registration in H.
  exists mi. split; [done|]. by inversion H.
Qed.

Lemma tidy_new : tidy (NewMonitor, no_handles).
Proof.
  split; [cbn; lia|]. split; [|split].
  - intros t c Hc. by apply not_elem_of_empty in Hc.
  - intros t t' c Hc. by apply not_elem_of_empty in Hc.
  - intros t mi Hl. cbn in Hl. by rewrite lookup_empty in Hl.
Qed.

Lemma elem_of_hand_out (live : Handles) (dsn t : string) (x c : Chan) :
  c ∈ hand_out live dsn x t <-> (t = dsn /\ c = x) \/ c ∈ live t.
Proof.
  unfold hand_out. destruct (decide (t = dsn)) as [->|Hne].
  - rewrite elem_of_union, elem_of_singleton.
    split; (intros [H|H]; [left|right]); try done. by destruct H.
  - split; [by right|]. intros [[H _]|H]; done.
Qed.

Lemma elem_of_give_back (live : Handles) (dsn t : string) (x c : Chan) :
  c ∈ give_back live dsn x t -> c ∈ live t.
Proof.
  unfold give_back. destruct (decide (t = dsn)) as [->|Hne]; [|done].
  rewrite elem_of_difference. by intros [H _].
Qed.

Lemma tidy_hand_out (m m' : Monitor) (live : Handles) (dsn : string)
    (x : Chan) :
  tidy (m, live) ->
  (heap m <= x < heap m')%nat ->
  globalChan m' = globalChan m ->
  (forall t mi, mysqlInstances m' !! t = Some mi ->
     conn_dsn (mysqlConn mi) = t /\ (conn_id (mysqlConn mi) < heap m')%nat) ->
  tidy (m', hand_out live dsn x).
Proof.
  intros (Hg & Hh & Hd & Hr) Hx Hgc Hrec. cbn in *.
  split; [cbn; lia|]. split; [|split]; cbn.
  - intros t c Hc. apply elem_of_hand_out in Hc as [[-> ->]|Hc].
    + split; [lia|]. rewrite Hgc. lia.
    + destruct (Hh t c Hc) as [H1 H2]. split; [lia|]. by rewrite Hgc.
  - intros t t' c Hc Hc'.
    apply elem_of_hand_out in Hc as [[Et Ec]|Hc];
      apply elem_of_hand_out in Hc' as [[Et' Ec']|Hc'].
    + congruence.
    + subst. destruct (Hh t' x Hc'). lia.
    + subst. destruct (Hh t x Hc). lia.
    + by apply (Hd t t' c).
  - exact Hrec.
Qed.

Lemma tidy_call (st : Monitor * Handles) (k : Call) :
  tidy st -> tidy (call hide st k).
Proof.
  destruct st as [m live]. intros Ht.
  pose proof Ht as (Hg & Hh & Hd & Hr). cbn in Hg, Hh, Hd, Hr.
  destruct k as [env dsn|dsn c|env|]; cbn [call].
  - destruct (mysqlInstances m !! dsn) as [mi|] eqn:Hl.
    + rewrite (Add_known hide env m dsn mi Hl).
      apply (tidy_hand_out m); [exact Ht|cbn; lia|reflexivity|].
      cbn. intros t mi' Hl'. destruct (decide (t = dsn)) as [->|Hne].
      * rewrite lookup_insert_eq in Hl'. apply (inj Some) in Hl'. subst mi'.
        cbn. destruct (Hr dsn mi Hl). split; [done|lia].
      * rewrite lookup_insert_ne in Hl' by done.
        destruct (Hr t mi' Hl'). split; [done|lia].
    + destruct (connect env (mkConn (heap m) dsn)) as [e|] eqn:He.
      * rewrite (Add_open_error hide env m dsn e Hl He).
        split; [cbn; lia|]. split; [|split]; cbn.
        -- intros t c Hc. destruct (Hh t c Hc). split; [lia|done].
        -- exact Hd.
        -- intros t mi Hl'. destruct (Hr t mi Hl'). split; [done|lia].
      * rewrite (Add_open_ok hide env m dsn Hl He).
        apply (tidy_hand_out m); [exact Ht|cbn; lia|reflexivity|].
        cbn. intros t mi' Hl'. destruct (decide (t = dsn)) as [->|Hne].
        -- rewrite lookup_insert_eq in Hl'. apply (inj Some) in Hl'.
           subst mi'. cbn. split; [done|lia].
        -- rewrite lookup_insert_ne in Hl' by done.
           destruct (Hr t mi' Hl'). split; [done|lia].
  - assert (Hfr : globalChan (fst (Remove hide m dsn c)) = globalChan m /\
                  heap (fst (Remove hide m dsn c)) = heap m).
    { unfold Remove. destruct (mysqlInstances m !! dsn); [|done].
      by destruct (Subscribers_Empty _). }
    destruct Hfr as [Hgc Hhp].
    split; [cbn; lia|]. split; [|split]; cbn.
    + intros t x Hx. apply elem_of_give_back in Hx.
      rewrite Hgc, Hhp. by apply (Hh t).
    + intros t t' x Hx Hx'. apply elem_of_give_back in Hx, Hx'.
      by apply (Hd t t' x).
    + intros t mi' Hl'. rewrite Hhp.
      destruct (decide (t = dsn)) as [->|Hne].
      * destruct (mysqlInstances m !! dsn) as [mi|] eqn:Hl.
        -- destruct (decide (direct mi ∖ {[c]} = ∅)) as [He|He].
           ++ rewrite (Remove_last hide m dsn c mi Hl He) in Hl'. cbn in Hl'.
              by rewrite lookup_delete_eq in Hl'.
           ++ rewrite (Remove_other hide m dsn c mi Hl He) in Hl'. cbn in Hl'.
              rewrite lookup_insert_eq in Hl'. apply (inj Some) in Hl'.
              subst mi'. cbn. by apply Hr.
        -- rewrite (Remove_unknown hide m dsn c Hl) in Hl'. cbn in Hl'.
           congruence.
      * rewrite Remove_other_target in Hl' by done. by apply Hr.
  - destruct (Check_frame env m) as [Hgc Hhp].
    split; [cbn; lia|]. split; [|split]; cbn.
    + intros t x Hx. rewrite Hgc, Hhp. by apply (Hh t).
    + exact Hd.
    + intros t mi' Hl'. rewrite Hhp.
      destruct (registration_lookup _ _ t mi' (Check_registration env m t) Hl')
        as (mi & Hl & -> & _).
      by apply Hr.
  - destruct (GlobalSubscribe_frame m) as [Hgc Hhp].
    split; [cbn; lia|]. split; [|split]; cbn.
    + intros t x Hx. rewrite Hgc, Hhp. by apply (Hh t).
    + exact Hd.
    + intros t mi' Hl'. rewrite Hhp.
      destruct (registration_lookup _ _ t mi'
                  (GlobalSubscribe_registration m t) Hl')
        as (mi & Hl & -> & _).
      by apply Hr.
Qed.

Lemma tidy_after (history : list Call) : tidy (after hide history).
Proof.
  unfold after. generalize tidy_new.
  generalize (NewMonitor, no_handles).
  induction history as [|k ks IH]; intros st Hst; [exact Hst|].
  cbn. apply IH, tidy_call, Hst.
Qed.

Lemma Add_globalChan (env : Env) (m : Monitor) (t : string) :
  globalChan (fst (fst (Add hide env m t))) = globalChan m.
Proof.
  destruct (mysqlInstances m !! t) as [mi|] eqn:Hl.
  - by rewrite (Add_known hide env m t mi Hl).
  - destruct (connect env (mkConn (heap m) t)) as [e|] eqn:He.
    + by rewrite (Add_open_error hide env m t e Hl He).
    + by rewrite (Add_open_ok hide env m t Hl He).
Qed.

Lemma Remove_globalChan (m : Monitor) (t : string) (c : Chan) :
  globalChan (fst (Remove hide m t c)) = globalChan m.
Proof.
  unfold Remove. destruct (mysqlInstances m !! t); [|done].
  by destruct (Subscribers_Empty _).
Qed.

Lemma globalChan_call (st : Monitor * Handles) (k : Call) :
  globalChan (fst (call hide st k)) = globalChan (fst st).
Proof.
  destruct st as [m live]. destruct k as [env dsn|dsn c|env|]; cbn [call].
  - pose proof (Add_globalChan env m dsn) as H.
    by destruct (Add hide env m dsn) as [[m' [c e]] tr].
  - apply Remove_globalChan.
  - apply Check_frame.
  - apply GlobalSubscribe_frame.
Qed.

Lemma globalChan_after (history : list Call) :
  globalChan (fst (after hide history)) = globalChan NewMonitor.
Proof.
  unfold after.
  change (globalChan NewMonitor) with (globalChan (fst (NewMonitor, no_handles))).
  generalize (NewMonitor, no_handles).
  induction history as [|k ks IH]; intros st; [reflexivity|].
  cbn [foldl]. rewrite IH. apply globalChan_call.
Qed.

(** *** Channels *)

(** After every history of calls, a channel that [Add] returns is held by
    no subscriber of any target and is not the global channel; and no
    channel is ever out for two targets. *)
Theorem Add_returns_fresh_channel (history : list Call) (env : Env)
    (t : string) (c : Chan) :
  let m := fst (after hide history) in
  let live := snd (after hide history) in
  fst (snd (fst (Add hide env m t))) = Some c ->
  (forall t', c ∉ live t') /\
  c <> globalChan m /\
  (forall t' t'' x, x ∈ live t' -> x ∈ live t'' -> t' = t'').
Proof.
  intros m live Hc.
  pose proof (tidy_after history) as (Hg & Hh & Hd & Hr).
  fold m live in Hg, Hh, Hd, Hr.
  assert (Hge : (heap m <= c)%nat).
  { destruct (mysqlInstances m !! t) as [mi|] eqn:Hl.
    - rewrite (Add_known hide env m t mi Hl) in Hc. cbn in Hc.
      apply (inj Some) in Hc. lia.
    - destruct (connect env (mkConn (heap m) t)) as [e|] eqn:He.
      + rewrite (Add_open_error hide env m t e Hl He) in Hc. discriminate Hc.
      + rewrite (Add_open_ok hide env m t Hl He) in Hc. cbn in Hc.
        apply (inj Some) in Hc. lia. }
  split; [|split].
  - intros t' Hin. destruct (Hh t' c Hin). lia.
  - lia.
  - exact Hd.
Qed.

(** After every history of calls, [Remove] of a target with a handle that
    is out for another target takes nothing away: the target stays
    registered with its connection and its direct subscribers. *)
Theorem Remove_with_foreign_handle (history : list Call) (t t' : string)
    (c : Chan) :
  let m := fst (after hide history) in
  let live := snd (after hide history) in
  t <> t' -> c ∈ live t' ->
  forall u, registration <$> mysqlInstances (fst (Remove hide m t c)) !! u =
            registration <$> mysqlInstances m !! u.
Proof.
  intros m live Hne Hc u.
  pose proof (tidy_after history) as (Hg & Hh & Hd & Hr).
  pose proof (consistent_after hide history t) as Hcon.
  fold m live in Hg, Hh, Hd, Hr, Hcon.
  destruct (decide (u = t)) as [->|Hu];
    [|by rewrite Remove_other_target].
  destruct (mysqlInstances m !! t) as [mi|] eqn:Hl;
    [|rewrite (Remove_unknown hide m t c Hl); cbn; by rewrite Hl].
  cbn in Hcon. destruct (decide (live t = ∅)) as [|Hn]; [done|].
  apply (inj Some) in Hcon.
  assert (Hnot : c ∉ direct mi).
  { rewrite Hcon. intros Hin. apply Hne. by apply (Hd t t' c). }
  assert (Hsame : direct mi ∖ {[c]} = direct mi).
  { apply set_eq. intros x. rewrite elem_of_difference, elem_of_singleton.
    split; [by intros [? _]|]. intros Hx. split; [done|]. by intros ->. }
  rewrite (Remove_other hide m t c mi Hl) by (rewrite Hsame, Hcon; done).
  cbn. rewrite lookup_insert_eq. cbn. unfold registration, direct. cbn.
  fold (direct mi). by rewrite Hsame.
Qed.

(** After every history of calls, [Add] of a target followed by [Remove]
    with the channel [Add] returned leaves every target registered or not
    as before, with the connection and the direct subscribers it had;
    when [Add] returns no channel the instance map is as before. *)
Theorem Add_then_Remove_restores (history : list Call) (env : Env)
    (t : string) :
  let m := fst (after hide history) in
  let added := fst (fst (Add hide env m t)) in
  match fst (snd (fst (Add hide env m t))) with
  | Some c =>
      forall u,
        registration <$> mysqlInstances (fst (Remove hide added t c)) !! u =
        registration <$> mysqlInstances m !! u
  | None => mysqlInstances added = mysqlInstances m
  end.
Proof.
  intros m added.
  pose proof (tidy_after history) as (Hg & Hh & Hd & Hr).
  pose proof (consistent_after hide history t) as Hcon.
  fold m in Hg, Hh, Hd, Hr, Hcon. subst added.
  destruct (mysqlInstances m !! t) as [mi|] eqn:Hl.
  - rewrite (Add_known hide env m t mi Hl). cbn [fst snd].
    intros u. destruct (decide (u = t)) as [->|Hu].
    + cbn in Hcon.
      destruct (decide ((after hide history).2 t = ∅)) as [|Hn]; [done|].
      apply (inj Some) in Hcon.
      set (mi' := set_Subscribers mi _).
      assert (Hd' : direct mi' ∖ {[heap m]} = direct mi).
      { unfold mi', direct. cbn. fold (direct mi).
        apply set_eq. intros x.
        rewrite elem_of_difference, elem_of_union, !elem_of_singleton.
        split; [intros [[?|?] ?]; done|].
        intros Hx. split; [by right|]. intros ->.
        rewrite Hcon in Hx. destruct (Hh t (heap m) Hx). lia. }
      assert (Hl' : mysqlInstances
                      (set_mysqlInstances (alloc m)
                         (<[t := mi']> (mysqlInstances m))) !! t = Some mi')
        by (cbn; apply lookup_insert_eq).
      assert (Hne' : direct mi' ∖ {[heap m]} <> ∅)
        by (rewrite Hd', Hcon; done).
      rewrite (Remove_other hide _ t (heap m) mi' Hl' Hne').
      cbn [fst set_mysqlInstances mysqlInstances].
      rewrite lookup_insert_eq, Hl. cbn [fmap option_fmap option_map].
      unfold registration. f_equal. f_equal.
      unfold direct at 1. cbn. exact Hd'.
    + rewrite Remove_other_target by done. cbn.
      by rewrite lookup_insert_ne.
  - destruct (connect env (mkConn (heap m) t)) as [e|] eqn:He.
    + by rewrite (Add_open_error hide env m t e Hl He).
    + rewrite (Add_open_ok hide env m t Hl He). cbn [fst snd].
      intros u. destruct (decide (u = t)) as [->|Hu].
      * erewrite Remove_last; [|cbn; apply lookup_insert_eq|].
        -- cbn. by rewrite lookup_delete_eq, Hl.
        -- unfold direct. cbn. rewrite (right_id_L ∅ (∪)).
           apply difference_diag_L.
      * rewrite Remove_other_target by done. cbn.
        by rewrite lookup_insert_ne.
Qed.

(** *** Global subscription *)

Lemma GlobalSubscribe_range_notin (gc : Chan)
    (entries : list (string * MysqlInstance))
    (insts : gmap string MysqlInstance) (t : string) :
  t ∉ entries.*1 ->
  fst (GlobalSubscribe_range gc entries insts) !! t = insts !! t.
Proof.
  revert insts. induction entries as [|[k mi] rest IH]; intros insts Hn;
    [reflexivity|].
  cbn [GlobalSubscribe_range]. cbn in Hn.
  apply not_elem_of_cons in Hn as [Hk Hr].
  destruct (Subscribers_GlobalAdd _ _ _) as [s|e]; [|reflexivity].
  rewrite IH by exact Hr. by rewrite lookup_insert_ne.
Qed.

(** When no visited record is without direct subscriber the loop ends
    without error and has put the channel under the DSN of every record. *)
Lemma GlobalSubscribe_range_ok (gc : Chan)
    (entries : list (string * MysqlInstance))
    (insts : gmap string MysqlInstance) :
  NoDup entries.*1 ->
  (forall k mi, (k, mi) ∈ entries -> direct mi <> ∅) ->
  snd (GlobalSubscribe_range gc entries insts) = None /\
  forall k mi, (k, mi) ∈ entries ->
    exists mi', fst (GlobalSubscribe_range gc entries insts) !! k = Some mi' /\
      globalSubscribers (Subscribers_of mi') !! conn_dsn (mysqlConn mi)
        = Some gc.
Proof.
  revert insts. induction entries as [|[k mi] rest IH]; intros insts Hnd Hall.
  - split; [reflexivity|]. intros k mi Hin. by apply elem_of_nil in Hin.
  - cbn in Hnd. apply NoDup_cons in Hnd as [Hk Hnd].
    cbn [GlobalSubscribe_range]. unfold Subscribers_GlobalAdd, Subscribers_Empty.
    rewrite bool_decide_eq_false_2 by (apply (Hall k mi); left).
    set (mi1 := set_Subscribers mi _).
    destruct (IH (<[k := mi1]> insts) Hnd) as [Herr Hin].
    { intros k0 mi0 H0. apply (Hall k0 mi0). by right. }
    split; [exact Herr|].
    intros k0 mi0 H0. apply elem_of_cons in H0 as [Heq|H0].
    + simplify_eq. exists mi1.
      rewrite GlobalSubscribe_range_notin by exact Hk.
      rewrite lookup_insert_eq. split; [reflexivity|].
      unfold mi1. cbn. apply lookup_insert_eq.
    + by apply Hin.
Qed.

(** After every history of calls [GlobalSubscribe] succeeds and returns
    the global channel the monitor was created with; afterwards every
    registered target has that channel on the global stream under its
    DSN, and every target is registered or not as before, with the
    connection and the direct subscribers it had. *)
Theorem GlobalSubscribe_after_history (history : list Call) :
  let m := fst (after hide history) in
  let m' := fst (fst (GlobalSubscribe m)) in
  snd (fst (GlobalSubscribe m)) = (Some (globalChan NewMonitor), None) /\
  (forall t mi', mysqlInstances m' !! t = Some mi' ->
     globalSubscribers (Subscribers_of mi') !! t = Some (globalChan NewMonitor)) /\
  (forall t, registration <$> mysqlInstances m' !! t =
             registration <$> mysqlInstances m !! t).
Proof.
  intros m m'.
  pose proof (tidy_after history) as (Hg & Hh & Hd & Hr).
  pose proof (consistent_after hide history) as Hcon.
  pose proof (globalChan_after history) as Hgc.
  fold m in Hg, Hh, Hd, Hr, Hcon, Hgc.
  assert (Hne : forall k mi, (k, mi) ∈ map_to_list (mysqlInstances m) ->
                             direct mi <> ∅).
  { intros k mi Hin. apply elem_of_map_to_list in Hin.
    specialize (Hcon k). unfold m in Hin. cbn [fst snd] in Hcon.
    rewrite Hin in Hcon. cbn in Hcon.
    destruct (decide ((after hide history).2 k = ∅)); [done|].
    apply (inj Some) in Hcon. by rewrite Hcon. }
  destruct (GlobalSubscribe_range_ok (globalChan m)
              (map_to_list (mysqlInstances m)) (mysqlInstances m)
              (NoDup_fst_map_to_list _) Hne) as [Herr Hin].
  split; [|split].
  - unfold GlobalSubscribe.
    destruct (GlobalSubscribe_range _ _ _) as [insts err]. cbn in Herr.
    subst err. cbn. by rewrite Hgc.
  - intros t mi' Hl'.
    destruct (registration_lookup _ _ t mi'
                (GlobalSubscribe_registration m t) Hl') as (mi & Hl & _ & _).
    destruct (Hr t mi Hl) as [Hdsn _].
    apply elem_of_map_to_list in Hl.
    destruct (Hin t mi Hl) as (mi1 & Hl1 & Hglob).
    rewrite Hdsn, Hgc in Hglob.
    assert (Heq : mysqlInstances m' !! t = Some mi1).
    { subst m'. unfold GlobalSubscribe.
      destruct (GlobalSubscribe_range _ _ _) as [insts [e|]]; exact Hl1. }
    rewrite Hl' in Heq. apply (inj Some) in Heq. by subst mi1.
  - apply GlobalSubscribe_registration.
Qed.

(** *** The poll loop *)

Lemma run_loop_keeps (m : Monitor) (polls : list (Env * Wake)) :
  globalChan (fst (fst (run_loop hide m polls))) = globalChan m /\
  heap (fst (fst (run_loop hide m polls))) = heap m /\
  forall t,
    registration <$> mysqlInstances (fst (fst (run_loop hide m polls))) !! t =
    registration <$> mysqlInstances m !! t.
Proof.
  revert m. induction polls as [|[env wake] rest IH]; intros m; [done|].
  cbn [run_loop].
  pose proof (Check_frame env m) as [Hgc Hhp].
  pose proof (Check_registration env m) as Hreg.
  destruct (Check hide env m) as [m1 tr]. cbn [fst] in Hgc, Hhp, Hreg.
  destruct wake.
  - specialize (IH m1). destruct (run_loop hide m1 rest) as [[m2 st] tr2].
    cbn [fst] in IH |- *. destruct IH as (H1 & H2 & H3).
    split; [congruence|]. split; [congruence|].
    intros t. by rewrite H3.
  - cbn [fst]. done.
Qed.

(** Polling registers and unregisters nothing: after a run of the poll
    loop, however long and whatever the targets answer, every target is
    registered or not as before, with the connection and the direct
    subscribers it had, and no object was made. *)
Theorem run_keeps_registrations (m : Monitor) (polls : list (Env * Wake))
    (t : string) :
  let m' := fst (fst (run hide m polls)) in
  registration <$> mysqlInstances m' !! t =
    registration <$> mysqlInstances m !! t /\
  dom (mysqlInstances m') = dom (mysqlInstances m) /\
  globalChan m' = globalChan m /\ heap m' = heap m.
Proof.
  intros m'.
  assert (Hm : m' = fst (fst (run_loop hide m polls))).
  { subst m'. unfold run. by destruct (run_loop hide m polls) as [[m2 st] tr]. }
  rewrite Hm. destruct (run_loop_keeps m polls) as (H1 & H2 & H3).
  split; [apply H3|]. split; [|done].
  apply set_eq. intros u. rewrite !elem_of_dom.
  specialize (H3 u).
  destruct (mysqlInstances _ !! u), (mysqlInstances m !! u);
    cbn in H3; try done; split; eauto.
Qed.







End MoreFacts.

Lemma Add_Remove_frame_witness :
  "other"%string <> dsn1 /\
  mysqlInstances (fst (Remove redact m1 "other" 2%nat)) !! dsn1 =
    mysqlInstances m1 !! dsn1.
Proof.
  split; [discriminate|].
  apply (Add_Remove_frame redact (env_up 100) m1 "other" dsn1 2%nat).
  discriminate.
Defined.

Lemma Add_returns_fresh_channel_witness :
  fst (snd (fst (Add redact (env_up 100)
                   (fst (after redact [CallAdd (env_up 100) dsn1])) dsn1)))
    = Some 3%nat /\
  forall t', 3%nat ∉ snd (after redact [CallAdd (env_up 100) dsn1]) t'.
Proof.
  split; [reflexivity|].
  apply (Add_returns_fresh_channel redact [CallAdd (env_up 100) dsn1]
           (env_up 100) dsn1 3%nat).
  reflexivity.
Defined.

Lemma Remove_with_foreign_handle_witness :
  dsn1 <> "other"%string /\
  4%nat ∈ snd (after redact [CallAdd (env_up 100) dsn1;
                             CallAdd (env_up 100) "other"]) "other"%string /\
  registration <$>
    mysqlInstances
      (fst (Remove redact
              (fst (after redact [CallAdd (env_up 100) dsn1;
                                  CallAdd (env_up 100) "other"]))
              dsn1 4%nat)) !! dsn1 =
  registration <$>
    mysqlInstances
      (fst (after redact [CallAdd (env_up 100) dsn1;
                          CallAdd (env_up 100) "other"])) !! dsn1.
Proof.
  assert (Hin : 4%nat ∈ snd (after redact [CallAdd (env_up 100) dsn1;
                                CallAdd (env_up 100) "other"]) "other"%string)
    by (vm_compute; reflexivity).
  split; [discriminate|]. split; [exact Hin|].
  apply (Remove_with_foreign_handle redact
           [CallAdd (env_up 100) dsn1; CallAdd (env_up 100) "other"]
           dsn1 "other" 4%nat); [discriminate|exact Hin].
Defined.

End MrmsSpec.

(* ===================================================================== *)
(** * Properties of the metrics monitor loop                              *)
(* ===================================================================== *)

Module MysqlSpec.
Import Mysql.

Section Facts.

Variable ToLower : string -> string.
Variable ParseFloat : string -> float + error.

Abbreviation collect := (Mysql.collect ToLower ParseFloat).
Abbreviation on_tick := (Mysql.on_tick ToLower ParseFloat).
Abbreviation loop := (Mysql.loop ToLower ParseFloat).
Abbreviation run := (Mysql.run ToLower ParseFloat).

(** ** The writer *)

Lemma bind_fst {A B : Type} (m : W A) (k : A -> W B) :
  fst (bind m k) = fst (k (fst m)).
Proof.
  unfold bind. destruct m as [a t1]. cbn. by destruct (k a).
Qed.

Lemma bind_snd {A B : Type} (m : W A) (k : A -> W B) :
  snd (bind m k) = snd m ++ snd (k (fst m)).
Proof.
  unfold bind. destruct m as [a t1]. cbn. by destruct (k a).
Qed.

(** ** [select] *)

Lemma select_send_wait (q : Downstream) :
  0 <= snd (select_send delivery_timeout q) <= delivery_timeout.
Proof.
  unfold select_send.
  assert (Ht : 0 <= delivery_timeout) by (vm_compute; discriminate).
  destruct (ready_after q) as [d|]; cbn; [|lia].
  destruct (d <? delivery_timeout) eqn:E1; cbn.
  - apply Z.ltb_lt in E1. lia.
  - destruct (d =? delivery_timeout); cbn; lia.
Qed.

Lemma select_send_not_taken (q : Downstream) :
  not_taken_within delivery_timeout q = true ->
  select_send delivery_timeout q = (false, delivery_timeout).
Proof.
  unfold not_taken_within, select_send.
  destruct (ready_after q) as [d|]; [|reflexivity].
  intros H. apply Z.ltb_lt in H.
  destruct (d <? delivery_timeout) eqn:E1; [apply Z.ltb_lt in E1; lia|].
  destruct (d =? delivery_timeout) eqn:E2; [apply Z.eqb_eq in E2; lia|].
  reflexivity.
Qed.

Lemma select_send_taken (q : Downstream) :
  fst (select_send delivery_timeout q) = true ->
  not_taken_within delivery_timeout q = false.
Proof.
  intros H. destruct (not_taken_within delivery_timeout q) eqn:E; [|done].
  rewrite (select_send_not_taken q E) in H. discriminate H.
Qed.

(** ** One tick *)

(** Each getter asks the database one query and nothing else. *)
Lemma GetShowStatusMetrics_trace (cfg : Config) (db : DB) (prefix : string)
    (c : Collection) :
  snd (GetShowStatusMetrics ToLower ParseFloat cfg db prefix c) =
    [Query "SHOW /*!50002 GLOBAL */ STATUS"].
Proof.
  unfold GetShowStatusMetrics. rewrite bind_snd.
  by destruct (show_status db).
Qed.

Lemma GetInnoDBMetrics_trace (db : DB) (prefix : string) (c : Collection) :
  exists sql, snd (GetInnoDBMetrics ToLower ParseFloat db prefix c) = [Query sql].
Proof.
  unfold GetInnoDBMetrics. rewrite bind_snd. eexists.
  by destruct (innodb_metrics db).
Qed.

Lemma getTableUserStats_trace (db : DB) (prefix : string) (c : Collection)
    (ignoreDb : string) :
  exists sql, snd (getTableUserStats db prefix c ignoreDb) = [Query sql].
Proof.
  unfold getTableUserStats. rewrite bind_snd. eexists.
  by destruct (table_statistics db).
Qed.

Lemma getIndexUserStats_trace (db : DB) (prefix : string) (c : Collection)
    (ignoreDb : string) :
  exists sql, snd (getIndexUserStats db prefix c ignoreDb) = [Query sql].
Proof.
  unfold getIndexUserStats. rewrite bind_snd. eexists.
  by destruct (index_statistics db).
Qed.

(** Gathering a collection only queries the database. *)
Lemma collect_queries (cfg : Config) (db : DB) (prefix : string)
    (c : Collection) (x : Event) :
  x ∈ snd (collect cfg db prefix c) -> exists sql, x = Query sql.
Proof.
  unfold Mysql.collect. rewrite bind_snd, GetShowStatusMetrics_trace.
  intros H. apply elem_of_cons in H as [->|H]; [eauto|].
  rewrite bind_snd in H. apply elem_of_app in H as [H|H].
  - destruct (bool_decide (InnoDB cfg = "")).
    + cbn [ret snd] in H. by apply elem_of_nil in H.
    + rewrite bind_snd in H. cbn [ret snd] in H. rewrite app_nil_r in H.
      match type of H with
      | _ ∈ snd (GetInnoDBMetrics _ _ ?d ?p ?c0) =>
          destruct (GetInnoDBMetrics_trace d p c0) as [sql Hs]
      end.
      rewrite Hs in H. apply list_elem_of_singleton in H. eauto.
  - destruct (UserStats cfg); [|cbn [ret snd] in H; by apply elem_of_nil in H].
    rewrite !bind_snd in H. cbn [ret snd] in H. rewrite app_nil_r in H.
    apply elem_of_app in H as [H|H].
    + match type of H with
      | _ ∈ snd (getTableUserStats ?d ?p ?c0 ?i) =>
          destruct (getTableUserStats_trace d p c0 i) as [sql Hs]
      end.
      rewrite Hs in H. apply list_elem_of_singleton in H. eauto.
    + match type of H with
      | _ ∈ snd (getIndexUserStats ?d ?p ?c0 ?i) =>
          destruct (getIndexUserStats_trace d p c0 i) as [sql Hs]
      end.
      rewrite Hs in H. apply list_elem_of_singleton in H. eauto.
Qed.

Lemma send_metrics_empty (c : Collection) (q : Downstream) :
  Metrics c = [] ->
  send_metrics c q = (tt, [LogDebug "No metrics"]).
Proof.
  intros H. unfold send_metrics. rewrite H. reflexivity.
Qed.

Lemma send_metrics_some (c : Collection) (q : Downstream) :
  Metrics c <> [] ->
  snd (send_metrics c q) =
    Blocked (snd (select_send delivery_timeout q)) ::
    (if fst (select_send delivery_timeout q) then [Send c]
     else [LogDebug "Lost MySQL metrics; timeout spooling after 500ms"]).
Proof.
  intros H. unfold send_metrics.
  destruct (Metrics c) as [|x l]; [done|]. cbn [length].
  replace (0 <? Z.of_nat (S (length l))) with true
    by (symmetry; apply Z.ltb_lt; lia).
  destruct (select_send delivery_timeout q) as [[|] w]; reflexivity.
Qed.

Lemma on_tick_skip (m : Monitor) (prefix : string) (now : Pct.Time)
    (db : DB) (q : Downstream) :
  connected m = false -> on_tick m prefix now db q = (tt, []).
Proof.
  intros H. unfold Mysql.on_tick. rewrite H. reflexivity.
Qed.

Lemma on_tick_trace (m : Monitor) (prefix : string) (now : Pct.Time)
    (db : DB) (q : Downstream) :
  connected m = true ->
  let gathered := collect (config m) db prefix (mkCollection (Unix now) []) in
  snd (on_tick m prefix now db q) =
    [StatusUpdate "mysql" "Running"] ++ snd gathered ++
    snd (send_metrics (fst gathered) q) ++ [StatusUpdate "mysql" "Ready"].
Proof.
  intros H gathered. unfold Mysql.on_tick. rewrite H. cbn [negb].
  rewrite !bind_snd. cbn [emit fst snd]. reflexivity.
Qed.

(** ** The loop *)

Lemma loop_Tick (m : Monitor) (prefix : string) (now : Pct.Time) (db : DB)
    (q : Downstream) (rest : list LoopEvent) :
  fst (loop m prefix (Tick now db q :: rest)) = fst (loop m prefix rest) /\
  snd (loop m prefix (Tick now db q :: rest)) =
    snd (on_tick m prefix now db q) ++ snd (loop m prefix rest).
Proof.
  cbn [Mysql.loop]. rewrite bind_fst, bind_snd. done.
Qed.

Lemma loop_Connected (m : Monitor) (prefix : string) (b : bool)
    (rest : list LoopEvent) :
  fst (loop m prefix (Connected b :: rest)) =
    fst (loop (set_connected m b) prefix rest) /\
  snd (loop m prefix (Connected b :: rest)) =
    (if b then [StatusUpdate "mysql" "Ready"; LogDebug "Connected"]
     else [LogDebug "Disconnected"; GoConnect]) ++
    snd (loop (set_connected m b) prefix rest).
Proof.
  cbn [Mysql.loop]. rewrite bind_fst, bind_snd.
  unfold on_connected. destruct b; done.
Qed.

Lemma loop_Stop (m : Monitor) (prefix : string) (conn_set : bool)
    (rest : list LoopEvent) :
  loop m prefix (Stop conn_set :: rest) =
    ((m, true),
     (if conn_set then [ConnClose] else []) ++
     [StatusUpdate "mysql" "Stopped"; SyncDone]).
Proof.
  cbn [Mysql.loop]. unfold on_return. destruct conn_set; reflexivity.
Qed.

(** The trace of a run over the first events is the beginning of the
    trace of the run over all of them. *)
Lemma loop_app (m : Monitor) (prefix : string) (pre post : list LoopEvent) :
  exists tr, snd (loop m prefix (pre ++ post)) =
             snd (loop m prefix pre) ++ tr.
Proof.
  revert m. induction pre as [|e pre IH]; intros m.
  - exists (snd (loop m prefix post)). reflexivity.
  - rewrite <- app_comm_cons. destruct e as [now db q|b|cs].
    + destruct (IH m) as [tr Htr]. exists tr.
      destruct (loop_Tick m prefix now db q (pre ++ post)) as [_ ->].
      destruct (loop_Tick m prefix now db q pre) as [_ ->].
      rewrite Htr. by rewrite app_assoc.
    + destruct (IH (set_connected m b)) as [tr Htr]. exists tr.
      destruct (loop_Connected m prefix b (pre ++ post)) as [_ ->].
      destruct (loop_Connected m prefix b pre) as [_ ->].
      rewrite Htr. by rewrite app_assoc.
    + exists []. rewrite !loop_Stop. by rewrite app_nil_r.
Qed.

(** While no "connected" event arrives the flag stays down and nothing
    of a collection happens. *)
Lemma loop_not_connected (m : Monitor) (prefix : string)
    (events : list LoopEvent) :
  connected m = false ->
  forallb not_connected_event events = true ->
  connected (fst (fst (loop m prefix events))) = false /\
  forall x, x ∈ snd (loop m prefix events) -> collection_event x = false.
Proof.
  revert m. induction events as [|e rest IH]; intros m Hm Hev.
  - split; [exact Hm|]. intros x Hx. by apply elem_of_nil in Hx.
  - cbn [forallb] in Hev. apply andb_prop in Hev as [He Hrest].
    destruct e as [now db q|b|cs].
    + destruct (loop_Tick m prefix now db q rest) as [-> ->].
      rewrite (on_tick_skip m prefix now db q Hm). cbn [snd app].
      by apply IH.
    + destruct b; [discriminate He|].
      destruct (loop_Connected m prefix false rest) as [-> ->].
      destruct (IH (set_connected m false) eq_refl Hrest) as [Hc Htr].
      split; [exact Hc|]. intros x Hx.
      apply elem_of_app in Hx as [Hx|Hx]; [|by apply Htr].
      apply elem_of_cons in Hx as [->|Hx]; [reflexivity|].
      apply list_elem_of_singleton in Hx. by subst x.
    + rewrite loop_Stop. cbn [fst snd]. split; [exact Hm|].
      intros x Hx. destruct cs; cbn in Hx.
      * apply elem_of_cons in Hx as [->|Hx]; [reflexivity|].
        apply elem_of_cons in Hx as [->|Hx]; [reflexivity|].
        apply list_elem_of_singleton in Hx. by subst x.
      * apply elem_of_cons in Hx as [->|Hx]; [reflexivity|].
        apply list_elem_of_singleton in Hx. by subst x.
Qed.

(** An envelope that is sent was gathered on this tick, holds at least
    one metric and was taken by the channel. *)
Lemma on_tick_Send (m : Monitor) (prefix : string) (now : Pct.Time)
    (db : DB) (q : Downstream) (c : Collection) :
  Send c ∈ snd (on_tick m prefix now db q) ->
  connected m = true /\
  c = fst (collect (config m) db prefix (mkCollection (Unix now) [])) /\
  Metrics c <> [] /\
  fst (select_send delivery_timeout q) = true.
Proof.
  destruct (connected m) eqn:Hm;
    [|rewrite (on_tick_skip m prefix now db q Hm); intros H;
      by apply elem_of_nil in H].
  rewrite (on_tick_trace m prefix now db q Hm). cbv zeta.
  set (g := collect (config m) db prefix (mkCollection (Unix now) [])).
  intros H. split; [reflexivity|].
  apply elem_of_app in H as [H|H];
    [apply list_elem_of_singleton in H; discriminate H|].
  apply elem_of_app in H as [H|H].
  { apply collect_queries in H as [sql H]. discriminate H. }
  apply elem_of_app in H as [H|H];
    [|apply list_elem_of_singleton in H; discriminate H].
  destruct (Metrics (fst g)) as [|x l] eqn:Hg.
  { rewrite (send_metrics_empty (fst g) q Hg) in H.
    apply list_elem_of_singleton in H. discriminate H. }
  assert (Hne : Metrics (fst g) <> []) by (rewrite Hg; discriminate).
  rewrite (send_metrics_some (fst g) q Hne) in H.
  apply elem_of_cons in H as [H|H]; [discriminate H|].
  destruct (fst (select_send delivery_timeout q)).
  - apply list_elem_of_singleton in H. injection H as Hc. subst c. done.
  - apply list_elem_of_singleton in H. discriminate H.
Qed.

(** A wait on the downstream channel is the wait of the inner [select]. *)
Lemma on_tick_Blocked (m : Monitor) (prefix : string) (now : Pct.Time)
    (db : DB) (q : Downstream) (d : Pct.Duration) :
  Blocked d ∈ snd (on_tick m prefix now db q) ->
  d = snd (select_send delivery_timeout q).
Proof.
  destruct (connected m) eqn:Hm;
    [|rewrite (on_tick_skip m prefix now db q Hm); intros H;
      by apply elem_of_nil in H].
  rewrite (on_tick_trace m prefix now db q Hm). cbv zeta.
  set (g := collect (config m) db prefix (mkCollection (Unix now) [])).
  intros H.
  apply elem_of_app in H as [H|H];
    [apply list_elem_of_singleton in H; discriminate H|].
  apply elem_of_app in H as [H|H].
  { apply collect_queries in H as [sql H]. discriminate H. }
  apply elem_of_app in H as [H|H];
    [|apply list_elem_of_singleton in H; discriminate H].
  destruct (Metrics (fst g)) as [|x l] eqn:Hg.
  { rewrite (send_metrics_empty (fst g) q Hg) in H.
    apply list_elem_of_singleton in H. discriminate H. }
  assert (Hne : Metrics (fst g) <> []) by (rewrite Hg; discriminate).
  rewrite (send_metrics_some (fst g) q Hne) in H.
  apply elem_of_cons in H as [H|H]; [by injection H|].
  destruct (fst (select_send delivery_timeout q));
    apply list_elem_of_singleton in H; discriminate H.
Qed.

Lemma loop_Send (m : Monitor) (prefix : string) (events : list LoopEvent)
    (c : Collection) :
  Send c ∈ snd (loop m prefix events) -> Metrics c <> [].
Proof.
  revert m. induction events as [|e rest IH]; intros m H.
  - by apply elem_of_nil in H.
  - destruct e as [now db q|b|cs].
    + destruct (loop_Tick m prefix now db q rest) as [_ Htr].
      rewrite Htr in H. apply elem_of_app in H as [H|H].
      * by apply on_tick_Send in H as (_ & _ & Hne & _).
      * by apply (IH m).
    + destruct (loop_Connected m prefix b rest) as [_ Htr].
      rewrite Htr in H. apply elem_of_app in H as [H|H].
      * destruct b;
          (apply elem_of_cons in H as [H|H]; [discriminate H|]);
          apply list_elem_of_singleton in H; discriminate H.
      * by apply (IH (set_connected m b)).
    + rewrite loop_Stop in H. cbn [snd] in H.
      apply elem_of_app in H as [H|H].
      * destruct cs; [apply list_elem_of_singleton in H; discriminate H|].
        by apply elem_of_nil in H.
      * apply elem_of_cons in H as [H|H]; [discriminate H|].
        apply list_elem_of_singleton in H. discriminate H.
Qed.

Lemma run_trace (m : Monitor) (events : list LoopEvent) :
  snd (run m events) =
    GoConnect :: snd (loop m (run_prefix (config m)) events).
Proof. unfold Mysql.run. rewrite bind_snd. reflexivity. Qed.

(** ** Main results *)

(** C7: the wait of a tick on the downstream channel is at most 500 ms;
    when the channel does not take the envelope within that time the tick
    ends with the wait of 500 ms, the debug message of the loss and the
    status "Ready", without a send; an envelope is only sent when the
    channel took it in time; and after the tick the loop goes on with the
    events that follow from the state it had, which holds no envelope. *)
Theorem delivery_waits_at_most_timeout_then_drops (m : Monitor)
    (prefix : string) (now : Pct.Time) (db : DB) (q : Downstream)
    (rest : list LoopEvent) :
  let gathered := collect (config m) db prefix (mkCollection (Unix now) []) in
  (forall d, Blocked d ∈ snd (on_tick m prefix now db q) ->
     0 <= d <= 500 * Pct.Millisecond) /\
  (connected m = true -> Metrics (fst gathered) <> [] ->
   not_taken_within (500 * Pct.Millisecond) q = true ->
   snd (on_tick m prefix now db q) =
     [StatusUpdate "mysql" "Running"] ++ snd gathered ++
     [Blocked (500 * Pct.Millisecond);
      LogDebug "Lost MySQL metrics; timeout spooling after 500ms";
      StatusUpdate "mysql" "Ready"]) /\
  (forall c, Send c ∈ snd (on_tick m prefix now db q) ->
     not_taken_within (500 * Pct.Millisecond) q = false) /\
  fst (loop m prefix (Tick now db q :: rest)) = fst (loop m prefix rest) /\
  snd (loop m prefix (Tick now db q :: rest)) =
    snd (on_tick m prefix now db q) ++ snd (loop m prefix rest).
Proof.
  intros gathered. fold delivery_timeout.
  split; [|split; [|split]].
  - intros d H. apply on_tick_Blocked in H. subst d.
    apply select_send_wait.
  - intros Hm Hne Hq. rewrite (on_tick_trace m prefix now db q Hm).
    cbv zeta. fold gathered.
    rewrite (send_metrics_some (fst gathered) q Hne).
    rewrite (select_send_not_taken q Hq). reflexivity.
  - intros c H. apply on_tick_Send in H as (_ & _ & _ & H).
    by apply select_send_taken.
  - apply loop_Tick.
Qed.

(** C8: from a state with the connected flag down, as in a new monitor,
    as long as the events hold no "connected" event the run queries
    nothing, waits on nothing and sends nothing, and leaves the flag down;
    what it does is the beginning of whatever the run does when more
    events follow; and every event of a tick, so every query of a
    collection, presupposes that the flag is set. *)
Theorem ticks_before_connected_are_skipped (m : Monitor)
    (pre post : list LoopEvent) :
  connected m = false ->
  forallb not_connected_event pre = true ->
  (forall x, x ∈ snd (run m pre) -> collection_event x = false) /\
  connected (fst (fst (run m pre))) = false /\
  (exists tr, snd (run m (pre ++ post)) = snd (run m pre) ++ tr) /\
  (forall m' prefix now db q x,
     x ∈ snd (on_tick m' prefix now db q) -> connected m' = true).
Proof.
  intros Hm Hpre. split; [|split; [|split]].
  - intros x Hx. rewrite run_trace in Hx.
    apply elem_of_cons in Hx as [->|Hx]; [reflexivity|].
    by apply (loop_not_connected m (run_prefix (config m)) pre Hm Hpre).
  - unfold Mysql.run. rewrite bind_fst.
    by apply (loop_not_connected m (run_prefix (config m)) pre Hm Hpre).
  - destruct (loop_app m (run_prefix (config m)) pre post) as [tr Htr].
    exists tr. rewrite !run_trace, Htr. reflexivity.
  - intros m' prefix now db q x Hx.
    destruct (connected m') eqn:Hm'; [reflexivity|].
    rewrite (on_tick_skip m' prefix now db q Hm') in Hx.
    by apply elem_of_nil in Hx.
Qed.

(** C10: a tick while connected whose collection holds no metric ends
    with the debug message "No metrics" and the status "Ready" right
    after the queries, without a wait on the downstream channel and
    without a send; and no run ever sends an envelope whose list of
    metrics is empty. *)
Theorem empty_collection_is_not_delivered :
  (forall m prefix now db q,
     connected m = true ->
     Metrics (fst (collect (config m) db prefix (mkCollection (Unix now) [])))
       = [] ->
     snd (on_tick m prefix now db q) =
       [StatusUpdate "mysql" "Running"] ++
       snd (collect (config m) db prefix (mkCollection (Unix now) [])) ++
       [LogDebug "No metrics"; StatusUpdate "mysql" "Ready"] /\
     forall x, x ∈ snd (on_tick m prefix now db q) ->
               forall c d, x <> Send c /\ x <> Blocked d) /\
  (forall m events c, Send c ∈ snd (run m events) -> Metrics c <> []).
Proof.
  split.
  - intros m prefix now db q Hm He.
    assert (Htr : snd (on_tick m prefix now db q) =
       [StatusUpdate "mysql" "Running"] ++
       snd (collect (config m) db prefix (mkCollection (Unix now) [])) ++
       [LogDebug "No metrics"; StatusUpdate "mysql" "Ready"]).
    { rewrite (on_tick_trace m prefix now db q Hm). cbv zeta.
      by rewrite (send_metrics_empty _ q He). }
    split; [exact Htr|].
    intros x Hx c d. rewrite Htr in Hx.
    apply elem_of_app in Hx as [Hx|Hx];
      [apply list_elem_of_singleton in Hx; by subst x|].
    apply elem_of_app in Hx as [Hx|Hx].
    + apply collect_queries in Hx as [sql ->]. done.
    + apply elem_of_cons in Hx as [->|Hx]; [done|].
      apply list_elem_of_singleton in Hx. by subst x.
  - intros m events c H. rewrite run_trace in H.
    apply elem_of_cons in H as [H|H]; [discriminate H|].
    by apply loop_Send in H.
Qed.

End Facts.

(** ** The results at a sample run *)

Lemma ticks_before_connected_are_skipped_witness :
  connected (NewMonitor cfg1) = false /\
  forallb not_connected_event
    [Tick Pct.t2015 db1 stuck; Connected false; Tick Pct.t2015 db1 stuck]
    = true /\
  forall x,
    x ∈ snd (Mysql.run lower parse1 (NewMonitor cfg1)
               [Tick Pct.t2015 db1 stuck; Connected false;
                Tick Pct.t2015 db1 stuck]) ->
    collection_event x = false.
Proof.
  split; [reflexivity|]. split; [reflexivity|].
  apply (ticks_before_connected_are_skipped lower parse1 (NewMonitor cfg1)
           [Tick Pct.t2015 db1 stuck; Connected false;
            Tick Pct.t2015 db1 stuck] []); reflexivity.
Defined.

(** ** A sample run

    A tick before the connection is up is skipped; once connected, a tick
    gathers the one metric the configuration asks for and sends it; with a
    downstream channel that is stuck the envelope is lost after 500 ms and
    the next tick is served as usual; a tick that gathers nothing sends
    nothing. *)
Example sample_run :
  snd (Mysql.run lower parse1 (NewMonitor cfg1)
         [Tick Pct.t2015 db1 ready; Connected true;
          Tick Pct.t2015 db1 stuck; Tick (Pct.t2015 + Pct.Second) db1 ready;
          Tick (Pct.t2015 + 2 * Pct.Second) db_gone ready; Stop true]) =
  let metrics := [mkMetric "mysql/db1/threads_running" "gauge" 3%float ""] in
  [GoConnect;
   StatusUpdate "mysql" "Ready"; LogDebug "Connected";
   StatusUpdate "mysql" "Running"; Query "SHOW /*!50002 GLOBAL */ STATUS";
   Blocked 500000000;
   LogDebug "Lost MySQL metrics; timeout spooling after 500ms";
   StatusUpdate "mysql" "Ready";
   StatusUpdate "mysql" "Running"; Query "SHOW /*!50002 GLOBAL */ STATUS";
   Blocked 0; Send (mkCollection 1420070401 metrics);
   StatusUpdate "mysql" "Ready";
   StatusUpdate "mysql" "Running"; Query "SHOW /*!50002 GLOBAL */ STATUS";
   LogDebug "No metrics";
   StatusUpdate "mysql" "Ready";
   ConnClose; StatusUpdate "mysql" "Stopped"; SyncDone].
Proof. vm_compute. reflexivity. Qed.

(** ** Further facts *)

Section MoreFacts.

Variable ToLower : string -> string.
Variable ParseFloat : string -> float + error.

Abbreviation collect' := (Mysql.collect ToLower ParseFloat).
Abbreviation on_tick' := (Mysql.on_tick ToLower ParseFloat).
Abbreviation loop' := (Mysql.loop ToLower ParseFloat).
Abbreviation run' := (Mysql.run ToLower ParseFloat).

(** *** The getters, row by row *)

Lemma string_app_assoc (a b c : string) :
  ((a +:+ b) +:+ c = a +:+ (b +:+ c))%string.
Proof.
  induction a as [|x a IH]; [reflexivity|].
  change (String x ((a +:+ b) +:+ c) = String x (a +:+ (b +:+ c)))%string.
  by rewrite IH.
Qed.

Lemma grows_foldl {R : Type} (f : Collection -> R -> Collection)
    (g : R -> list Metric) (rows : list R) (c : Collection) :
  (forall c r, grows c (f c r) (g r)) ->
  grows c (foldl f c rows) (rows ≫= g).
Proof.
  intros Hf. revert c. induction rows as [|r rows IH]; intros c.
  - split; [reflexivity|]. cbn. by rewrite app_nil_r.
  - cbn [foldl]. destruct (IH (f c r)) as [H1 H2]. destruct (Hf c r) as [H3 H4].
    split; [congruence|]. rewrite H2, H4. cbn. by rewrite <- app_assoc.
Qed.

Lemma show_status_row_grows (cfg : Config) (prefix : string)
    (c : Collection) (row : string * string) :
  grows c (show_status_row ToLower ParseFloat cfg prefix c row)
    (option_list (status_metric ToLower ParseFloat cfg prefix row)).
Proof.
  unfold show_status_row, status_metric. destruct row as [n v]. cbn [fst snd].
  destruct (Status cfg !! ToLower n); cbn.
  - done.
  - split; [reflexivity|]. by rewrite app_nil_r.
Qed.

Lemma innodb_row_grows (prefix : string) (c : Collection)
    (row : string * string * string * string) :
  grows c (innodb_row ToLower ParseFloat prefix c row)
    [innodb_metric ToLower ParseFloat prefix row].
Proof. by destruct row as [[[n sub] cnt] ty]. Qed.

Lemma table_row_grows (prefix : string) (c : Collection)
    (row : string * string * Z * Z * Z) :
  grows c (table_row prefix c row) (table_metrics prefix row).
Proof.
  destruct row as [[[[sch tab] r] ch] chi]. split; [reflexivity|].
  cbn. by rewrite <- !app_assoc.
Qed.

Lemma index_row_grows (prefix : string) (c : Collection)
    (row : string * string * string * Z) :
  grows c (index_row prefix c row) [index_metric prefix row].
Proof. by destruct row as [[[sch tab] idx] r]. Qed.

Lemma bind_option_list {A B : Type} (f : A -> option B) (l : list A) :
  l ≫= (fun x => option_list (f x)) = omap f l.
Proof.
  induction l as [|x l IH]; [reflexivity|].
  cbn. rewrite IH. by destruct (f x).
Qed.

Lemma bind_singleton {A B : Type} (f : A -> B) (l : list A) :
  l ≫= (fun x => [f x]) = map f l.
Proof.
  induction l as [|x l IH]; [reflexivity|]. cbn. by rewrite IH.
Qed.

Lemma grows_refl (c : Collection) : grows c c [].
Proof. split; [reflexivity|]. by rewrite app_nil_r. Qed.

Lemma grows_trans (c1 c2 c3 : Collection) (n1 n2 : list Metric) :
  grows c1 c2 n1 -> grows c2 c3 n2 -> grows c1 c3 (n1 ++ n2).
Proof.
  intros [H1 H2] [H3 H4]. split; [congruence|].
  rewrite H4, H2. by rewrite <- app_assoc.
Qed.

(** *** The getters, query by query *)

Lemma GetShowStatusMetrics_grows (cfg : Config) (db : DB) (prefix : string)
    (c : Collection) :
  grows c (fst (fst (GetShowStatusMetrics ToLower ParseFloat cfg db prefix c)))
    (omap (status_metric ToLower ParseFloat cfg prefix)
       (rows_of (show_status db))).
Proof.
  unfold GetShowStatusMetrics. rewrite bind_fst. cbn [emit fst].
  destruct (show_status db) as [e|rows stop]; cbn [ret fst rows_of omap].
  - apply grows_refl.
  - rewrite <- bind_option_list. apply grows_foldl.
    intros c0 r. apply show_status_row_grows.
Qed.

Lemma GetInnoDBMetrics_grows (db : DB) (prefix : string) (c : Collection) :
  grows c (fst (fst (GetInnoDBMetrics ToLower ParseFloat db prefix c)))
    (map (innodb_metric ToLower ParseFloat prefix)
       (rows_of (innodb_metrics db))).
Proof.
  unfold GetInnoDBMetrics. rewrite bind_fst. cbn [emit fst].
  destruct (innodb_metrics db) as [e|rows stop]; cbn [ret fst rows_of map].
  - apply grows_refl.
  - rewrite <- bind_singleton. apply grows_foldl.
    intros c0 r. apply innodb_row_grows.
Qed.

Lemma getTableUserStats_grows (db : DB) (prefix : string) (c : Collection)
    (ignoreDb : string) :
  grows c (fst (fst (getTableUserStats db prefix c ignoreDb)))
    (rows_of (table_statistics db) ≫= table_metrics prefix).
Proof.
  unfold getTableUserStats. rewrite bind_fst. cbn [emit fst].
  destruct (table_statistics db) as [e|rows stop]; cbn [ret fst rows_of].
  - apply grows_refl.
  - apply grows_foldl. intros c0 r. apply table_row_grows.
Qed.

Lemma getIndexUserStats_grows (db : DB) (prefix : string) (c : Collection)
    (ignoreDb : string) :
  grows c (fst (fst (getIndexUserStats db prefix c ignoreDb)))
    (map (index_metric prefix) (rows_of (index_statistics db))).
Proof.
  unfold getIndexUserStats. rewrite bind_fst. cbn [emit fst].
  destruct (index_statistics db) as [e|rows stop]; cbn [ret fst rows_of map].
  - apply grows_refl.
  - rewrite <- bind_singleton. apply grows_foldl.
    intros c0 r. apply index_row_grows.
Qed.

(** *** A collection in closed form *)

Lemma collect_grows (cfg : Config) (db : DB) (prefix : string)
    (c : Collection) :
  grows c (fst (collect' cfg db prefix c))
    (gathered ToLower ParseFloat cfg db prefix).
Proof.
  unfold Mysql.collect, gathered. rewrite !bind_fst.
  pose proof (GetShowStatusMetrics_grows cfg db prefix c) as H1.
  set (c1 := fst (fst (GetShowStatusMetrics ToLower ParseFloat cfg db prefix c)))
    in *.
  eapply grows_trans; [exact H1|].
  destruct (bool_decide (InnoDB cfg = "")).
  - cbn [ret fst app].
    destruct (UserStats cfg); [|apply grows_refl].
    rewrite !bind_fst. cbn [ret fst].
    eapply grows_trans; [apply getTableUserStats_grows|].
    apply getIndexUserStats_grows.
  - rewrite bind_fst. cbn [ret fst].
    pose proof (GetInnoDBMetrics_grows db prefix c1) as H2.
    set (c2 := fst (fst (GetInnoDBMetrics ToLower ParseFloat db prefix c1))) in *.
    eapply grows_trans; [exact H2|].
    destruct (UserStats cfg); [|apply grows_refl].
    rewrite !bind_fst. cbn [ret fst].
    eapply grows_trans; [apply getTableUserStats_grows|].
    apply getIndexUserStats_grows.
Qed.

Lemma GetInnoDBMetrics_query (db : DB) (prefix : string) (c : Collection) :
  snd (GetInnoDBMetrics ToLower ParseFloat db prefix c) =
    [Query "SELECT NAME, SUBSYSTEM, COUNT, TYPE FROM INFORMATION_SCHEMA.INNODB_METRICS WHERE STATUS='enabled'"].
Proof.
  unfold GetInnoDBMetrics. rewrite bind_snd. by destruct (innodb_metrics db).
Qed.

Lemma getTableUserStats_query (db : DB) (prefix : string) (c : Collection)
    (ignoreDb : string) :
  snd (getTableUserStats db prefix c ignoreDb) =
    [Query ("SELECT TABLE_SCHEMA, TABLE_NAME, ROWS_READ, ROWS_CHANGED, ROWS_CHANGED_X_INDEXES FROM INFORMATION_SCHEMA.TABLE_STATISTICS" +:+
            where_clause ignoreDb)].
Proof.
  unfold getTableUserStats, where_clause. rewrite bind_snd. cbn [emit snd].
  destruct (table_statistics db); cbn [ret snd app];
    destruct (bool_decide (ignoreDb = "")); reflexivity.
Qed.

Lemma getIndexUserStats_query (db : DB) (prefix : string) (c : Collection)
    (ignoreDb : string) :
  snd (getIndexUserStats db prefix c ignoreDb) =
    [Query ("SELECT TABLE_SCHEMA, TABLE_NAME, INDEX_NAME, ROWS_READ FROM INFORMATION_SCHEMA.INDEX_STATISTICS" +:+
            where_clause ignoreDb)].
Proof.
  unfold getIndexUserStats, where_clause. rewrite bind_snd. cbn [emit snd].
  destruct (index_statistics db); cbn [ret snd app];
    destruct (bool_decide (ignoreDb = "")); reflexivity.
Qed.

(** Gathering a collection keeps its timestamp and the metrics it held
    and adds, in this order: one metric for every scanned status row whose
    lower-cased name is configured, of the configured type; when InnoDB
    metrics are configured, one for every scanned row of them; when user
    statistics are configured, three counters for every scanned table row
    and one for every scanned index row.  A query that fails adds
    nothing and does not keep the later ones from adding theirs. *)
Theorem collect_closed_form (cfg : Config) (db : DB) (prefix : string)
    (c : Collection) :
  Ts (fst (collect' cfg db prefix c)) = Ts c /\
  Metrics (fst (collect' cfg db prefix c)) =
    Metrics c ++ gathered ToLower ParseFloat cfg db prefix.
Proof. apply collect_grows. Qed.

Lemma collect_asks_configured_queries_aux (cfg : Config) (db : DB)
    (prefix : string) (c : Collection) :
  snd (collect' cfg db prefix c) = queries cfg.
Proof.
  unfold Mysql.collect, queries. rewrite !bind_snd.
  rewrite GetShowStatusMetrics_trace. cbn [app]. f_equal.
  assert (Hu : forall c0,
    snd (if UserStats cfg
         then bind (getTableUserStats db prefix c0 (UserStatsIgnoreDb cfg))
                (fun r => bind (getIndexUserStats db prefix (fst r)
                                  (UserStatsIgnoreDb cfg))
                            (fun r0 => ret (fst r0)))
         else ret c0) =
    (if UserStats cfg
     then [Query ("SELECT TABLE_SCHEMA, TABLE_NAME, ROWS_READ, ROWS_CHANGED, ROWS_CHANGED_X_INDEXES FROM INFORMATION_SCHEMA.TABLE_STATISTICS" +:+
                  where_clause (UserStatsIgnoreDb cfg));
           Query ("SELECT TABLE_SCHEMA, TABLE_NAME, INDEX_NAME, ROWS_READ FROM INFORMATION_SCHEMA.INDEX_STATISTICS" +:+
                  where_clause (UserStatsIgnoreDb cfg))]
     else [])).
  { intros c0. destruct (UserStats cfg); [|reflexivity].
    rewrite !bind_snd, getTableUserStats_query, getIndexUserStats_query.
    reflexivity. }
  rewrite Hu.
  destruct (bool_decide (InnoDB cfg = "")); [reflexivity|].
  rewrite bind_snd, GetInnoDBMetrics_query. reflexivity.
Qed.

(** The queries of a tick are fixed by the configuration: whatever the
    database answers, and whichever of them fail, a tick asks the same
    queries in the same order. *)
Theorem collect_asks_configured_queries (cfg : Config) (db : DB)
    (prefix : string) (c : Collection) :
  snd (collect' cfg db prefix c) = queries cfg.
Proof. apply collect_asks_configured_queries_aux. Qed.

Lemma gathered_under (cfg : Config) (db : DB) (prefix : string) :
  Forall (named_under prefix) (gathered ToLower ParseFloat cfg db prefix).
Proof.
  unfold gathered. rewrite !Forall_app. split; [|split].
  - apply Forall_forall. intros x Hx.
    apply list_elem_of_omap in Hx as [[n v] [_ Hx]].
    unfold status_metric in Hx. cbn [fst snd] in Hx.
    destruct (Status cfg !! ToLower n); [|done].
    apply (inj Some) in Hx. subst x. by eexists.
  - destruct (bool_decide (InnoDB cfg = "")); [constructor|].
    apply Forall_forall. intros x Hx.
    apply list_elem_of_fmap in Hx as [[[[n sub] cnt] ty] [-> _]].
    by exists ("innodb/" +:+ ToLower sub +:+ "/" +:+ ToLower n)%string.
  - destruct (UserStats cfg); [|constructor].
    rewrite Forall_app. split.
    + apply Forall_forall. intros x Hx.
      apply list_elem_of_bind in Hx as [[[[[sch tab] r] ch] chi] [Hx _]].
      cbn in Hx.
      apply elem_of_cons in Hx as [->|Hx];
        [|apply elem_of_cons in Hx as [->|Hx];
          [|apply list_elem_of_singleton in Hx; subst x]];
        unfold named_under; cbn [Name]; rewrite string_app_assoc;
        eexists; reflexivity.
    + apply Forall_forall. intros x Hx.
      apply list_elem_of_fmap in Hx as [[[[sch tab] idx] r] [-> _]].
      by exists ("db." +:+ sch +:+ "/t." +:+ tab +:+ "/idx." +:+ idx +:+
                 "/rows_read")%string.
Qed.

(** *** What a run sends *)

Lemma loop_Send_tick (m : Monitor) (prefix : string)
    (events : list LoopEvent) (c : Collection) :
  Send c ∈ snd (loop' m prefix events) ->
  exists now db q,
    Tick now db q ∈ events /\
    c = fst (collect' (config m) db prefix (mkCollection (Unix now) [])).
Proof.
  revert m. induction events as [|e rest IH]; intros m H.
  - by apply elem_of_nil in H.
  - destruct e as [now db q|b|cs].
    + destruct (loop_Tick ToLower ParseFloat m prefix now db q rest) as [_ Htr].
      rewrite Htr in H. apply elem_of_app in H as [H|H].
      * apply on_tick_Send in H as (_ & Hc & _ & _).
        exists now, db, q. split; [left|exact Hc].
      * destruct (IH m H) as (now' & db' & q' & Hin & Hc).
        exists now', db', q'. split; [by right|exact Hc].
    + destruct (loop_Connected ToLower ParseFloat m prefix b rest) as [_ Htr].
      rewrite Htr in H. apply elem_of_app in H as [H|H].
      * destruct b;
          (apply elem_of_cons in H as [H|H]; [discriminate H|]);
          apply list_elem_of_singleton in H; discriminate H.
      * destruct (IH (set_connected m b) H) as (now' & db' & q' & Hin & Hc).
        exists now', db', q'. split; [by right|exact Hc].
    + rewrite loop_Stop in H. cbn [snd] in H.
      apply elem_of_app in H as [H|H].
      * destruct cs; [apply list_elem_of_singleton in H; discriminate H|].
        by apply elem_of_nil in H.
      * apply elem_of_cons in H as [H|H]; [discriminate H|].
        apply list_elem_of_singleton in H. discriminate H.
Qed.

(** Every envelope a run sends was gathered on one of its ticks: it
    carries the Unix time of that tick and exactly the metrics the
    database answered then, none of them empty-handed and all of them
    named under the prefix of the monitor. *)
Theorem sent_envelope_is_of_a_tick (m : Monitor) (events : list LoopEvent)
    (c : Collection) :
  Send c ∈ snd (run' m events) ->
  exists now db q,
    Tick now db q ∈ events /\
    Ts c = Unix now /\
    Metrics c =
      gathered ToLower ParseFloat (config m) db (run_prefix (config m)) /\
    Metrics c <> [] /\
    Forall (named_under (run_prefix (config m))) (Metrics c).
Proof.
  intros H. rewrite run_trace in H.
  apply elem_of_cons in H as [H|H]; [discriminate H|].
  pose proof (loop_Send ToLower ParseFloat _ _ _ _ H) as Hne.
  apply loop_Send_tick in H as (now & db & q & Hin & Hc).
  exists now, db, q. split; [exact Hin|].
  destruct (collect_grows (config m) db (run_prefix (config m))
              (mkCollection (Unix now) [])) as [H1 H2].
  rewrite <- Hc in H1, H2. cbn in H1, H2.
  split; [exact H1|]. split; [exact H2|]. split; [exact Hne|].
  rewrite H2. apply gathered_under.
Qed.

(** *** What a run leaves behind *)

Lemma loop_result (m : Monitor) (prefix : string) (events : list LoopEvent) :
  connected (fst (fst (loop' m prefix events)))
    = flag_after (connected m) events /\
  config (fst (fst (loop' m prefix events))) = config m /\
  snd (fst (loop' m prefix events)) = existsb is_Stop events.
Proof.
  revert m. induction events as [|e rest IH]; intros m; [done|].
  destruct e as [now db q|b|cs]; cbn [flag_after existsb is_Stop orb].
  - destruct (loop_Tick ToLower ParseFloat m prefix now db q rest) as [-> _].
    apply IH.
  - destruct (loop_Connected ToLower ParseFloat m prefix b rest) as [-> _].
    apply (IH (set_connected m b)).
  - by rewrite loop_Stop.
Qed.

Lemma loop_after_Stop (m : Monitor) (prefix : string)
    (pre post : list LoopEvent) (b : bool) :
  loop' m prefix (pre ++ Stop b :: post) = loop' m prefix (pre ++ [Stop b]).
Proof.
  apply injective_projections; revert m;
    (induction pre as [|e pre IH]; intros m;
     [cbn [app]; by rewrite !loop_Stop|]);
    rewrite <- !app_comm_cons; destruct e as [now db q|c|cs].
  - destruct (loop_Tick ToLower ParseFloat m prefix now db q
                (pre ++ Stop b :: post)) as [-> _].
    destruct (loop_Tick ToLower ParseFloat m prefix now db q
                (pre ++ [Stop b])) as [-> _]. apply IH.
  - destruct (loop_Connected ToLower ParseFloat m prefix c
                (pre ++ Stop b :: post)) as [-> _].
    destruct (loop_Connected ToLower ParseFloat m prefix c
                (pre ++ [Stop b])) as [-> _]. apply IH.
  - by rewrite !loop_Stop.
  - destruct (loop_Tick ToLower ParseFloat m prefix now db q
                (pre ++ Stop b :: post)) as [_ ->].
    destruct (loop_Tick ToLower ParseFloat m prefix now db q
                (pre ++ [Stop b])) as [_ ->]. by rewrite IH.
  - destruct (loop_Connected ToLower ParseFloat m prefix c
                (pre ++ Stop b :: post)) as [_ ->].
    destruct (loop_Connected ToLower ParseFloat m prefix c
                (pre ++ [Stop b])) as [_ ->]. by rewrite IH.
  - by rewrite !loop_Stop.
Qed.

Lemma loop_ends_Stopped (m : Monitor) (prefix : string)
    (events : list LoopEvent) :
  existsb is_Stop events = true ->
  exists tr, snd (loop' m prefix events) =
             tr ++ [StatusUpdate "mysql" "Stopped"; SyncDone].
Proof.
  revert m. induction events as [|e rest IH]; intros m H; [discriminate H|].
  destruct e as [now db q|b|cs]; cbn [existsb is_Stop orb] in H.
  - destruct (loop_Tick ToLower ParseFloat m prefix now db q rest) as [_ ->].
    destruct (IH m H) as [tr ->]. eexists. by rewrite app_assoc.
  - destruct (loop_Connected ToLower ParseFloat m prefix b rest) as [_ ->].
    destruct (IH (set_connected m b) H) as [tr ->]. eexists.
    by rewrite app_assoc.
  - rewrite loop_Stop. cbn [snd]. by eexists.
Qed.

(** A run returns exactly when a stop event arrives; it looks at nothing
    after the first one and ends with the status "Stopped" and the done
    signal; the configuration is never changed. *)
Theorem run_stops_at_first_Stop (m : Monitor) (events : list LoopEvent) :
  snd (fst (run' m events)) = existsb is_Stop events /\
  config (fst (fst (run' m events))) = config m /\
  (existsb is_Stop events = true ->
   exists tr, snd (run' m events) =
              tr ++ [StatusUpdate "mysql" "Stopped"; SyncDone]) /\
  (forall pre b post,
     events = pre ++ Stop b :: post ->
     run' m events = run' m (pre ++ [Stop b])).
Proof.
  unfold Mysql.run.
  destruct (loop_result m (run_prefix (config m)) events) as (_ & H2 & H3).
  split; [by rewrite bind_fst|]. split; [by rewrite bind_fst|]. split.
  - intros H. rewrite bind_snd. cbn [emit snd].
    destruct (loop_ends_Stopped m (run_prefix (config m)) events H) as [tr ->].
    exists (GoConnect :: tr). reflexivity.
  - intros pre b post ->. by rewrite loop_after_Stop.
Qed.

Lemma on_tick_served (m : Monitor) (prefix : string) (now : Pct.Time)
    (db : DB) (q : Downstream) :
  connected m = true ->
  exists tr, snd (on_tick' m prefix now db q) =
    StatusUpdate "mysql" "Running" :: queries (config m) ++ tr.
Proof.
  intros H. rewrite (on_tick_trace ToLower ParseFloat m prefix now db q H).
  cbv zeta. rewrite collect_asks_configured_queries_aux. by eexists.
Qed.

(** The connected flag a run ends with is that of the last connectivity
    event before the stop, or the one it started with; and the flag is
    all that decides whether a tick is served.  So a run that starts with
    the flag set, as after an earlier run that ended connected, serves
    its first tick at once, without any connected event of its own. *)
Theorem run_starts_with_the_flag_it_finds (m : Monitor)
    (events : list LoopEvent) (cfg : Config) (now : Pct.Time) (db : DB)
    (q : Downstream) (rest : list LoopEvent) :
  let m1 := fst (fst (run' m events)) in
  connected m1 = flag_after (connected m) events /\
  (flag_after (connected m) events = true ->
   exists tr,
     snd (run' (mkMonitor cfg (connected m1)) (Tick now db q :: rest)) =
       [GoConnect; StatusUpdate "mysql" "Running"] ++ queries cfg ++ tr).
Proof.
  intros m1.
  assert (Hf : connected m1 = flag_after (connected m) events).
  { unfold m1, Mysql.run. rewrite bind_fst.
    apply (loop_result m (run_prefix (config m)) events). }
  split; [exact Hf|]. intros Ht. rewrite Hf, Ht.
  rewrite run_trace.
  destruct (loop_Tick ToLower ParseFloat (mkMonitor cfg true)
              (run_prefix (config (mkMonitor cfg true))) now db q rest)
    as [_ ->].
  destruct (on_tick_served (mkMonitor cfg true)
              (run_prefix (config (mkMonitor cfg true))) now db q eq_refl)
    as [tr ->].
  eexists. cbn [app config]. rewrite <- app_assoc. reflexivity.
Qed.

Lemma count_GoConnect_app (tr1 tr2 : list Event) :
  length (List.filter is_GoConnect (tr1 ++ tr2)) =
  (length (List.filter is_GoConnect tr1) +
   length (List.filter is_GoConnect tr2))%nat.
Proof. by rewrite List.filter_app, length_app. Qed.

Lemma on_tick_no_GoConnect (m : Monitor) (prefix : string) (now : Pct.Time)
    (db : DB) (q : Downstream) :
  List.filter is_GoConnect (snd (on_tick' m prefix now db q)) = [].
Proof.
  destruct (connected m) eqn:Hm;
    [|by rewrite (on_tick_skip ToLower ParseFloat m prefix now db q Hm)].
  rewrite (on_tick_trace ToLower ParseFloat m prefix now db q Hm). cbv zeta.
  rewrite collect_asks_configured_queries_aux.
  rewrite !List.filter_app.
  assert (Hq : List.filter is_GoConnect (queries (config m)) = []).
  { unfold queries. rewrite !List.filter_app.
    destruct (bool_decide (InnoDB (config m) = "")), (UserStats (config m));
      reflexivity. }
  rewrite Hq. unfold send_metrics.
  destruct (0 <? Z.of_nat (length (Metrics _))); [|reflexivity].
  by destruct (select_send delivery_timeout q) as [[|] w].
Qed.

(** A run starts the connector once at its start and once more for every
    "disconnected" event it receives before the stop, and at no other
    time. *)
Theorem run_starts_connector_per_disconnect (m : Monitor)
    (events : list LoopEvent) :
  length (List.filter is_GoConnect (snd (run' m events))) =
    S (disconnects events).
Proof.
  rewrite run_trace. cbn [List.filter is_GoConnect length]. f_equal.
  generalize (run_prefix (config m)). intros prefix.
  revert m. induction events as [|e rest IH]; intros m; [reflexivity|].
  destruct e as [now db q|b|cs]; cbn [disconnects].
  - destruct (loop_Tick ToLower ParseFloat m prefix now db q rest) as [_ ->].
    rewrite count_GoConnect_app, on_tick_no_GoConnect. apply IH.
  - destruct (loop_Connected ToLower ParseFloat m prefix b rest) as [_ ->].
    rewrite count_GoConnect_app, IH. by destruct b.
  - rewrite loop_Stop. by destruct cs.
Qed.

End MoreFacts.

(** ** Start and stop *)

Section LifecycleFacts.

Variable Unmarshal : string -> Config + error.

(** Whatever the calls of [Start] and [Stop] and whatever the
    configurations handed in, run loops are started and waited for in
    turns: [Start] never starts a loop while one is running, [Stop] never
    waits for a loop that was not started, and the monitor counts as
    running exactly between the two.  Neither touches the connected
    flag. *)
Theorem loops_start_and_stop_in_turns (s : Lifecycle.Service)
    (ks : list Lifecycle.ServiceCall) :
  let r := Lifecycle.service_calls Unmarshal s ks in
  Lifecycle.in_turns (Lifecycle.running s) (snd r) = true /\
  Lifecycle.in_turns (Lifecycle.running s) (snd r ++ [Lifecycle.GoRun])
    = negb (Lifecycle.running (fst r)) /\
  Lifecycle.svc_connected (fst r) = Lifecycle.svc_connected s.
Proof.
  intros r. subst r. revert s.
  induction ks as [|k ks IH]; intros s.
  - cbn. unfold Lifecycle.running.
    by destruct (Lifecycle.svc_config s).
  - cbn [Lifecycle.service_calls].
    destruct k as [config|]; cbn [Lifecycle.service_call];
      unfold Lifecycle.Start, Lifecycle.Stop, Lifecycle.running at 1 2;
      destruct (Lifecycle.svc_config s) as [c|] eqn:Hs.
    + specialize (IH s).
      destruct (Lifecycle.service_calls Unmarshal s ks) as [s2 tr].
      cbn [fst snd app] in *. unfold Lifecycle.running in IH at 1 2.
      rewrite Hs in IH. exact IH.
    + destruct (Unmarshal config) as [c|err].
      * specialize (IH (Lifecycle.mkService (Some c)
                          (Lifecycle.svc_connected s))).
        destruct (Lifecycle.service_calls Unmarshal _ ks) as [s2 tr].
        cbn [fst snd app Lifecycle.in_turns negb andb] in *. exact IH.
      * specialize (IH s).
        destruct (Lifecycle.service_calls Unmarshal s ks) as [s2 tr].
        cbn [fst snd app] in *. unfold Lifecycle.running in IH at 1 2.
        rewrite Hs in IH. exact IH.
    + specialize (IH (Lifecycle.mkService None (Lifecycle.svc_connected s))).
      destruct (Lifecycle.service_calls Unmarshal _ ks) as [s2 tr].
      cbn [fst snd app Lifecycle.in_turns negb andb] in *. exact IH.
    + specialize (IH s).
      destruct (Lifecycle.service_calls Unmarshal s ks) as [s2 tr].
      cbn [fst snd app] in *. unfold Lifecycle.running in IH at 1 2.
      rewrite Hs in IH. exact IH.
Qed.

End LifecycleFacts.

(** The envelope of the sample run is that of its tick. *)
Lemma sent_envelope_is_of_a_tick_witness :
  let m := set_connected (NewMonitor cfg1) true in
  let events := [Tick Pct.t2015 db1 ready; Stop true] in
  let c := mkCollection 1420070400
             [mkMetric "mysql/db1/threads_running" "gauge" 3%float ""] in
  Send c ∈ snd (Mysql.run lower parse1 m events) /\
  exists now db q,
    Tick now db q ∈ events /\
    Ts c = Unix now /\
    Metrics c = gathered lower parse1 (config m) db (run_prefix (config m)) /\
    Metrics c <> [] /\
    Forall (named_under (run_prefix (config m))) (Metrics c).
Proof.
  assert (H : Send (mkCollection 1420070400
                [mkMetric "mysql/db1/threads_running" "gauge" 3%float ""])
              ∈ snd (Mysql.run lower parse1
                       (set_connected (NewMonitor cfg1) true)
                       [Tick Pct.t2015 db1 ready; Stop true])).
  { vm_compute. do 4 right. left. }
  split; [exact H|].
  exact (sent_envelope_is_of_a_tick lower parse1 _ _ _ H).
Defined.

(** ** The connector *)

Section ConnectFacts.

Variable Duration_String : Pct.Duration -> string.

Abbreviation connect_loop' := (Mysql.connect_loop Duration_String).
Abbreviation connect' := (Mysql.connect Duration_String).
Abbreviation iteration_start := (Mysql.iteration_start Duration_String).

Lemma connect_loop_set (cfg : Config) (st : Connector) (tries : list Try)
    (db : nat) :
  conn st = Some db -> connect_loop' cfg st tries = (st, []).
Proof. intros H. destruct tries; cbn [Mysql.connect_loop]; by rewrite H. Qed.

Lemma connect_unset (cfg : Config) (st : Connector) (tries : list Try) :
  conn st = None -> connect' cfg st tries = connect_loop' cfg st tries.
Proof.
  intros H. unfold Mysql.connect. rewrite H.
  by destruct (connect_loop' cfg st tries).
Qed.

Lemma connect_loop_nil (cfg : Config) (st : Connector) :
  connect_loop' cfg st [] = (st, []).
Proof. cbn. by destruct (conn st). Qed.

Lemma connect_loop_OpenFails (cfg : Config) (st : Connector) (t : Try)
    (rest : list Try) (err : error) :
  conn st = None -> try_attempt t = OpenFails err ->
  let w := Pct.Wait (backoff st) (try_rnd t) in
  let r := connect_loop' cfg (mkConnector None (fst w) (opened st)) rest in
  connect_loop' cfg st (t :: rest) =
    (fst r, iteration_start cfg (snd w) ++ [CLogError "sql.Open: " err] ++
            snd r).
Proof.
  intros H Ht w r. cbn [Mysql.connect_loop]. rewrite H, Ht.
  subst r w. destruct (Pct.Wait (backoff st) (try_rnd t)) as [b wait].
  cbn [fst snd]. by destruct (connect_loop' cfg _ rest).
Qed.

Lemma connect_loop_PingFails (cfg : Config) (st : Connector) (t : Try)
    (rest : list Try) (err : error) :
  conn st = None -> try_attempt t = PingFails err ->
  let w := Pct.Wait (backoff st) (try_rnd t) in
  let r := connect_loop' cfg (mkConnector None (fst w) (S (opened st))) rest in
  connect_loop' cfg st (t :: rest) =
    (fst r, iteration_start cfg (snd w) ++
            [CPing (opened st); CLogWarn "db.Ping: " err;
             CClose (opened st)] ++ snd r).
Proof.
  intros H Ht w r. cbn [Mysql.connect_loop]. rewrite H, Ht.
  subst r w. destruct (Pct.Wait (backoff st) (try_rnd t)) as [b wait].
  cbn [fst snd]. by destruct (connect_loop' cfg _ rest).
Qed.

Lemma connect_loop_Connects (cfg : Config) (st : Connector) (t : Try)
    (rest : list Try) (innodb userstat : option error) :
  conn st = None -> try_attempt t = Connects innodb userstat ->
  let w := Pct.Wait (backoff st) (try_rnd t) in
  connect_loop' cfg st (t :: rest) =
    (mkConnector (Some (opened st))
       (Pct.Success (fst w) (try_nowFunc t) (try_now t)) (S (opened st)),
     iteration_start cfg (snd w) ++ [CPing (opened st)] ++
     setup cfg (opened st) innodb userstat ++
     [CStatus "Connected"; CConnected true]).
Proof.
  intros H Ht w. cbn [Mysql.connect_loop]. rewrite H, Ht.
  subst w. destruct (Pct.Wait (backoff st) (try_rnd t)) as [b wait].
  cbn [fst snd].
  rewrite (connect_loop_set cfg _ rest (opened st)) by reflexivity.
  by rewrite !app_nil_r.
Qed.

Lemma sleeps_iteration_start (cfg : Config) (wait : Pct.Duration)
    (tr : list ConnEvent) :
  sleeps (iteration_start cfg wait ++ tr) = wait :: sleeps tr.
Proof. reflexivity. Qed.

Lemma sleeps_setup (cfg : Config) (db : nat) (innodb userstat : option error) :
  sleeps (setup cfg db innodb userstat) = [].
Proof.
  unfold setup, sleeps. rewrite omap_app.
  destruct (bool_decide (InnoDB cfg = "")), (UserStats cfg), innodb, userstat;
    reflexivity.
Qed.

Lemma pinged_setup (cfg : Config) (db : nat) (innodb userstat : option error) :
  pinged (setup cfg db innodb userstat) = [].
Proof.
  unfold setup, pinged. rewrite omap_app.
  destruct (bool_decide (InnoDB cfg = "")), (UserStats cfg), innodb, userstat;
    reflexivity.
Qed.

Lemma closed_setup (cfg : Config) (db : nat) (innodb userstat : option error) :
  closed (setup cfg db innodb userstat) = [].
Proof.
  unfold setup, closed. rewrite omap_app.
  destruct (bool_decide (InnoDB cfg = "")), (UserStats cfg), innodb, userstat;
    reflexivity.
Qed.

Lemma signals_setup (cfg : Config) (db : nat) (innodb userstat : option error) :
  List.filter is_CConnected (setup cfg db innodb userstat) = [].
Proof.
  unfold setup. rewrite List.filter_app.
  destruct (bool_decide (InnoDB cfg = "")), (UserStats cfg), innodb, userstat;
    reflexivity.
Qed.

(** [connect] on a monitor whose connection field is set closes that
    connection and returns: the field is not cleared, so the loop does
    not run.  No connection is opened, no wait is made, and no connected
    signal is sent; the monitor keeps the handle it has just closed. *)
Theorem connect_with_connection_only_closes (cfg : Config) (st : Connector)
    (tries : list Try) (db : nat) :
  conn st = Some db ->
  connect' cfg st tries = (st, [CClose db]).
Proof.
  intros H. unfold Mysql.connect.
  rewrite (connect_loop_set cfg st tries db H), H. reflexivity.
Qed.

(** Between two attempts [connect] sleeps what the backoff says: the
    sleeps of a call that starts without a connection are the waits of
    its backoff, one for every attempt up to the first that connects. *)
Theorem connect_sleeps_backoff_waits (cfg : Config) (st : Connector)
    (tries : list Try) :
  conn st = None ->
  sleeps (snd (connect' cfg st tries)) =
    snd (Pct.Waits (backoff st) (map try_rnd (attempted tries))).
Proof.
  intros H. rewrite (connect_unset cfg st tries H).
  revert st H. induction tries as [|t rest IH]; intros st H.
  - by rewrite connect_loop_nil.
  - cbn [attempted is_Connects].
    destruct (try_attempt t) as [err|err|innodb userstat] eqn:Ht;
      unfold is_Connects; rewrite Ht.
    + rewrite (connect_loop_OpenFails cfg st t rest err H Ht). cbn [snd].
      rewrite sleeps_iteration_start. cbn [map Pct.Waits].
      destruct (Pct.Wait (backoff st) (try_rnd t)) as [b wait] eqn:Hw.
      cbn [fst snd].
      specialize (IH (mkConnector None b (opened st)) eq_refl).
      cbn [backoff] in IH.
      destruct (Pct.Waits b (map try_rnd (attempted rest))) as [b2 ds].
      cbn [snd] in *. f_equal. exact IH.
    + rewrite (connect_loop_PingFails cfg st t rest err H Ht). cbn [snd].
      rewrite sleeps_iteration_start. cbn [map Pct.Waits].
      destruct (Pct.Wait (backoff st) (try_rnd t)) as [b wait] eqn:Hw.
      cbn [fst snd].
      specialize (IH (mkConnector None b (S (opened st))) eq_refl).
      cbn [backoff] in IH.
      destruct (Pct.Waits b (map try_rnd (attempted rest))) as [b2 ds].
      cbn [snd] in *. f_equal. exact IH.
    + rewrite (connect_loop_Connects cfg st t rest innodb userstat H Ht).
      cbn [snd]. rewrite sleeps_iteration_start. cbn [map Pct.Waits].
      destruct (Pct.Wait (backoff st) (try_rnd t)) as [b wait].
      cbn [fst snd]. f_equal.
      change (sleeps ([CPing (opened st)] ++
                      setup cfg (opened st) innodb userstat ++
                      [CStatus "Connected"; CConnected true]) = []).
      unfold sleeps. rewrite !omap_app. fold (sleeps (setup cfg (opened st) innodb userstat)).
      by rewrite sleeps_setup.
Qed.

Lemma connect_loop_handles (cfg : Config) (st : Connector) (tries : list Try) :
  conn st = None ->
  let r := connect_loop' cfg st tries in
  pinged (snd r) = closed (snd r) ++ option_list (conn (fst r)) /\
  pinged (snd r) = seq (opened st) (length (pinged (snd r))) /\
  opened (fst r) = (opened st + length (pinged (snd r)))%nat.
Proof.
  revert st. induction tries as [|t rest IH]; intros st H r; subst r.
  - rewrite connect_loop_nil. cbn [fst snd]. rewrite H. cbn.
    split; [done|]. split; [done|lia].
  - destruct (try_attempt t) as [err|err|innodb userstat] eqn:Ht.
    + rewrite (connect_loop_OpenFails cfg st t rest err H Ht). cbn [fst snd].
      destruct (IH (mkConnector None
                      (fst (Pct.Wait (backoff st) (try_rnd t))) (opened st))
                  eq_refl) as (H1 & H2 & H3).
      cbn [opened] in H2, H3. exact (conj H1 (conj H2 H3)).
    + rewrite (connect_loop_PingFails cfg st t rest err H Ht). cbn [fst snd].
      destruct (IH (mkConnector None
                      (fst (Pct.Wait (backoff st) (try_rnd t)))
                      (S (opened st)))
                  eq_refl) as (H1 & H2 & H3).
      cbn [opened] in H2, H3.
      set (r := connect_loop' cfg _ rest) in *.
      change (pinged (_ ++ _ ++ snd r)) with (opened st :: pinged (snd r)).
      change (closed (_ ++ _ ++ snd r)) with (opened st :: closed (snd r)).
      cbn [length seq app]. split; [by rewrite H1|].
      split; [by rewrite <- H2|lia].
    + rewrite (connect_loop_Connects cfg st t rest innodb userstat H Ht).
      cbn [fst snd conn opened].
      assert (Hp : pinged (iteration_start cfg
                             (snd (Pct.Wait (backoff st) (try_rnd t))) ++
                           [CPing (opened st)] ++
                           setup cfg (opened st) innodb userstat ++
                           [CStatus "Connected"; CConnected true])
                   = [opened st]).
      { unfold pinged. rewrite !omap_app.
        fold (pinged (setup cfg (opened st) innodb userstat)).
        by rewrite pinged_setup. }
      assert (Hc : closed (iteration_start cfg
                             (snd (Pct.Wait (backoff st) (try_rnd t))) ++
                           [CPing (opened st)] ++
                           setup cfg (opened st) innodb userstat ++
                           [CStatus "Connected"; CConnected true])
                   = []).
      { unfold closed. rewrite !omap_app.
        fold (closed (setup cfg (opened st) innodb userstat)).
        by rewrite closed_setup. }
      rewrite Hp, Hc. cbn. split; [done|]. split; [done|lia].
Qed.

(** [connect] leaks no handle and keeps no closed one: of a call that
    starts without a connection, the handles pinged are, in order, those
    closed and then the one kept as the connection, if any; and they are
    all different. *)
Theorem connect_closes_all_but_the_kept (cfg : Config) (st : Connector)
    (tries : list Try) :
  conn st = None ->
  let r := connect' cfg st tries in
  pinged (snd r) = closed (snd r) ++ option_list (conn (fst r)) /\
  NoDup (pinged (snd r)).
Proof.
  intros H r. subst r. rewrite (connect_unset cfg st tries H).
  destruct (connect_loop_handles cfg st tries H) as (H1 & H2 & _).
  split; [exact H1|]. rewrite H2. apply NoDup_ListNoDup, List.seq_NoDup.
Qed.

Lemma connect_outcome (cfg : Config) (st : Connector) (tries : list Try) :
  conn st = None ->
  let r := connect' cfg st tries in
  (existsb is_Connects tries = true ->
   exists db tr,
     conn (fst r) = Some db /\
     snd r = tr ++ [CStatus "Connected"; CConnected true] /\
     List.filter is_CConnected tr = []) /\
  (existsb is_Connects tries = false ->
   conn (fst r) = None /\ List.filter is_CConnected (snd r) = []).
Proof.
  intros H r. subst r. rewrite (connect_unset cfg st tries H).
  revert st H. induction tries as [|t rest IH]; intros st H.
  - rewrite connect_loop_nil. split; [discriminate|]. intros _. by split.
  - cbn [existsb]. unfold is_Connects at 1 3.
    destruct (try_attempt t) as [err|err|innodb userstat] eqn:Ht;
      cbn [orb].
    + rewrite (connect_loop_OpenFails cfg st t rest err H Ht). cbn [fst snd].
      destruct (IH (mkConnector None
                      (fst (Pct.Wait (backoff st) (try_rnd t))) (opened st))
                  eq_refl) as [IH1 IH2].
      split.
      * intros He. destruct (IH1 He) as (db & tr & Hc & Htr & Hn).
        exists db, (iteration_start cfg
                      (snd (Pct.Wait (backoff st) (try_rnd t))) ++
                    [CLogError "sql.Open: " err] ++ tr).
        split; [exact Hc|]. split; [by rewrite Htr, <- !app_assoc|].
        rewrite !List.filter_app, Hn. reflexivity.
      * intros He. destruct (IH2 He) as [Hc Hn]. split; [exact Hc|].
        rewrite !List.filter_app, Hn. reflexivity.
    + rewrite (connect_loop_PingFails cfg st t rest err H Ht). cbn [fst snd].
      destruct (IH (mkConnector None
                      (fst (Pct.Wait (backoff st) (try_rnd t)))
                      (S (opened st)))
                  eq_refl) as [IH1 IH2].
      split.
      * intros He. destruct (IH1 He) as (db & tr & Hc & Htr & Hn).
        exists db, (iteration_start cfg
                      (snd (Pct.Wait (backoff st) (try_rnd t))) ++
                    [CPing (opened st); CLogWarn "db.Ping: " err;
                     CClose (opened st)] ++ tr).
        split; [exact Hc|]. split; [by rewrite Htr, <- !app_assoc|].
        rewrite !List.filter_app, Hn. reflexivity.
      * intros He. destruct (IH2 He) as [Hc Hn]. split; [exact Hc|].
        rewrite !List.filter_app, Hn. reflexivity.
    + rewrite (connect_loop_Connects cfg st t rest innodb userstat H Ht).
      cbn [fst snd conn]. split; [|discriminate]. intros _.
      exists (opened st),
        (iteration_start cfg (snd (Pct.Wait (backoff st) (try_rnd t))) ++
         [CPing (opened st)] ++ setup cfg (opened st) innodb userstat).
      split; [done|]. split; [by rewrite <- !app_assoc|].
      rewrite !List.filter_app, signals_setup. reflexivity.
Qed.

(** A call that starts without a connection connects exactly when one of
    its attempts does.  Then the connection is set and the "connected"
    signal is the last thing the call does, after the status "Connected",
    and the only such signal; otherwise no connection is set and no
    signal is sent. *)
Theorem connect_signals_once_when_connected (cfg : Config) (st : Connector)
    (tries : list Try) :
  conn st = None ->
  let r := connect' cfg st tries in
  (existsb is_Connects tries = true ->
   exists db tr,
     conn (fst r) = Some db /\
     snd r = tr ++ [CStatus "Connected"; CConnected true] /\
     List.filter is_CConnected tr = []) /\
  (existsb is_Connects tries = false ->
   conn (fst r) = None /\ List.filter is_CConnected (snd r) = []).
Proof. apply connect_outcome. Qed.




End ConnectFacts.

(** ** The connector at sample attempts *)

Lemma connect_with_connection_only_closes_witness :
  conn (mkConnector (Some 0%nat) (Pct.NewBackoff (5 * Pct.Second)) 1) =
    Some 0%nat /\
  Mysql.connect (fun _ => "5s") cfg1
    (mkConnector (Some 0%nat) (Pct.NewBackoff (5 * Pct.Second)) 1)
    [mkTry 0%float (Connects None None) Pct.t2015 Pct.t2015] =
  (mkConnector (Some 0%nat) (Pct.NewBackoff (5 * Pct.Second)) 1,
   [CClose 0%nat]).
Proof.
  split; [reflexivity|].
  apply (connect_with_connection_only_closes (fun _ => "5s") cfg1
           (mkConnector (Some 0%nat) (Pct.NewBackoff (5 * Pct.Second)) 1)
           [mkTry 0%float (Connects None None) Pct.t2015 Pct.t2015] 0%nat).
  reflexivity.
Defined.

Lemma connect_sleeps_backoff_waits_witness :
  let tries :=
    [mkTry 0%float (OpenFails "bad dsn") Pct.t2015 Pct.t2015;
     mkTry 0%float (PingFails "refused") Pct.t2015 Pct.t2015;
     mkTry 0%float (Connects None None) Pct.t2015 Pct.t2015] in
  conn NewConnector = None /\
  sleeps (snd (Mysql.connect (fun _ => "5s") cfg1 NewConnector tries)) =
    snd (Pct.Waits (backoff NewConnector) (map try_rnd (attempted tries))).
Proof.
  split; [reflexivity|].
  apply (connect_sleeps_backoff_waits (fun _ => "5s") cfg1 NewConnector).
  reflexivity.
Defined.

Lemma connect_closes_all_but_the_kept_witness :
  let tries :=
    [mkTry 0%float (OpenFails "bad dsn") Pct.t2015 Pct.t2015;
     mkTry 0%float (PingFails "refused") Pct.t2015 Pct.t2015;
     mkTry 0%float (Connects None None) Pct.t2015 Pct.t2015] in
  let r := Mysql.connect (fun _ => "5s") cfg1 NewConnector tries in
  conn NewConnector = None /\
  pinged (snd r) = closed (snd r) ++ option_list (conn (fst r)) /\
  NoDup (pinged (snd r)).
Proof.
  split; [reflexivity|].
  apply (connect_closes_all_but_the_kept (fun _ => "5s") cfg1 NewConnector).
  reflexivity.
Defined.

Lemma connect_signals_once_when_connected_witness :
  let tries :=
    [mkTry 0%float (OpenFails "bad dsn") Pct.t2015 Pct.t2015;
     mkTry 0%float (PingFails "refused") Pct.t2015 Pct.t2015;
     mkTry 0%float (Connects None None) Pct.t2015 Pct.t2015] in
  let r := Mysql.connect (fun _ => "5s") cfg1 NewConnector tries in
  conn NewConnector = None /\
  (existsb is_Connects tries = true ->
   exists db tr,
     conn (fst r) = Some db /\
     snd r = tr ++ [CStatus "Connected"; CConnected true] /\
     List.filter is_CConnected tr = []) /\
  (existsb is_Connects tries = false ->
   conn (fst r) = None /\ List.filter is_CConnected (snd r) = []).
Proof.
  split; [reflexivity|].
  apply (connect_signals_once_when_connected (fun _ => "5s") cfg1
           NewConnector).
  reflexivity.
Defined.

(** A first call of [connect] whose third attempt connects, and the call
    that a later "disconnected" event starts. *)
Example sample_connects :
  snd (connect_calls (fun d => if (d =? 0)%Z then "0" else "1s") cfg1
         NewConnector
         [[mkTry 0%float (OpenFails "bad dsn") Pct.t2015 Pct.t2015;
           mkTry 0%float (PingFails "refused") Pct.t2015 Pct.t2015;
           mkTry 0%float (Connects None None) Pct.t2015 Pct.t2015];
          [mkTry 0%float (Connects None None) Pct.t2015 Pct.t2015]]) =
  [CStatus "Connect wait 0"; CSleep 0; CStatus "Connecting";
   COpen (DSN cfg1); CLogError "sql.Open: " "bad dsn";
   CStatus "Connect wait 1s"; CSleep Pct.Second; CStatus "Connecting";
   COpen (DSN cfg1); CPing 0; CLogWarn "db.Ping: " "refused"; CClose 0;
   CStatus "Connect wait 1s"; CSleep (3 * Pct.Second); CStatus "Connecting";
   COpen (DSN cfg1); CPing 1] ++
  setup cfg1 1 None None ++
  [CStatus "Connected"; CConnected true;
   CClose 1].
Proof. vm_compute. reflexivity. Qed.

End MysqlSpec.

(* ===================================================================== *)
(** * Properties of the instance manager                                  *)
(* ===================================================================== *)

Module InstanceSpec.
Import Instance.

(** ** [GetMySQLInfo] *)

Lemma GetMySQLInfo_props (it : ProtoInstance) (a : InfoAnswer) (k : string) :
  k <> "hostname" -> k <> "distro" -> k <> "version" ->
  Properties (fst (fst (GetMySQLInfo it a))) !! k = Properties it !! k.
Proof.
  intros H1 H2 H3. destruct a as [err|err|h d v]; cbn; [done|done|].
  by rewrite !lookup_insert_ne.
Qed.

Lemma GetMySQLInfo_dsn (it : ProtoInstance) (a : InfoAnswer) :
  property (fst (fst (GetMySQLInfo it a))) "dsn" = property it "dsn".
Proof. unfold property. by rewrite GetMySQLInfo_props. Qed.

Lemma GetMySQLInfo_added (it : ProtoInstance) (a : InfoAnswer) :
  added_dsns (snd (GetMySQLInfo it a)) = [].
Proof. by destruct a. Qed.

Lemma GetMySQLInfo_put (it : ProtoInstance) (a : InfoAnswer) :
  put_instances (snd (GetMySQLInfo it a)) = [].
Proof. by destruct a. Qed.

Lemma GetMySQLInfo_err (it : ProtoInstance) (a : InfoAnswer) :
  snd (fst (GetMySQLInfo it a)) = None <->
  exists h d v, a = Scanned h d v.
Proof.
  destruct a as [err|err|h d v]; cbn; split; try done.
  - by intros (? & ? & ? & ?).
  - by intros (? & ? & ? & ?).
  - intros _. by exists h, d, v.
Qed.


Section Facts.

Variable HideDSNPassword : string -> string.
Variable EntryLink : string -> string.
Variable ApiKey : string.
Variable Itoa : Z -> string.

Abbreviation pushInstanceInfo := (Instance.pushInstanceInfo EntryLink ApiKey Itoa).
Abbreviation Start_body :=
  (Instance.Start_body HideDSNPassword EntryLink ApiKey Itoa).
Abbreviation Start_range :=
  (Instance.Start_range HideDSNPassword EntryLink ApiKey Itoa).
Abbreviation Start := (Instance.Start HideDSNPassword EntryLink ApiKey Itoa).
Abbreviation mrmMySQL :=
  (Instance.mrmMySQL HideDSNPassword EntryLink ApiKey Itoa).
Abbreviation mrmAddedMySQL :=
  (Instance.mrmAddedMySQL HideDSNPassword EntryLink ApiKey Itoa).
Abbreviation mrmUpdatedMySQL :=
  (Instance.mrmUpdatedMySQL HideDSNPassword EntryLink ApiKey Itoa).
Abbreviation refresh := (Instance.refresh EntryLink ApiKey Itoa).
Abbreviation on_restart :=
  (Instance.on_restart HideDSNPassword EntryLink ApiKey Itoa).

(** ** [pushInstanceInfo] *)

Lemma pushInstanceInfo_added (inst : ProtoInstance) (a : PutAnswer) :
  added_dsns (snd (pushInstanceInfo inst a)) = [].
Proof.
  destruct a as [err|err|[code|] body]; cbn; try done.
  by destruct (code =? 200)%Z.
Qed.

Lemma pushInstanceInfo_removed (inst : ProtoInstance) (a : PutAnswer) :
  removed (snd (pushInstanceInfo inst a)) = [].
Proof.
  destruct a as [err|err|[code|] body]; cbn; try done.
  by destruct (code =? 200)%Z.
Qed.

(** [pushInstanceInfo] returns no error exactly when [api.Put] returned
    none and either no response or one with status 200.  It calls
    [api.Put] once unless the instance cannot be marshalled, for the
    entry link of "insts" and the UUID, and what it puts is the instance
    without its subsystems. *)
Theorem pushInstanceInfo_outcome (inst : ProtoInstance) (a : PutAnswer) :
  let r := pushInstanceInfo inst a in
  (fst r = None <-> accepted a = true) /\
  (forall e, e ∈ snd r ->
     e = ApiPut ApiKey (EntryLink "insts" +:+ "/" +:+ UUID inst)
           (set_Subsystems inst []) \/
     exists err, a = MarshalFails err /\ e = LogError [err]) /\
  put_instances (snd r) =
    match a with
    | MarshalFails _ => []
    | _ => [set_Subsystems inst []]
    end.
Proof.
  intros r. subst r.
  destruct a as [err|err|[code|] body]; cbn.
  - split; [done|]. split; [|done]. intros e He.
    apply list_elem_of_singleton in He. right. by exists err.
  - split; [done|]. split; [|done]. intros e He.
    apply list_elem_of_singleton in He. by left.
  - destruct (code =? 200)%Z; cbn; (split; [done|]); (split; [|done]);
      intros e He; apply list_elem_of_singleton in He; by left.
  - split; [done|]. split; [|done]. intros e He.
    apply list_elem_of_singleton in He. by left.
Qed.

(** ** [Start] *)

Lemma Start_body_spec (m : Manager) (instance : ProtoInstance) (a : Answers) :
  let r := Start_body m instance a in
  added_dsns (snd r) = [property instance "dsn"] /\
  mrmChans (fst r) =
    (if info_read (instance, a) then store (mrmChans m) (instance, a)
     else mrmChans m).
Proof.
  intros r. subst r. unfold Instance.Start_body, info_read, store.
  cbn [fst snd].
  destruct (ans_Add a) as [ch|err]; [|done].
  pose proof (GetMySQLInfo_dsn instance (ans_info a)) as Hd.
  pose proof (GetMySQLInfo_added instance (ans_info a)) as Ha.
  destruct (GetMySQLInfo instance (ans_info a)) as [[it' err] ev] eqn:Hg.
  cbn [fst snd] in Hd, Ha.
  destruct (ans_info a) as [e|e|h d v] eqn:Hi; cbn in Hg;
    injection Hg as <- <- <-; try done.
  pose proof (pushInstanceInfo_added
                (set_Properties instance
                   (<["version" := v]>
                      (<["distro" := d]>
                         (<["hostname" := h]> (Properties instance)))))
                (ans_put a)) as Hp.
  destruct (pushInstanceInfo _ (ans_put a)) as [perr pev].
  cbn [fst snd] in *. split.
  - unfold added_dsns in *. cbn. by rewrite Hp.
  - by rewrite Hd.
Qed.

Lemma Start_range_spec (m : Manager)
    (instances : list (ProtoInstance * Answers)) :
  let r := Start_range m instances in
  added_dsns (snd r) = map (fun ia => property (fst ia) "dsn") instances /\
  mrmChans (fst r) =
    foldl store (mrmChans m) (List.filter info_read instances).
Proof.
  intros r. subst r. revert m.
  induction instances as [|[instance a] rest IH]; intros m; [done|].
  cbn [Instance.Start_range].
  destruct (Start_body_spec m instance a) as [H1 H2].
  destruct (Start_body m instance a) as [m1 ev]. cbn [fst snd] in H1, H2.
  destruct (IH m1) as [IH1 IH2].
  destruct (Start_range m1 rest) as [m2 tr]. cbn [fst snd] in *.
  split.
  - unfold added_dsns in *. rewrite omap_app, H1, IH1. reflexivity.
  - rewrite IH2, H2. cbn [List.filter].
    by destruct (info_read (instance, a)).
Qed.


Lemma foldl_store_other (chans : gmap string Chan)
    (l : list (ProtoInstance * Answers)) (dsn : string) :
  Forall (fun ia => property (fst ia) "dsn" <> dsn) l ->
  foldl store chans l !! dsn = chans !! dsn.
Proof.
  revert chans. induction l as [|ia rest IH]; intros chans H; [done|].
  apply Forall_cons in H as [Hia Hrest]. cbn [foldl].
  rewrite (IH _ Hrest). unfold store.
  destruct (ans_Add (snd ia)); [|done].
  by rewrite lookup_insert_ne.
Qed.

(** [Start] forgets the channel of an instance whose info it cannot
    read: the instance has been added to the restart monitor, but if no
    instance with the same DSN is read, the manager holds for its DSN
    what it held before, so that a later removal is called with that. *)
Theorem Start_forgets_channel_when_info_fails (m : Manager) (g : Chan)
    (instances : list (ProtoInstance * Answers)) (it : ProtoInstance)
    (a : Answers) (ch : Chan) :
  (it, a) ∈ instances ->
  ans_Add a = inl ch ->
  info_read (it, a) = false ->
  (forall ia, ia ∈ instances -> info_read ia = true ->
     property (fst ia) "dsn" <> property it "dsn") ->
  let r := Start m None (inl g) instances in
  property it "dsn" ∈ added_dsns (snd r) /\
  mrmChans (fst (fst r)) !! property it "dsn" =
    mrmChans m !! property it "dsn".
Proof.
  intros Hin Ha Hr Hother r. subst r. unfold Instance.Start.
  destruct (Start_range_spec m instances) as [H1 H2].
  destruct (Start_range m instances) as [m1 tr]. cbn [fst snd] in *.
  split.
  - unfold added_dsns in *. cbn. rewrite omap_app, H1. cbn.
    rewrite app_nil_r.
    apply list_elem_of_fmap. by exists (it, a).
  - rewrite H2. apply foldl_store_other. apply Forall_forall.
    intros ia Hia. apply list_elem_of_In, List.filter_In in Hia as [Hia Hf].
    apply Hother; [by apply list_elem_of_In|exact Hf].
Qed.

(** ** Updates from the API *)

Lemma mrmMySQL_no_dns (m : Manager) (inst : ProtoInstance) (a : Answers) :
  Properties inst !! "dns" = None ->
  mrmMySQL m inst a =
    (m, Some ("Missing DSN in MySQL instance " +:+ UUID inst), []).
Proof. intros H. unfold Instance.mrmMySQL. by rewrite H. Qed.

Lemma mrmAddedMySQL_no_dns (m : Manager)
    (added : list (ProtoInstance * Answers)) :
  Forall (fun ia => Properties (fst ia) !! "dns" = None) added ->
  mrmAddedMySQL m added =
    (m, map (fun ia =>
               LogError ["Missing DSN in MySQL instance " +:+ UUID (fst ia)])
          added).
Proof.
  induction added as [|[inst a] rest IH]; intros H; [done|].
  apply Forall_cons in H as [Hi Hrest]. cbn [fst] in Hi.
  cbn [Instance.mrmAddedMySQL]. rewrite (mrmMySQL_no_dns m inst a Hi).
  by rewrite (IH Hrest).
Qed.

Lemma mrmDeletedMySQL_no_dns (m : Manager) (deleted : list ProtoInstance) :
  Forall (fun it => Properties it !! "dns" = None) deleted ->
  mrmDeletedMySQL m deleted =
    map (fun it =>
           LogError ["Missing DSN in deleted MySQL instance " +:+ UUID it])
      deleted.
Proof.
  induction deleted as [|it rest IH]; intros H; [done|].
  apply Forall_cons in H as [Hi Hrest].
  cbn [Instance.mrmDeletedMySQL]. by rewrite Hi, (IH Hrest).
Qed.

(** The handlers of an update look for the DSN under the property "dns",
    not "dsn" where [Start] and [GetMySQLInfo] read it.  For instances
    without a property "dns" an update calls the restart monitor neither
    to remove nor to add, leaves the stored channels as they are, and
    logs two "Missing DSN" errors for every instance: first one per
    instance from the removal, then one per instance from the addition. *)
Theorem update_without_dns_reaches_no_monitor (m : Manager)
    (updated : list (ProtoInstance * Answers)) :
  Forall (fun ia => Properties (fst ia) !! "dns" = None) updated ->
  mrmUpdatedMySQL m updated =
    (m,
     map (fun ia =>
            LogError ["Missing DSN in deleted MySQL instance " +:+
                      UUID (fst ia)]) updated ++
     map (fun ia =>
            LogError ["Missing DSN in MySQL instance " +:+ UUID (fst ia)])
       updated).
Proof.
  intros H. unfold Instance.mrmUpdatedMySQL.
  rewrite (mrmAddedMySQL_no_dns m updated H).
  rewrite mrmDeletedMySQL_no_dns
    by (apply Forall_fmap; exact H).
  by rewrite map_map.
Qed.

Lemma mrmMySQL_removed (m : Manager) (inst : ProtoInstance) (a : Answers) :
  removed (snd (mrmMySQL m inst a)) = [].
Proof.
  unfold Instance.mrmMySQL.
  destruct (Properties inst !! "dns") as [d|]; [|done].
  destruct (ans_Add a) as [ch|err]; [|done].
  pose proof (pushInstanceInfo_removed
                (fst (fst (GetMySQLInfo inst (ans_info a)))) (ans_put a)) as Hp.
  destruct (ans_info a) as [e|e|h dd v]; cbn [GetMySQLInfo fst snd] in *;
    destruct (pushInstanceInfo _ (ans_put a)) as [perr pev];
    cbn [fst snd] in *; unfold removed in *; cbn; by rewrite Hp.
Qed.

Lemma mrmAddedMySQL_removed (m : Manager)
    (added : list (ProtoInstance * Answers)) :
  removed (snd (mrmAddedMySQL m added)) = [].
Proof.
  revert m. induction added as [|[inst a] rest IH]; intros m; [done|].
  cbn [Instance.mrmAddedMySQL].
  pose proof (mrmMySQL_removed m inst a) as H1.
  destruct (mrmMySQL m inst a) as [[m1 err] ev]. cbn [snd] in H1.
  specialize (IH m1). destruct (mrmAddedMySQL m1 rest) as [m2 tr].
  cbn [snd] in *. unfold removed in *. rewrite !omap_app, H1, IH.
  by destruct err.
Qed.

Lemma mrmDeletedMySQL_removed (m : Manager) (deleted : list ProtoInstance) :
  removed (mrmDeletedMySQL m deleted) =
    omap (fun it => match Properties it !! "dns" with
                    | Some d => Some (d, mrmChans m !! d)
                    | None => None
                    end) deleted.
Proof.
  induction deleted as [|it rest IH]; [done|].
  cbn [Instance.mrmDeletedMySQL omap list_omap].
  destruct (Properties it !! "dns") as [d|] eqn:E.
  - change (removed (?e :: ?l)) with ((d, mrmChans m !! d) :: removed l).
    by rewrite IH.
  - exact IH.
Qed.

(** An update removes before it adds: every removal of an update is
    called with the channel that was stored before the update began,
    none with a channel the update itself got; an instance never added
    before is removed with the nil channel. *)
Theorem update_removes_with_the_old_channels (m : Manager)
    (updated : list (ProtoInstance * Answers)) :
  removed (snd (mrmUpdatedMySQL m updated)) =
    omap (fun ia => match Properties (fst ia) !! "dns" with
                    | Some d => Some (d, mrmChans m !! d)
                    | None => None
                    end) updated.
Proof.
  unfold Instance.mrmUpdatedMySQL.
  pose proof (mrmAddedMySQL_removed m updated) as Ha.
  destruct (mrmAddedMySQL m updated) as [m1 tr]. cbn [snd] in *.
  unfold removed in *. rewrite omap_app, Ha, app_nil_r.
  fold (removed (mrmDeletedMySQL m (map fst updated))).
  rewrite mrmDeletedMySQL_removed.
  induction updated as [|ia rest IH]; [done|].
  cbn [map omap list_omap].
  destruct (Properties (fst ia) !! "dns"); by rewrite IH.
Qed.

(** [mrmMySQL] stores the channel as soon as the restart monitor has
    handed it out, under the property "dns", whatever becomes of the
    info and of the push; and, unlike [Start], it pushes the instance
    also when its info could not be read.  Its error is that of the
    push. *)
Theorem mrmMySQL_stores_then_pushes (m : Manager) (inst : ProtoInstance)
    (a : Answers) (itDSN : string) (ch : Chan) :
  Properties inst !! "dns" = Some itDSN ->
  ans_Add a = inl ch ->
  let r := mrmMySQL m inst a in
  let inst' := fst (fst (GetMySQLInfo inst (ans_info a))) in
  mrmChans (fst (fst r)) = <[itDSN := ch]> (mrmChans m) /\
  snd (fst r) = fst (pushInstanceInfo inst' (ans_put a)) /\
  added_dsns (snd r) = [itDSN] /\
  put_instances (snd r) =
    put_instances (snd (pushInstanceInfo inst' (ans_put a))).
Proof.
  intros Hd Ha r inst'. subst r inst'. unfold Instance.mrmMySQL.
  rewrite Hd, Ha.
  pose proof (GetMySQLInfo_added inst (ans_info a)) as Hg.
  pose proof (GetMySQLInfo_put inst (ans_info a)) as Hev.
  destruct (GetMySQLInfo inst (ans_info a)) as [[it' err] ev].
  cbn [fst snd] in *.
  pose proof (pushInstanceInfo_added it' (ans_put a)) as Hp.
  destruct (pushInstanceInfo it' (ans_put a)) as [perr pev].
  cbn [fst snd] in *. split; [done|]. split; [done|]. split.
  - unfold added_dsns in *. rewrite !omap_app, Hg, Hp. by destruct err.
  - unfold put_instances in *. rewrite !omap_app, Hev. by destruct err.
Qed.

(** ** The watcher *)

Lemma refresh_skip (safeDSN dsn : string) (pre rest : list ProtoInstance)
    (info : InfoAnswer) (put : PutAnswer) :
  Forall (fun it => property it "dsn" <> dsn) pre ->
  refresh safeDSN dsn (pre ++ rest) info put =
    refresh safeDSN dsn rest info put.
Proof.
  induction pre as [|it pre IH]; intros H; [done|].
  apply Forall_cons in H as [Hi Hpre]. cbn [app Instance.refresh].
  rewrite bool_decide_eq_false_2 by exact Hi. cbn [negb]. by apply IH.
Qed.

Lemma refresh_first (safeDSN dsn : string) (it : ProtoInstance)
    (rest : list ProtoInstance) (info : InfoAnswer) (put : PutAnswer) :
  property it "dsn" = dsn ->
  refresh safeDSN dsn (it :: rest) info put =
    refresh safeDSN dsn [it] info put.
Proof.
  intros H. cbn [Instance.refresh].
  rewrite bool_decide_eq_true_2 by exact H. cbn [negb].
  destruct (GetMySQLInfo it info) as [[it' err] ev].
  destruct err; [done|].
  by destruct (pushInstanceInfo it' put).
Qed.

(** On a restart of a DSN the watcher refreshes the first instance of
    the repo with that DSN and no other: the instances before it are
    skipped and those after it are not looked at, so what it does is what
    it would do with that instance alone.  With no such instance it opens
    no connection and puts nothing. *)
Theorem restart_refreshes_first_match_only (dsn : string)
    (pre post : list ProtoInstance) (it : ProtoInstance)
    (info : InfoAnswer) (put : PutAnswer) :
  Forall (fun i => property i "dsn" <> dsn) pre ->
  (property it "dsn" = dsn ->
   on_restart dsn (pre ++ it :: post) info put =
     on_restart dsn [it] info put) /\
  on_restart dsn pre info put =
    [LogDebug ("mrms:restart:" +:+ HideDSNPassword dsn);
     StatusUpdate "instance-mrms" ("Updating " +:+ HideDSNPassword dsn);
     LogDebug "GetMySQLInstances:call"; LogDebug "GetMySQLInstances:return"].
Proof.
  intros Hpre. unfold Instance.on_restart. split.
  - intros Hit. f_equal.
    rewrite (refresh_skip _ dsn pre (it :: post) info put Hpre).
    by apply refresh_first.
  - f_equal.
    rewrite <- (app_nil_r pre).
    by rewrite (refresh_skip _ dsn pre [] info put Hpre).
Qed.

End Facts.

(** ** [Status] *)

Lemma foldl_append_UUID (uuids : list string) (l : list ProtoInstance) :
  foldl (fun uuids it => uuids ++ [UUID it]) uuids l =
    uuids ++ map UUID l.
Proof.
  revert uuids. induction l as [|it rest IH]; intros uuids.
  - by rewrite app_nil_r.
  - cbn [foldl map]. rewrite IH, <- app_assoc. reflexivity.
Qed.

Lemma Join_blank (n : nat) (e : string) (rest : list string) :
  Join (replicate n "" ++ e :: rest) " " = blanks n +:+ Join (e :: rest) " ".
Proof.
  induction n as [|n IH]; [reflexivity|].
  cbn [replicate app]. cbn [blanks].
  change (Join ("" :: replicate n "" ++ e :: rest) " ")
    with (match replicate n "" ++ e :: rest with
          | [] => ""
          | _ :: _ => "" +:+ " " +:+ Join (replicate n "" ++ e :: rest) " "
          end).
  destruct (replicate n "" ++ e :: rest) eqn:E.
  - by destruct n.
  - rewrite IH. reflexivity.
Qed.

(** The status line of the repo starts with one space for every
    instance: the slice of UUIDs is made with the length of the list and
    the UUIDs are then appended to it, so the line joins as many empty
    strings as there are instances before the UUIDs. *)
Theorem Status_line_starts_with_blanks (it : ProtoInstance)
    (rest : list ProtoInstance) :
  Status_line (it :: rest) =
    blanks (S (length rest)) +:+ Join (map UUID (it :: rest)) " ".
Proof.
  unfold Status_line. rewrite foldl_append_UUID.
  cbn [map length]. apply (Join_blank (S (length rest))).
Qed.

(** ** The results at sample instances *)

Lemma Start_forgets_channel_when_info_fails_witness :
  let a := mkAnswers (inl 7%nat) (ConnectFails "refused")
             (PutReturns None None) in
  let r := Instance.Start (fun dsn => dsn) (fun l => l) "key"
             (fun _ => "500") (mkManager ∅) None (inl 0%nat) [(inst1, a)] in
  property inst1 "dsn" ∈ added_dsns (snd r) /\
  mrmChans (fst (fst r)) !! property inst1 "dsn" =
    mrmChans (mkManager ∅) !! property inst1 "dsn".
Proof.
  apply (Start_forgets_channel_when_info_fails (fun dsn => dsn) (fun l => l)
           "key" (fun _ => "500") (mkManager ∅) 0%nat
           [(inst1, mkAnswers (inl 7%nat) (ConnectFails "refused")
                      (PutReturns None None))]
           inst1
           (mkAnswers (inl 7%nat) (ConnectFails "refused")
              (PutReturns None None))
           7%nat).
  - left.
  - reflexivity.
  - reflexivity.
  - intros ia Hia Hr. apply list_elem_of_singleton in Hia. subst ia.
    discriminate Hr.
Defined.

Lemma update_without_dns_reaches_no_monitor_witness :
  Instance.mrmUpdatedMySQL (fun dsn => dsn) (fun l => l) "key"
    (fun _ => "500") (mkManager ∅) [(inst1, answers1)] =
  (mkManager ∅,
   [LogError ["Missing DSN in deleted MySQL instance 313"];
    LogError ["Missing DSN in MySQL instance 313"]]).
Proof.
  apply (update_without_dns_reaches_no_monitor (fun dsn => dsn) (fun l => l)
           "key" (fun _ => "500") (mkManager ∅) [(inst1, answers1)]).
  repeat constructor.
Defined.

Lemma mrmMySQL_stores_then_pushes_witness :
  let inst := set_Properties inst1 {[ "dns" := "user:pass@tcp(db1:3306)/" ]} in
  let a := mkAnswers (inl 7%nat) (ConnectFails "refused")
             (PutReturns (Some 200) None) in
  let r := Instance.mrmMySQL (fun dsn => dsn) (fun l => l) "key"
             (fun _ => "500") (mkManager ∅) inst a in
  mrmChans (fst (fst r)) !! "user:pass@tcp(db1:3306)/" = Some 7%nat /\
  put_instances (snd r) = [inst].
Proof.
  intros inst a r.
  destruct (mrmMySQL_stores_then_pushes (fun dsn => dsn) (fun l => l) "key"
              (fun _ => "500") (mkManager ∅) inst a
              "user:pass@tcp(db1:3306)/" 7%nat eq_refl eq_refl)
    as (H1 & _ & _ & H4).
  split.
  - subst r. rewrite H1. apply lookup_insert_eq.
  - subst r. rewrite H4. reflexivity.
Defined.

Lemma restart_refreshes_first_match_only_witness :
  let other := set_Properties inst1 {[ "dsn" := "other" ]} in
  Instance.on_restart (fun dsn => dsn) (fun l => l) "key" (fun _ => "500")
    (property inst1 "dsn") ([other] ++ inst1 :: [inst1])
    (ans_info answers1) (ans_put answers1) =
  Instance.on_restart (fun dsn => dsn) (fun l => l) "key" (fun _ => "500")
    (property inst1 "dsn") [inst1] (ans_info answers1) (ans_put answers1).
Proof.
  intros other.
  apply (restart_refreshes_first_match_only (fun dsn => dsn) (fun l => l)
           "key" (fun _ => "500") (property inst1 "dsn") [other] [inst1]
           inst1 (ans_info answers1) (ans_put answers1)).
  - repeat constructor. vm_compute. discriminate.
  - reflexivity.
Defined.

End InstanceSpec.

(* ===================================================================== *)
(** * Properties of the log manager                                       *)
(* ===================================================================== *)

Module LogSpec.
Import Log.

Section Facts.

Variable LogLevelNumber : gmap string Z.
Variable DEFAULT_LOG_LEVEL : string.
Variable Unmarshal : string -> Config + error.
Variable Marshal : option Config -> string + error.

Abbreviation validateConfig :=
  (Log.validateConfig LogLevelNumber DEFAULT_LOG_LEVEL).
Abbreviation apply_config := (Log.apply_config LogLevelNumber).
Abbreviation Start := (Log.Start LogLevelNumber DEFAULT_LOG_LEVEL).
Abbreviation Handle :=
  (Log.Handle LogLevelNumber DEFAULT_LOG_LEVEL Unmarshal Marshal).
Abbreviation call :=
  (Log.call LogLevelNumber DEFAULT_LOG_LEVEL Unmarshal Marshal).
Abbreviation calls :=
  (Log.calls LogLevelNumber DEFAULT_LOG_LEVEL Unmarshal Marshal).
Abbreviation known_level := (Log.known_level LogLevelNumber).

(** ** [validateConfig] *)

Lemma validateConfig_known (c : Config) :
  is_Some (LogLevelNumber !! DEFAULT_LOG_LEVEL) ->
  snd (validateConfig c) = None ->
  known_level (fst (validateConfig c)).
Proof.
  intros Hdef. unfold Log.validateConfig, Log.known_level.
  destruct (bool_decide (Level c = "")); [intros _; exact Hdef|].
  destruct (LogLevelNumber !! Level c) eqn:E; [|discriminate].
  intros _. cbn [fst]. rewrite E. by eexists.
Qed.

Lemma validateConfig_fields (c : Config) :
  File (fst (validateConfig c)) = File c /\
  Offline (fst (validateConfig c)) = Offline c.
Proof.
  unfold Log.validateConfig.
  destruct (bool_decide (Level c = "")); [done|].
  by destruct (LogLevelNumber !! Level c).
Qed.

(** ** The case "SetConfig" *)

Lemma apply_config_spec (c newConfig : Config) (w : World) :
  let r := apply_config c newConfig w in
  let c' := fst (fst r) in
  Offline c' = Offline c /\
  (File c' = File c \/ File c' = File newConfig) /\
  (Level c' = Level c \/ Level c' = Level newConfig) /\
  (snd (fst r) = [] ->
   File c' = File newConfig /\ Level c' = Level newConfig) /\
  exists ev, snd r = ev ++ [WriteConfig (Some c')].
Proof.
  intros r c'. subst c' r. unfold Log.apply_config.
  set (s1 := if negb (bool_decide (File c = File newConfig))
             then _ else _).
  assert (H1 : Offline (fst (fst s1)) = Offline c /\
               Level (fst (fst s1)) = Level c /\
               (File (fst (fst s1)) = File c \/
                File (fst (fst s1)) = File newConfig) /\
               (snd (fst s1) = [] -> File (fst (fst s1)) = File newConfig)).
  { subst s1. destruct (bool_decide (File c = File newConfig)) eqn:E;
      cbn [negb].
    - apply bool_decide_eq_true_1 in E. cbn. auto.
    - destruct (file_taken w); cbn; [auto|].
      split; [done|]. split; [done|]. split; [auto|]. discriminate. }
  destruct s1 as [[c1 errs1] ev1]. cbn [fst snd] in H1.
  destruct H1 as (Ho1 & Hl1 & Hf1 & He1).
  set (s2 := if negb (bool_decide (Level c1 = Level newConfig))
             then _ else _).
  assert (H2 : Offline (fst (fst s2)) = Offline c1 /\
               File (fst (fst s2)) = File c1 /\
               (Level (fst (fst s2)) = Level c1 \/
                Level (fst (fst s2)) = Level newConfig) /\
               (snd (fst s2) = [] -> Level (fst (fst s2)) = Level newConfig)).
  { subst s2. destruct (bool_decide (Level c1 = Level newConfig)) eqn:E;
      cbn [negb].
    - apply bool_decide_eq_true_1 in E. cbn. auto.
    - destruct (level_taken w); cbn; [auto|].
      split; [done|]. split; [done|]. split; [auto|]. discriminate. }
  destruct s2 as [[c2 errs2] ev2]. cbn [fst snd] in H2 |- *.
  destruct H2 as (Ho2 & Hf2 & Hl2 & He2).
  split; [congruence|]. split; [rewrite Hf2; exact Hf1|].
  split; [rewrite <- Hl1; exact Hl2|]. split.
  - intros H. apply List.app_eq_nil in H as [E1 H].
    apply List.app_eq_nil in H as [E2 _].
    split; [rewrite Hf2; by apply He1|by apply He2].
  - exists (ev1 ++ ev2). by rewrite <- app_assoc.
Qed.

Lemma Handle_SetConfig (m : Manager) (c : Config) (cmd : Cmd) (w : World)
    (newConfig : Config) :
  config m = Some c ->
  cmd_Cmd cmd = "SetConfig" ->
  Unmarshal (cmd_Data cmd) = inl newConfig ->
  snd (validateConfig newConfig) = None ->
  let r := apply_config c (fst (validateConfig newConfig)) w in
  Handle m cmd w =
    (mkManager (Some (fst (fst r))) (running m),
     Some (mkReply (ConfigData (fst (fst r))) (snd (fst r))),
     [StatusUpdateRe "log" "Handling" cmd] ++ snd r ++
     [StatusUpdate "log" "Running"]).
Proof.
  intros Hc Hk Hu Hv r. subst r. unfold Log.Handle.
  rewrite bool_decide_eq_true_2 by exact Hk. rewrite Hu.
  destruct (validateConfig newConfig) as [new' err]. cbn [fst snd] in *.
  subst err. rewrite Hc.
  by destruct (apply_config c new' w) as [[c' errs] ev].
Qed.

(** A "SetConfig" with a valid config on a started manager replies with
    the config the manager then holds, which is also what is written to
    disk, as the last step.  The offline flag of the new config is
    ignored.  The file and the level are each either as before or as
    asked for; and when the reply carries no error they are both as
    asked for, with the default level for an empty one. *)
Theorem SetConfig_applies_what_the_relay_took (m : Manager) (c : Config)
    (cmd : Cmd) (w : World) (newConfig : Config) :
  config m = Some c ->
  cmd_Cmd cmd = "SetConfig" ->
  Unmarshal (cmd_Data cmd) = inl newConfig ->
  snd (validateConfig newConfig) = None ->
  let asked := fst (validateConfig newConfig) in
  exists c' errs ev,
    Handle m cmd w =
      (mkManager (Some c') (running m),
       Some (mkReply (ConfigData c') errs),
       StatusUpdateRe "log" "Handling" cmd :: ev ++
       [WriteConfig (Some c'); StatusUpdate "log" "Running"]) /\
    Offline c' = Offline c /\
    (File c' = File c \/ File c' = File newConfig) /\
    (Level c' = Level c \/ Level c' = Level asked) /\
    (errs = [] -> File c' = File newConfig /\ Level c' = Level asked).
Proof.
  intros Hc Hk Hu Hv asked. subst asked.
  rewrite (Handle_SetConfig m c cmd w newConfig Hc Hk Hu Hv).
  destruct (apply_config_spec c (fst (validateConfig newConfig)) w)
    as (Ho & Hf & Hl & He & ev & Hev).
  destruct (validateConfig_fields newConfig) as [Hvf _].
  rewrite Hvf in Hf, He.
  exists (fst (fst (apply_config c (fst (validateConfig newConfig)) w))),
    (snd (fst (apply_config c (fst (validateConfig newConfig)) w))), ev.
  split; [|done]. rewrite Hev. cbn [app]. by rewrite <- app_assoc.
Qed.

(** [Handle] panics in exactly one situation: a "SetConfig" with a
    config that decodes and is valid, on a manager whose config is not
    set, that is, before a [Start] that succeeded. *)
Theorem Handle_panics_only_before_Start (m : Manager) (cmd : Cmd)
    (w : World) :
  snd (fst (Handle m cmd w)) = None <->
  config m = None /\ cmd_Cmd cmd = "SetConfig" /\
  exists newConfig,
    Unmarshal (cmd_Data cmd) = inl newConfig /\
    snd (validateConfig newConfig) = None.
Proof.
  unfold Log.Handle. split.
  - destruct (bool_decide (cmd_Cmd cmd = "SetConfig")) eqn:Ek.
    + apply bool_decide_eq_true_1 in Ek.
      destruct (Unmarshal (cmd_Data cmd)) as [new|err] eqn:Eu; [|done].
      destruct (validateConfig new) as [new' [err|]] eqn:Ev; [done|].
      destruct (config m) as [c|] eqn:Ec.
      * by destruct (apply_config c new' w) as [[c' errs] ev].
      * intros _. split; [done|]. split; [done|]. exists new.
        by rewrite Ev.
    + destruct (bool_decide (cmd_Cmd cmd = "GetConfig")).
      * by destruct (GetConfig Marshal m).
      * by destruct (bool_decide (cmd_Cmd cmd = "Reconnect")).
  - intros (Hc & Hk & new & Hu & Hv).
    rewrite bool_decide_eq_true_2 by exact Hk. rewrite Hu.
    destruct (validateConfig new) as [new' err]. cbn [snd] in Hv. subst err.
    by rewrite Hc.
Qed.

Lemma Handle_frame (m : Manager) (cmd : Cmd) (w : World) :
  (cmd_Cmd cmd = "SetConfig" /\ is_Some (config m) /\
   exists newConfig,
     Unmarshal (cmd_Data cmd) = inl newConfig /\
     snd (validateConfig newConfig) = None) \/
  (fst (fst (Handle m cmd w)) = m /\
   List.filter is_relay_or_write (snd (Handle m cmd w)) = []).
Proof.
  unfold Log.Handle.
  destruct (bool_decide (cmd_Cmd cmd = "SetConfig")) eqn:Ek.
  - apply bool_decide_eq_true_1 in Ek.
    destruct (Unmarshal (cmd_Data cmd)) as [new|err] eqn:Eu;
      [|by right].
    destruct (validateConfig new) as [new' [err|]] eqn:Ev; [by right|].
    destruct (config m) as [c|] eqn:Ec; [|by right].
    left. split; [done|]. split; [by eexists|]. exists new. by rewrite Ev.
  - right. destruct (bool_decide (cmd_Cmd cmd = "GetConfig")).
    + by destruct (GetConfig Marshal m).
    + by destruct (bool_decide (cmd_Cmd cmd = "Reconnect")).
Qed.

(** [Handle] writes to the manager, sends to the relay and writes the
    config to disk only in a "SetConfig" on a started manager that gets
    a valid config: every other command, a config that does not decode
    and one with an unknown level leave the manager as it is, and
    nothing is sent or written. *)
Theorem Handle_touches_nothing_unless_valid_SetConfig (m : Manager)
    (cmd : Cmd) (w : World) :
  (cmd_Cmd cmd = "SetConfig" /\ is_Some (config m) /\
   exists newConfig,
     Unmarshal (cmd_Data cmd) = inl newConfig /\
     snd (validateConfig newConfig) = None) \/
  (fst (fst (Handle m cmd w)) = m /\
   List.filter is_relay_or_write (snd (Handle m cmd w)) = []).
Proof. apply Handle_frame. Qed.

(** ** Histories of calls *)

Lemma apply_config_no_GoRelayRun (c newConfig : Config) (w : World) :
  List.filter is_GoRelayRun (snd (apply_config c newConfig w)) = [].
Proof.
  unfold Log.apply_config.
  destruct (bool_decide (File c = File newConfig)), (file_taken w);
    cbn [negb set_File Level];
    destruct (bool_decide (Level c = Level newConfig)), (level_taken w);
    reflexivity.
Qed.

Lemma Start_cases (m : Manager) (read : ReadAnswer) :
  (fst (fst (Start m read)) = m /\ snd (Start m read) = []) \/
  (config m = None /\
   exists c0,
     snd (validateConfig c0) = None /\
     fst (fst (Start m read)) =
       mkManager (Some (fst (validateConfig c0))) true /\
     List.filter is_GoRelayRun (snd (Start m read)) = [GoRelayRun]).
Proof.
  unfold Log.Start. destruct (config m) as [c|]; [by left|].
  assert (Hs : forall c0,
    (fst (fst (match validateConfig c0 with
               | (_, Some err) => (m, Some err, [])
               | (config, None) =>
                   (mkManager (Some config) true, None,
                    [NewRelay (File config)
                       (levelNumber LogLevelNumber (Level config))
                       (Offline config);
                     GoRelayRun; LogInfo "Started";
                     StatusUpdate "log" "Running"])
               end)) = m /\
     snd (match validateConfig c0 with
          | (_, Some err) => (m, Some err, [])
          | (config, None) =>
              (mkManager (Some config) true, None,
               [NewRelay (File config)
                  (levelNumber LogLevelNumber (Level config))
                  (Offline config);
                GoRelayRun; LogInfo "Started";
                StatusUpdate "log" "Running"])
          end) = []) \/
    (@None Config = None /\
     exists c1,
       snd (validateConfig c1) = None /\
       fst (fst (match validateConfig c0 with
                 | (_, Some err) => (m, Some err, [])
                 | (config, None) =>
                     (mkManager (Some config) true, None,
                      [NewRelay (File config)
                         (levelNumber LogLevelNumber (Level config))
                         (Offline config);
                       GoRelayRun; LogInfo "Started";
                       StatusUpdate "log" "Running"])
                 end)) =
         mkManager (Some (fst (validateConfig c1))) true /\
       List.filter is_GoRelayRun
         (snd (match validateConfig c0 with
               | (_, Some err) => (m, Some err, [])
               | (config, None) =>
                   (mkManager (Some config) true, None,
                    [NewRelay (File config)
                       (levelNumber LogLevelNumber (Level config))
                       (Offline config);
                     GoRelayRun; LogInfo "Started";
                     StatusUpdate "log" "Running"])
               end)) = [GoRelayRun])).
  { intros c0. destruct (validateConfig c0) as [c1 [err|]] eqn:Ev;
      [by left|].
    right. split; [done|]. exists c0. rewrite Ev. by cbn. }
  destruct read as [c0|err|err]; [apply Hs|apply Hs|by left].
Qed.

Lemma Handle_cases (m : Manager) (cmd : Cmd) (w : World) :
  (fst (fst (Handle m cmd w)) = m /\
   List.filter is_GoRelayRun (snd (Handle m cmd w)) = []) \/
  (exists c newConfig,
     config m = Some c /\ snd (validateConfig newConfig) = None /\
     fst (fst (Handle m cmd w)) =
       mkManager
         (Some (fst (fst (apply_config c (fst (validateConfig newConfig)) w))))
         (running m) /\
     List.filter is_GoRelayRun (snd (Handle m cmd w)) = []).
Proof.
  destruct (Handle_frame m cmd w)
    as [(Hk & [c Hc] & new & Hu & Hv)|[H1 H2]].
  - right. exists c, new. split; [done|]. split; [done|].
    rewrite (Handle_SetConfig m c cmd w new Hc Hk Hu Hv). cbn [fst snd].
    split; [done|].
    rewrite !List.filter_app, apply_config_no_GoRelayRun. reflexivity.
  - left. split; [exact H1|].
    unfold Log.Handle in *.
    destruct (bool_decide (cmd_Cmd cmd = "SetConfig")).
    + destruct (Unmarshal (cmd_Data cmd)) as [new|err]; [|done].
      destruct (validateConfig new) as [new' [err|]]; [done|].
      destruct (config m) as [c|]; [|done].
      destruct (apply_config c new' w) as [[c' errs] ev] eqn:Ea.
      cbn [fst snd] in *.
      pose proof (apply_config_no_GoRelayRun c new' w) as Hn.
      rewrite Ea in Hn. cbn [snd] in Hn.
      by rewrite !List.filter_app, Hn.
    + destruct (bool_decide (cmd_Cmd cmd = "GetConfig")).
      * by destruct (GetConfig Marshal m).
      * by destruct (bool_decide (cmd_Cmd cmd = "Reconnect")).
Qed.

Lemma call_cases (m : Manager) (k : Call) :
  is_Some (LogLevelNumber !! DEFAULT_LOG_LEVEL) ->
  well_formed LogLevelNumber m ->
  well_formed LogLevelNumber (fst (call m k)) /\
  (is_Some (config m) -> is_Some (config (fst (call m k)))) /\
  length (List.filter is_GoRelayRun (snd (call m k))) =
    (if bool_decide (is_Some (config m)) then 0%nat
     else if bool_decide (is_Some (config (fst (call m k)))) then 1%nat
          else 0%nat).
Proof.
  intros Hdef [Hk Hr].
  assert (Hsame : forall ev,
            List.filter is_GoRelayRun ev = [] ->
            well_formed LogLevelNumber m /\
            (is_Some (config m) -> is_Some (config m)) /\
            length (List.filter is_GoRelayRun ev) =
              (if bool_decide (is_Some (config m)) then 0%nat
               else if bool_decide (is_Some (config m))
                    then 1%nat else 0%nat)).
  { intros ev ->. split; [by split|]. split; [done|].
    by destruct (bool_decide (is_Some (config m))). }
  destruct k as [read|cmd w]; cbn [Log.call].
  - destruct (Start_cases m read) as [[H1 H2]|(Hc & c0 & Hv & H1 & H2)];
      destruct (Start m read) as [[m1 err] ev]; cbn [fst snd] in *.
    + subst m1 ev. by apply Hsame.
    + subst m1. rewrite H2. cbn [config length].
      rewrite Hc.
      rewrite (bool_decide_eq_false_2 (is_Some None))
        by (intros [? ?]; done).
      rewrite bool_decide_eq_true_2 by (by eexists).
      split; [split|by split; [by eexists|]].
      * intros c2 H2'. cbn in H2'. injection H2' as <-.
        by apply validateConfig_known.
      * cbn [running config].
        by rewrite bool_decide_eq_true_2 by (by eexists).
  - destruct (Handle_cases m cmd w)
      as [[H1 H2]|(c & new & Hc & Hv & H1 & H2)];
      destruct (Handle m cmd w) as [[m1 rep] ev]; cbn [fst snd] in *.
    + subst m1. by apply Hsame.
    + subst m1. rewrite H2. cbn [config length].
      rewrite !bool_decide_eq_true_2 by (rewrite ?Hc; by eexists).
      split; [split|by split; [by eexists|]].
      * intros c2 H2'. cbn in H2'. injection H2' as <-.
        destruct (apply_config_spec c (fst (validateConfig new)) w)
          as (_ & _ & Hl & _).
        unfold Log.known_level.
        destruct Hl as [-> | ->];
          [by apply Hk|by apply validateConfig_known].
      * cbn [running config]. rewrite Hr, Hc.
        by rewrite !bool_decide_eq_true_2 by (by eexists).
Qed.

Lemma calls_cases (m : Manager) (ks : list Call) :
  is_Some (LogLevelNumber !! DEFAULT_LOG_LEVEL) ->
  well_formed LogLevelNumber m ->
  well_formed LogLevelNumber (fst (calls m ks)) /\
  (is_Some (config m) -> is_Some (config (fst (calls m ks)))) /\
  length (List.filter is_GoRelayRun (snd (calls m ks))) =
    (if bool_decide (is_Some (config m)) then 0%nat
     else if bool_decide (is_Some (config (fst (calls m ks)))) then 1%nat
          else 0%nat).
Proof.
  intros Hdef. revert m. induction ks as [|k rest IH]; intros m Hm.
  - cbn. split; [done|]. split; [done|].
    by destruct (bool_decide (is_Some (config m))).
  - cbn [Log.calls].
    destruct (call_cases m k Hdef Hm) as (Hm1 & Hs1 & Hc1).
    destruct (call m k) as [m1 ev]. cbn [fst snd] in *.
    destruct (IH m1 Hm1) as (Hm2 & Hs2 & Hc2).
    destruct (calls m1 rest) as [m2 tr]. cbn [fst snd] in *.
    split; [exact Hm2|]. split; [by auto|].
    rewrite List.filter_app, length_app, Hc1, Hc2.
    destruct (decide (is_Some (config m))) as [Y|N].
    + rewrite !bool_decide_eq_true_2 by auto. reflexivity.
    + rewrite (bool_decide_eq_false_2 _ N).
      destruct (decide (is_Some (config m1))) as [Y1|N1].
      * rewrite !bool_decide_eq_true_2 by auto. reflexivity.
      * rewrite (bool_decide_eq_false_2 _ N1). reflexivity.
Qed.

(** When the default level is a known one, then after every history of
    [Start] and [Handle] calls on a new manager, whatever is read from
    disk and whatever the commands carry: the level of the config is a
    known one, the manager counts as running exactly when its config is
    set, and at most one relay was ever started. *)
Theorem level_stays_known (ks : list Call) :
  is_Some (LogLevelNumber !! DEFAULT_LOG_LEVEL) ->
  let r := calls NewManager ks in
  well_formed LogLevelNumber (fst r) /\
  (length (List.filter is_GoRelayRun (snd r)) <= 1)%nat.
Proof.
  intros Hdef r. subst r.
  assert (H0 : well_formed LogLevelNumber NewManager).
  { split; [done|]. reflexivity. }
  destruct (calls_cases NewManager ks Hdef H0) as (H1 & _ & H3).
  split; [exact H1|]. rewrite H3.
  destruct (bool_decide (is_Some (config NewManager)));
    [lia|destruct (bool_decide _); lia].
Qed.

End Facts.

(** ** The results at a sample manager *)

Lemma SetConfig_applies_what_the_relay_took_witness :
  let m := mkManager (Some (mkConfig "old.log" "info" false)) true in
  let cmd := mkCmd "SetConfig" "{File:agent.log,Level:debug}" in
  let w := mkWorld true false None in
  exists c' errs ev,
    Log.Handle levels1 "info" unmarshal1 marshal1 m cmd w =
      (mkManager (Some c') (running m),
       Some (mkReply (ConfigData c') errs),
       StatusUpdateRe "log" "Handling" cmd :: ev ++
       [WriteConfig (Some c'); StatusUpdate "log" "Running"]) /\
    Offline c' = false /\
    (File c' = "old.log" \/ File c' = "agent.log") /\
    (Level c' = "info" \/ Level c' = "debug") /\
    (errs = [] -> File c' = "agent.log" /\ Level c' = "debug").
Proof.
  intros m cmd w.
  apply (SetConfig_applies_what_the_relay_took levels1 "info" unmarshal1
           marshal1 m (mkConfig "old.log" "info" false) cmd w
           (mkConfig "agent.log" "debug" true));
    reflexivity.
Defined.

Lemma level_stays_known_witness :
  let ks :=
    [CallHandle (mkCmd "SetConfig" "{Level:loud}") (mkWorld true true None);
     CallStart (ReadNotExist "open log.conf: no such file or directory");
     CallStart (ReadOk (mkConfig "a.log" "debug" false));
     CallHandle (mkCmd "SetConfig" "{File:agent.log,Level:debug}")
       (mkWorld true true None)] in
  let r := Log.calls levels1 "info" unmarshal1 marshal1 NewManager ks in
  well_formed levels1 (fst r) /\
  (length (List.filter is_GoRelayRun (snd r)) <= 1)%nat.
Proof.
  intros ks.
  apply (level_stays_known levels1 "info" unmarshal1 marshal1 ks).
  vm_compute. by eexists.
Defined.

(** A manager that is started without a config file, then told a level
    nobody knows, then given a new file and level while the relay takes
    only the file. *)
Example sample_log_manager :
  Log.calls levels1 "info" unmarshal1 marshal1 NewManager
    [CallStart (ReadNotExist "open log.conf: no such file or directory");
     CallHandle (mkCmd "SetConfig" "{Level:loud}") (mkWorld true true None);
     CallHandle (mkCmd "SetConfig" "{File:agent.log,Level:debug}")
       (mkWorld true false None)] =
  (mkManager (Some (mkConfig "agent.log" "info" false)) true,
   [NewRelay "" 6 false; GoRelayRun; LogInfo "Started";
    StatusUpdate "log" "Running";
    StatusUpdateRe "log" "Handling" (mkCmd "SetConfig" "{Level:loud}");
    StatusUpdate "log" "Running";
    StatusUpdateRe "log" "Handling"
      (mkCmd "SetConfig" "{File:agent.log,Level:debug}");
    RelayFile "agent.log"; TimedOut (3 * Pct.Second);
    WriteConfig (Some (mkConfig "agent.log" "info" false));
    StatusUpdate "log" "Running"]).
Proof. vm_compute. reflexivity. Qed.

End LogSpec.
